(** * db2odbc_fdw: the connection cache, the connector, the scan engine

    A shallow embedding of [db2odbc_fdw.c] and the properties of its
    connection cache, option validator, diagnostic extraction, retry loop
    and row iteration.

    Conventions of the embedding.
    - A [char *] argument is the list of the bytes it points to; the list is
      implicitly followed by the terminating NUL, and a NUL inside the list
      ends the C string there, as it does in memory.
    - A fixed array ([char dsn_name[DSN_MAX_LEN]]) is the list of exactly
      its bytes, with no implicit terminator: reading past it is undefined.
    - The ODBC driver and [malloc] are the environment.  Their answers are
      given by an oracle indexed by the number of the call; the calls made
      so far are counted in the [world].
    - Lines written with [elog(NOTICE, ...)] are kept in the [world]; the
      lines of [logdebug] (level DEBUG5) are left out.
    - The catalogs are given by what [GetForeignTable], [GetForeignServer],
      [GetUserMapping] and [GetUserId] do ([catalog_lookup]): one of them
      raises, or they return the options and the user ([ForeignTable]).
      [getConnection] and [db2_BeginForeignScan] are the two functions for
      the table the lookups returned; [getConnection_lookup] and
      [db2_BeginForeignScan_lookup] are the same functions with the
      lookups in front.
    - [BuildTupleFromCStrings] is given by what it does with the array
      [values] ([tuple_answer]).  [db2_IterateForeignScan] is the function
      up to that call; [db2_IterateForeignScan_tuple] is the function with
      the call. *)

From Stdlib Require Import ZArith Lia List Ascii String Bool.
From stdpp Require Import base list strings.
From Equations Require Import Equations.
Import ListNotations.
Open Scope Z_scope.

(** ** C strings *)

Definition NUL : ascii := Ascii.zero.

Definition cstr (s : string) : list ascii := list_ascii_of_string s.

(** [strlen]: the number of bytes before the first NUL. *)
Fixpoint strlen (s : list ascii) : nat :=
  match s with
  | [] => O
  | c :: s' => if Ascii.eqb c NUL then O else S (strlen s')
  end.

(** The C string held at a pointer: the bytes before the first NUL. *)
Fixpoint c_str (s : list ascii) : list ascii :=
  match s with
  | [] => []
  | c :: s' => if Ascii.eqb c NUL then [] else c :: c_str s'
  end.

(** [strcmp(a, s) == 0] where [a] is a fixed array and [s] a [char *].
    [None]: the comparison runs past the last byte of the array. *)
Fixpoint strcmp_eq (a : list ascii) (s : list ascii) : option bool :=
  match a with
  | [] => None
  | x :: a' =>
      let y := hd NUL s in
      if Ascii.eqb x y
      then if Ascii.eqb x NUL then Some true else strcmp_eq a' (tl s)
      else Some false
  end.

(** [strncpy(dst, src, n)]: the first [n] bytes of [dst] receive the bytes
    of [src] up to its terminator and are NUL-padded after it; the bytes of
    [dst] from offset [n] on keep what they held. *)
Fixpoint strncpy (dst src : list ascii) (n : nat) : list ascii :=
  match n, dst with
  | O, _ => dst
  | S _, [] => []
  | S n', _ :: dst' =>
      match src with
      | [] => NUL :: strncpy dst' [] n'
      | c :: src' =>
          if Ascii.eqb c NUL then NUL :: strncpy dst' [] n'
          else c :: strncpy dst' src' n'
      end
  end.

(** [strrchr(s, c)]: the offset of the last [c] in the C string at [s]. *)
Fixpoint strrchr (s : list ascii) (c : ascii) : option nat :=
  match s with
  | [] => None
  | x :: s' =>
      if Ascii.eqb x NUL then None
      else match strrchr s' c with
           | Some p => Some (S p)
           | None => if Ascii.eqb x c then Some O else None
           end
  end.

(** [atol]: white space, an optional sign, then decimal digits; the value
    is clamped to the range of [long] as [strtol] does. *)
Definition isspace (c : ascii) : bool :=
  let n := nat_of_ascii c in
  (Nat.eqb n 32 || (Nat.leb 9 n && Nat.leb n 13))%bool.

Definition digit_of (c : ascii) : option Z :=
  let n := Z.of_nat (nat_of_ascii c) in
  if (48 <=? n) && (n <=? 57) then Some (n - 48) else None.

Fixpoint skip_spaces (s : list ascii) : list ascii :=
  match s with
  | c :: s' => if isspace c then skip_spaces s' else s
  | [] => []
  end.

Fixpoint digits_value (acc : Z) (s : list ascii) : Z :=
  match s with
  | c :: s' =>
      match digit_of c with
      | Some d => digits_value (10 * acc + d) s'
      | None => acc
      end
  | [] => acc
  end.

Definition LONG_MAX : Z := 9223372036854775807.
Definition LONG_MIN : Z := -9223372036854775808.

Definition clamp_long (z : Z) : Z := Z.max LONG_MIN (Z.min LONG_MAX z).

Definition atol (s : list ascii) : Z :=
  match skip_spaces s with
  | c :: r =>
      if Ascii.eqb c "-" then clamp_long (- digits_value 0 r)
      else if Ascii.eqb c "+" then clamp_long (digits_value 0 r)
      else clamp_long (digits_value 0 (c :: r))
  | [] => 0
  end.

(** ** ODBC and PostgreSQL constants (sql.h, sqlext.h, catalog headers) *)

Definition SQLRETURN := Z.
Definition SQL_SUCCESS : SQLRETURN := 0.
Definition SQL_SUCCESS_WITH_INFO : SQLRETURN := 1.
Definition SQL_NO_DATA : SQLRETURN := 100.
Definition SQL_NO_DATA_FOUND : SQLRETURN := 100.
Definition SQL_ERROR : SQLRETURN := -1.
Definition SQL_INVALID_HANDLE : SQLRETURN := -2.

(** [#define SQL_SUCCEEDED(rc) (((rc) & (~1)) == 0)] *)
Definition SQL_SUCCEEDED (rc : SQLRETURN) : bool :=
  Z.land rc (Z.lnot 1) =? 0.

Definition SQL_NULL_DATA : Z := -1.

Definition SQL_HANDLE_ENV : Z := 1.
Definition SQL_HANDLE_DBC : Z := 2.
Definition SQL_HANDLE_STMT : Z := 3.

Definition SQL_NUMERIC : Z := 2.
Definition SQL_DECIMAL : Z := 3.
Definition SQL_FLOAT : Z := 6.
Definition SQL_REAL : Z := 7.
Definition SQL_DOUBLE : Z := 8.

Definition Oid := Z.
Definition InvalidOid : Oid := 0.
Definition ForeignServerRelationId : Oid := 1417.
Definition UserMappingRelationId : Oid := 1418.
Definition ForeignTableRelationId : Oid := 3118.

Definition SQLHANDLE := Z.

(** Conversions to the signed 16- and 32-bit types. *)
Definition to_int16 (z : Z) : Z := (z + 32768) mod 65536 - 32768.
Definition to_int32 (z : Z) : Z := (z + 2147483648) mod 4294967296 - 2147483648.

(** ** Errors raised with [ereport(ERROR, ...)] *)

Inductive sqlerrcode :=
| ERRCODE_FDW_INVALID_OPTION_NAME
| ERRCODE_FDW_OPTION_NAME_NOT_FOUND
| ERRCODE_FDW_UNABLE_TO_ESTABLISH_CONNECTION
| ERRCODE_FDW_ERROR.

Record ErrorData := {
  errcode : sqlerrcode;
  errmsg : string;
  errhint : string
}.

(** [%s] applied to a [char *] that may be NULL. *)
Definition fmt_s (s : option string) : string :=
  match s with Some x => x | None => "(null)" end.

(** ** The connection cache *)

Definition DSN_MAX_LEN : nat := 128.

Abbreviation addr := nat.

Record db2ConnectionCacheEntry := {
  dsn_name : list ascii;
  userId : Oid;
  env : SQLHANDLE;
  dbc : SQLHANDLE;
  next : option addr
}.

Definition set_next (p : option addr) (e : db2ConnectionCacheEntry) :=
  {| dsn_name := dsn_name e; userId := userId e; env := env e; dbc := dbc e;
     next := p |}.

(** Calls that give a handle back to the driver. *)
Inductive handle_call :=
| FreeHandle (type : Z) (h : SQLHANDLE)
| Disconnect (h : SQLHANDLE).

(** Lines written with [elog(NOTICE, ...)]. *)
Inductive notice :=
| NoticeText (s : string)
| NoticeDiagnostics (fn : string)
| NoticeDiagRec (state : string) (i : Z) (native : Z) (text : string).

(** The state of the backend process and the calls made so far.
    [heap] holds the blocks obtained from [malloc]; the address of a block
    is its index.  A freed block keeps its contents and is listed in
    [freed].  [cache] is the static variable of that name.  [released] and
    [notices] record the handles given back to the driver and the NOTICE
    lines, in order.  [n_getconn], [n_connect], [n_exec] and [n_fetch]
    count the calls of [getConnection], [SQLConnect], [SQLExecDirect] and
    [SQLFetch]. *)
Record world := {
  heap : list db2ConnectionCacheEntry;
  freed : list addr;
  cache : option addr;
  released : list handle_call;
  notices : list notice;
  n_getconn : nat;
  n_connect : nat;
  n_exec : nat;
  n_fetch : nat
}.

Definition empty_world : world :=
  {| heap := []; freed := []; cache := None; released := []; notices := [];
     n_getconn := O; n_connect := O; n_exec := O; n_fetch := O |}.

Definition set_heap (h : list db2ConnectionCacheEntry) (w : world) : world :=
  {| heap := h; freed := freed w; cache := cache w; released := released w;
     notices := notices w; n_getconn := n_getconn w; n_connect := n_connect w;
     n_exec := n_exec w; n_fetch := n_fetch w |}.

Definition set_freed (f : list addr) (w : world) : world :=
  {| heap := heap w; freed := f; cache := cache w; released := released w;
     notices := notices w; n_getconn := n_getconn w; n_connect := n_connect w;
     n_exec := n_exec w; n_fetch := n_fetch w |}.

Definition set_cache (c : option addr) (w : world) : world :=
  {| heap := heap w; freed := freed w; cache := c; released := released w;
     notices := notices w; n_getconn := n_getconn w; n_connect := n_connect w;
     n_exec := n_exec w; n_fetch := n_fetch w |}.

Definition set_released (r : list handle_call) (w : world) : world :=
  {| heap := heap w; freed := freed w; cache := cache w; released := r;
     notices := notices w; n_getconn := n_getconn w; n_connect := n_connect w;
     n_exec := n_exec w; n_fetch := n_fetch w |}.

Definition set_notices (n : list notice) (w : world) : world :=
  {| heap := heap w; freed := freed w; cache := cache w; released := released w;
     notices := n; n_getconn := n_getconn w; n_connect := n_connect w;
     n_exec := n_exec w; n_fetch := n_fetch w |}.

Definition count_getconn (w : world) : world :=
  {| heap := heap w; freed := freed w; cache := cache w; released := released w;
     notices := notices w; n_getconn := S (n_getconn w);
     n_connect := n_connect w; n_exec := n_exec w; n_fetch := n_fetch w |}.

Definition count_connect (w : world) : world :=
  {| heap := heap w; freed := freed w; cache := cache w; released := released w;
     notices := notices w; n_getconn := n_getconn w;
     n_connect := S (n_connect w); n_exec := n_exec w; n_fetch := n_fetch w |}.

Definition count_exec (w : world) : world :=
  {| heap := heap w; freed := freed w; cache := cache w; released := released w;
     notices := notices w; n_getconn := n_getconn w; n_connect := n_connect w;
     n_exec := S (n_exec w); n_fetch := n_fetch w |}.

Definition count_fetch (w : world) : world :=
  {| heap := heap w; freed := freed w; cache := cache w; released := released w;
     notices := notices w; n_getconn := n_getconn w; n_connect := n_connect w;
     n_exec := n_exec w; n_fetch := S (n_fetch w) |}.

(** ** Outcomes and the monad of the embedding *)

Inductive outcome (A : Type) : Type :=
| Ok (a : A)            (* the function returns *)
| Raise (e : ErrorData) (* ereport(ERROR, ...) *)
| Undefined             (* stray pointer, NULL string, read past an array *)
| OutOfFuel.            (* a loop did not end within its bound *)
Arguments Ok {A} a.
Arguments Raise {A} e.
Arguments Undefined {A}.
Arguments OutOfFuel {A}.

Definition M (A : Type) : Type := world -> outcome A * world.

Definition ret {A} (a : A) : M A := fun w => (Ok a, w).

Definition bind {A B} (m : M A) (k : A -> M B) : M B :=
  fun w =>
    match m w with
    | (Ok a, w') => k a w'
    | (Raise e, w') => (Raise e, w')
    | (Undefined, w') => (Undefined, w')
    | (OutOfFuel, w') => (OutOfFuel, w')
    end.

Definition ereport {A} (e : ErrorData) : M A := fun w => (Raise e, w).
Definition undefined {A} : M A := fun w => (Undefined, w).
Definition out_of_fuel {A} : M A := fun w => (OutOfFuel, w).
Definition get : M world := fun w => (Ok w, w).
Definition modify (f : world -> world) : M unit := fun w => (Ok tt, f w).

Declare Scope fdw_scope.
Delimit Scope fdw_scope with fdw.
Notation "x <- c1 ;; c2" := (bind c1 (fun x => c2))
  (at level 100, c1 at next level, right associativity) : fdw_scope.
Notation "c1 ;;; c2" := (bind c1 (fun _ => c2))
  (at level 100, right associativity) : fdw_scope.
Open Scope fdw_scope.

Definition elog_notice (n : notice) : M unit :=
  modify (fun w => set_notices (notices w ++ [n]) w).

Definition lognotice (s : string) : M unit := elog_notice (NoticeText s).

Definition SQLFreeHandle (type : Z) (h : SQLHANDLE) : M unit :=
  modify (fun w => set_released (released w ++ [FreeHandle type h]) w).

Definition SQLDisconnect (h : SQLHANDLE) : M unit :=
  modify (fun w => set_released (released w ++ [Disconnect h]) w).

Definition free (a : addr) : M unit :=
  modify (fun w => set_freed (freed w ++ [a]) w).

(** [findConnection]: the [for] loop over the list that starts at [cache]. *)
Fixpoint findConnection_loop (fuel : nat) (h : list db2ConnectionCacheEntry)
    (e : option addr) (dsn : list ascii) (uid : Oid) : outcome (option addr) :=
  match e with
  | None => Ok None
  | Some a =>
      match fuel with
      | O => OutOfFuel
      | S fuel' =>
          match h !! a with
          | None => Undefined
          | Some n =>
              match strcmp_eq (dsn_name n) dsn with
              | None => Undefined
              | Some true =>
                  if userId n =? uid then Ok (Some a)
                  else findConnection_loop fuel' h (next n) dsn uid
              | Some false => findConnection_loop fuel' h (next n) dsn uid
              end
          end
      end
  end.

Definition findConnection (dsn : list ascii) (uid : Oid) : M (option addr) :=
  fun w => (findConnection_loop (length (heap w)) (heap w) (cache w) dsn uid, w).

(** [addNewConnection].  [junk] is what the block returned by [malloc]
    holds in the bytes of [dsn_name] before [strncpy] writes to it. *)
Definition malloc_dsn_name (junk : nat -> ascii) : list ascii :=
  map junk (seq 0 DSN_MAX_LEN).

Definition addNewConnection (junk : nat -> ascii) (dsn : list ascii)
    (uid : Oid) (henv hdbc : SQLHANDLE) : M unit :=
  modify (fun w =>
    let e := {| dsn_name := strncpy (malloc_dsn_name junk) dsn (DSN_MAX_LEN - 1);
                userId := uid; env := henv; dbc := hdbc;
                next := cache w |} in
    set_cache (Some (length (heap w))) (set_heap (heap w ++ [e]) w)).

(** [removeConnection].  [prev] is set to NULL before the loop and the loop
    never assigns it.  After [free(e)] the loop reads [e->next] from the
    freed block, which still holds it. *)
Fixpoint removeConnection_loop (fuel : nat) (prev e : option addr)
    (hdbc : SQLHANDLE) : M unit :=
  match e with
  | None => ret tt
  | Some a =>
      match fuel with
      | O => out_of_fuel
      | S fuel' =>
          w <- get ;;
          match heap w !! a with
          | None => undefined
          | Some n =>
              if dbc n =? hdbc then
                match prev with
                | None => modify (set_cache (next n))
                | Some p =>
                    modify (fun w => set_heap (alter (set_next (next n)) p (heap w)) w)
                end ;;;
                SQLFreeHandle SQL_HANDLE_DBC (dbc n) ;;;
                SQLFreeHandle SQL_HANDLE_ENV (env n) ;;;
                free a ;;;
                removeConnection_loop fuel' prev (next n) hdbc
              else removeConnection_loop fuel' prev (next n) hdbc
          end
      end
  end.

Definition removeConnection (hdbc : SQLHANDLE) : M unit :=
  w <- get ;;
  removeConnection_loop (length (heap w)) None (cache w) hdbc.

(** ** Option validation *)

Record db2FdwOption := {
  optname : string;
  optcontext : Oid;
  required : bool
}.

Definition DSN : string := "dsn".
Definition CACHED : string := "cached".
Definition USERNAME : string := "username".
Definition PASSWORD : string := "password".
Definition QUERY : string := "sql_query".

Definition ANYERROR : Z := -1.

(** The array [valid_options]; the sentinel is the end of the list. *)
Definition valid_options : list db2FdwOption :=
  [ {| optname := DSN; optcontext := ForeignServerRelationId; required := true |};
    {| optname := CACHED; optcontext := ForeignServerRelationId; required := false |};
    {| optname := QUERY; optcontext := ForeignTableRelationId; required := true |};
    {| optname := USERNAME; optcontext := UserMappingRelationId; required := true |};
    {| optname := PASSWORD; optcontext := UserMappingRelationId; required := true |} ].

(** A [DefElem] with its name and the string [defGetString] gives. *)
Record DefElem := {
  defname : string;
  defstring : string
}.

Fixpoint createValidOptions_loop (opts : list db2FdwOption) (context : Oid)
    (buf : string) : string :=
  match opts with
  | [] => buf
  | opt1 :: rest =>
      if context =? optcontext opt1
      then createValidOptions_loop rest context
             (buf +:+ (if Nat.ltb 0 (String.length buf) then ", " else "")
                  +:+ optname opt1)
      else createValidOptions_loop rest context buf
  end.

Definition createValidOptions (context : Oid) : string :=
  createValidOptions_loop valid_options context "".

Definition valid_options_hint (context : Oid) : string :=
  let buf := createValidOptions context in
  "Valid options in this context are: "
    +:+ (if Nat.ltb 0 (String.length buf) then buf else "<none>").

(** The inner loop of the first phase: [valid] and whether the loop left
    [opt] on an entry of the table ([opt->optname != NULL]). *)
Fixpoint scan_valid_options (opts : list db2FdwOption) (name : string)
    (context : Oid) : bool * bool :=
  match opts with
  | [] => (false, false)
  | opt :: rest =>
      if String.eqb (optname opt) name
      then (context =? optcontext opt, true)
      else scan_valid_options rest name context
  end.

Definition dquote : string := String "034"%char EmptyString.

Definition invalid_option (name : string) (recognized : bool) (context : Oid)
    : ErrorData :=
  {| errcode := ERRCODE_FDW_INVALID_OPTION_NAME;
     errmsg := "invalid option " +:+ dquote +:+ name +:+ dquote +:+ " "
               +:+ (if recognized
                    then "(option name is recognized but is invalid in this context)"
                    else "");
     errhint := valid_options_hint context |}.

Definition option_required (name : string) (context : Oid) : ErrorData :=
  {| errcode := ERRCODE_FDW_OPTION_NAME_NOT_FOUND;
     errmsg := "option is required: " +:+ name;
     errhint := valid_options_hint context |}.

Fixpoint validate_supplied (options_list : list DefElem) (context : Oid)
    : outcome unit :=
  match options_list with
  | [] => Ok tt
  | def :: rest =>
      let '(valid, recognized) :=
        scan_valid_options valid_options (defname def) context in
      if negb valid then Raise (invalid_option (defname def) recognized context)
      else validate_supplied rest context
  end.

Fixpoint option_supplied (options_list : list DefElem) (name : string) : bool :=
  match options_list with
  | [] => false
  | def :: rest =>
      if String.eqb name (defname def) then true
      else option_supplied rest name
  end.

Fixpoint validate_required (opts : list db2FdwOption)
    (options_list : list DefElem) (context : Oid) : outcome unit :=
  match opts with
  | [] => Ok tt
  | opt1 :: rest =>
      if negb (required opt1) then validate_required rest options_list context
      else if negb (context =? optcontext opt1)
      then validate_required rest options_list context
      else if negb (option_supplied options_list (optname opt1))
      then Raise (option_required (optname opt1) context)
      else validate_required rest options_list context
  end.

Definition db2odbc_fdw_validator (options_list : list DefElem) (context : Oid)
    : outcome unit :=
  match validate_supplied options_list context with
  | Ok _ => validate_required valid_options options_list context
  | r => r
  end.

(** ** Diagnostics *)

Record DiagRec := {
  diag_state : string;
  diag_native : Z;
  diag_text : string
}.

(** The diagnostic area of a handle: for record number [k+1], the return
    code of [SQLGetDiagRec] and the record it writes. *)
Abbreviation diag_area := (list (SQLRETURN * DiagRec)).

Definition stale_rec : DiagRec :=
  {| diag_state := ""; diag_native := 0; diag_text := "" |}.

Definition SQLGetDiagRec (d : diag_area) (RecNumber : Z) : SQLRETURN * DiagRec :=
  if RecNumber <=? 0 then (SQL_ERROR, stale_rec)
  else match d !! Z.to_nat (RecNumber - 1) with
       | Some answer => answer
       | None => (SQL_NO_DATA, stale_rec)
       end.

(** The [do ... while (ret == SQL_SUCCESS)] loop of [extract_error].
    [outnative] is [None] for a NULL pointer, else the value it points to.
    [i] is an SQLINTEGER; the parameter RecNumber is an SQLSMALLINT. *)
Fixpoint extract_error_loop (fuel : nat) (d : diag_area) (i : Z)
    (outnative : option Z) : M (option Z) :=
  match fuel with
  | O => out_of_fuel
  | S fuel' =>
      let i := i + 1 in
      let '(r, rec) := SQLGetDiagRec d (to_int16 i) in
      outnative <-
        (if SQL_SUCCEEDED r then
           elog_notice (NoticeDiagRec (diag_state rec) i (diag_native rec)
                                      (diag_text rec)) ;;;
           ret (match outnative with
                | Some v => if v =? ANYERROR then Some (diag_native rec) else Some v
                | None => None
                end)
         else ret outnative) ;;
      if r =? SQL_SUCCESS then extract_error_loop fuel' d i outnative
      else ret outnative
  end.

Definition extract_error (fn : string) (d : diag_area) (want_native : bool)
    : M (option Z) :=
  elog_notice (NoticeDiagnostics fn) ;;;
  extract_error_loop (S (length d)) d 0
    (if want_native then Some ANYERROR else None).

(** ** The environment: the driver's answers and what [malloc] returns *)

(** One pass through the fresh-connection branch of [getConnection]. *)
Record ConnectAnswer := {
  alloc_env_ret : SQLRETURN;
  env_handle : SQLHANDLE;
  setenvattr_ret : SQLRETURN;
  setenvattr_diag : diag_area;
  alloc_dbc_ret : SQLRETURN;
  dbc_handle : SQLHANDLE;
  alloc_dbc_diag : diag_area;
  connect_ret : SQLRETURN;
  connect_diag : diag_area
}.

(** [SQLAllocHandle(SQL_HANDLE_STMT, ...)] followed by [SQLExecDirect]. *)
Record ExecAnswer := {
  stmt_handle : SQLHANDLE;
  exec_ret : SQLRETURN;
  exec_diag : diag_area
}.

Record ColumnAnswer := {
  describe_ret : SQLRETURN;
  DataTypePtr : Z;
  ColumnSizePtr : Z;
  describe_diag : diag_area
}.

(** [SQLNumResultCols] and [SQLDescribeCol] on the statement of an execute. *)
Record DescribeAnswer := {
  numcols_ret : SQLRETURN;
  numcols_value : Z;
  numcols_diag : diag_area;
  describe_col : nat -> ColumnAnswer
}.

(** [SQLGetData]: the return code, what the column buffer holds after the
    call, and the length indicator. *)
Record GetDataAnswer := {
  getdata_ret : SQLRETURN;
  getdata_buf : list ascii;
  getdata_indicator : Z;
  getdata_diag : diag_area
}.

Record FetchAnswer := {
  fetch_ret : SQLRETURN;
  fetch_diag : diag_area;
  fetch_cell : nat -> GetDataAnswer
}.

(** [SQLAllocHandle(SQL_HANDLE_ENV, ...)] in [list_drivers].  The driver
    ends the enumeration of [SQLDataSources] that follows. *)
Record DriversAnswer := {
  drivers_env_ret : SQLRETURN;
  drivers_env : SQLHANDLE
}.

Record Driver := {
  on_connect : nat -> ConnectAnswer;
  on_exec : nat -> ExecAnswer;
  on_describe : nat -> DescribeAnswer;
  on_fetch : nat -> FetchAnswer;
  on_list_drivers : nat -> DriversAnswer;
  malloc_junk : nat -> nat -> ascii
}.

(** ** The connector *)

Record db2ColumnDesc := {
  columnsize : Z;
  isNumber : bool
}.

Record db2PrivateData := {
  data_env : SQLHANDLE;
  data_dbc : SQLHANDLE;
  stmt : SQLHANDLE;
  no_columns : Z;
  columnsbuf : list db2ColumnDesc;
  cached : option string
}.

(** The block [palloc] returns for [db2PrivateData]; every field is written
    before it is read. *)
Definition palloc_data : db2PrivateData :=
  {| data_env := 0; data_dbc := 0; stmt := 0; no_columns := 0;
     columnsbuf := []; cached := None |}.

Definition set_cached (c : option string) (d : db2PrivateData) :=
  {| data_env := data_env d; data_dbc := data_dbc d; stmt := stmt d;
     no_columns := no_columns d; columnsbuf := columnsbuf d; cached := c |}.

Definition set_data_env (h : SQLHANDLE) (d : db2PrivateData) :=
  {| data_env := h; data_dbc := data_dbc d; stmt := stmt d;
     no_columns := no_columns d; columnsbuf := columnsbuf d; cached := cached d |}.

Definition set_data_dbc (h : SQLHANDLE) (d : db2PrivateData) :=
  {| data_env := data_env d; data_dbc := h; stmt := stmt d;
     no_columns := no_columns d; columnsbuf := columnsbuf d; cached := cached d |}.

Definition set_stmt (h : SQLHANDLE) (d : db2PrivateData) :=
  {| data_env := data_env d; data_dbc := data_dbc d; stmt := h;
     no_columns := no_columns d; columnsbuf := columnsbuf d; cached := cached d |}.

Definition set_columns (n : Z) (cols : list db2ColumnDesc) (d : db2PrivateData) :=
  {| data_env := data_env d; data_dbc := data_dbc d; stmt := stmt d;
     no_columns := n; columnsbuf := cols; cached := cached d |}.

(** What the catalog lookups of [getConnection] return: the options of the
    foreign table, of its server and of the user mapping, and what
    [GetUserId()] returns. *)
Record ForeignTable := {
  table_options : list DefElem;
  server_options : list DefElem;
  mapping_options : list DefElem;
  user_id : Oid
}.

Record conn_options := {
  o_dsn : option string;
  o_username : option string;
  o_password : option string;
  o_cached : option string;
  o_query : option string
}.

(** The [foreach] over the concatenated options in [getConnection]. *)
Fixpoint scan_options (options : list DefElem) (o : conn_options) : conn_options :=
  match options with
  | [] => o
  | def :: rest =>
      let v := Some (defstring def) in
      scan_options rest
        (if String.eqb (defname def) DSN then
           {| o_dsn := v; o_username := o_username o; o_password := o_password o;
              o_cached := o_cached o; o_query := o_query o |}
         else if String.eqb (defname def) CACHED then
           {| o_dsn := o_dsn o; o_username := o_username o; o_password := o_password o;
              o_cached := v; o_query := o_query o |}
         else if String.eqb (defname def) PASSWORD then
           {| o_dsn := o_dsn o; o_username := o_username o; o_password := v;
              o_cached := o_cached o; o_query := o_query o |}
         else if String.eqb (defname def) USERNAME then
           {| o_dsn := o_dsn o; o_username := v; o_password := o_password o;
              o_cached := o_cached o; o_query := o_query o |}
         else if String.eqb (defname def) QUERY then
           {| o_dsn := o_dsn o; o_username := o_username o; o_password := o_password o;
              o_cached := o_cached o; o_query := v |}
         else o)
  end.

Definition resolve_options (t : ForeignTable) (query : option string) : conn_options :=
  scan_options (table_options t ++ server_options t ++ mapping_options t)
    {| o_dsn := None; o_username := None; o_password := None;
       o_cached := None; o_query := query |}.

Definition unable_to_connect (dsn : string) : ErrorData :=
  {| errcode := ERRCODE_FDW_UNABLE_TO_ESTABLISH_CONNECTION;
     errmsg := "cannot connect to odbc dsn " +:+ dsn;
     errhint := "Check connection data or make sure that target database is online" |}.

Definition unless (b : bool) (m : M unit) : M unit := if b then ret tt else m.

(** [findConnection] with a NULL [dsn], as [getConnection] calls it when no
    option dsn is set: with an empty cache the loop body is not entered;
    otherwise [strcmp(e->dsn_name, NULL)] reads through the NULL pointer. *)
Definition findConnection_null : M (option addr) :=
  w <- get ;;
  match cache w with
  | None => ret None
  | Some _ => undefined
  end.

(** [getConnection], from the [foreach] over the options on.  A NULL [dsn]
    is handed to [SQLConnect] and to [%s] as it is; [addNewConnection]
    would hand it to [strncpy]. *)
Definition getConnection (drv : Driver) (t : ForeignTable)
    (data : db2PrivateData) (query : option string)
    : M (db2PrivateData * option string) :=
  modify count_getconn ;;;
  let o := resolve_options t query in
  let data := set_cached (o_cached o) data in
  e <- match o_dsn o with
       | Some dsn => findConnection (cstr dsn) (user_id t)
       | None => findConnection_null
       end ;;
  match e with
  | Some a =>
      w <- get ;;
      match heap w !! a with
      | None => undefined
      | Some n => ret (set_data_dbc (dbc n) (set_data_env (env n) data), o_query o)
      end
  | None =>
      w <- get ;;
      let c := on_connect drv (n_connect w) in
      let data := set_data_env (env_handle c) data in
      unless (SQL_SUCCEEDED (alloc_env_ret c))
        (lognotice "Cannot allocate SQL_HANDLE_ENV") ;;;
      unless (SQL_SUCCEEDED (setenvattr_ret c))
        (lognotice "Cannot set SQL_ATTR_ODBC_VERSION" ;;;
         extract_error "SQL_ATTR_ODBC_VERSION" (setenvattr_diag c) false ;;;
         ret tt) ;;;
      let data := set_data_dbc (dbc_handle c) data in
      unless (SQL_SUCCEEDED (alloc_dbc_ret c))
        (lognotice "Cannot allocate SQL_HANDLE_DBC" ;;;
         extract_error "SQLAllocHandle SQL_HANDLE_DBC" (alloc_dbc_diag c) false ;;;
         ret tt) ;;;
      modify count_connect ;;;
      unless (SQL_SUCCEEDED (connect_ret c))
        (extract_error "SQLDriverConnect" (connect_diag c) false ;;;
         ereport (unable_to_connect (fmt_s (o_dsn o)))) ;;;
      match o_cached o with
      | Some _ =>
          match o_dsn o with
          | Some dsn =>
              addNewConnection (malloc_junk drv (length (heap w))) (cstr dsn)
                (user_id t) (data_env data) (data_dbc data)
          | None => undefined
          end
      | None => ret tt
      end ;;;
      ret (data, o_query o)
  end.

(** The lookups at the head of [getConnection]: [GetForeignTable],
    [GetForeignServer] and [GetUserMapping] return what the catalogs hold
    for the table, or one of them raises, as [GetUserMapping] does for a
    user without a mapping on the server. *)
Inductive catalog_lookup :=
| lookup_raises (e : ErrorData)
| lookup_returns (t : ForeignTable).

(** [getConnection] with its lookups: an error of theirs is raised before
    anything else is done. *)
Definition getConnection_lookup (drv : Driver) (c : catalog_lookup)
    (data : db2PrivateData) (query : option string)
    : M (db2PrivateData * option string) :=
  match c with
  | lookup_raises e => modify count_getconn ;;; ereport e
  | lookup_returns t => getConnection drv t data query
  end.

Definition closeConnection (data : db2PrivateData) : M unit :=
  match cached data with
  | None =>
      SQLDisconnect (data_dbc data) ;;;
      SQLFreeHandle SQL_HANDLE_DBC (data_dbc data) ;;;
      SQLFreeHandle SQL_HANDLE_ENV (data_env data)
  | Some _ => ret tt
  end.

(** ** The scan engine *)

Definition RETRYNUMB : nat := 2.

Definition exec_failed (query : option string) : ErrorData :=
  {| errcode := ERRCODE_FDW_ERROR;
     errmsg := "Cannot execute query " +:+ fmt_s query;
     errhint := "Check query syntax" |}.

Definition numcols_failed (query : option string) : ErrorData :=
  {| errcode := ERRCODE_FDW_ERROR;
     errmsg := "Cannot retrieve number of columns " +:+ fmt_s query;
     errhint := "Check query syntax" |}.

Definition describe_failed (query : option string) : ErrorData :=
  {| errcode := ERRCODE_FDW_ERROR;
     errmsg := "Cannot retrieve column description for query " +:+ fmt_s query;
     errhint := "Check query syntax" |}.

Definition fetch_failed : ErrorData :=
  {| errcode := ERRCODE_FDW_ERROR;
     errmsg := "Cannot fetch next row";
     errhint := "Check query syntax" |}.

Definition getdata_failed : ErrorData :=
  {| errcode := ERRCODE_FDW_ERROR;
     errmsg := "Cannot get data for next column";
     errhint := "Check query syntax" |}.

(** The [while (retry < RETRYNUMB)] loop of [db2_BeginForeignScan].  The
    result carries [data], [query] and [failure]. *)
Fixpoint begin_loop (fuel : nat) (drv : Driver) (t : ForeignTable)
    (retry : nat) (data : db2PrivateData) (query : option string)
    : M (db2PrivateData * option string * bool) :=
  if negb (Nat.ltb retry RETRYNUMB) then ret (data, query, true)
  else
    match fuel with
    | O => out_of_fuel
    | S fuel' =>
        dq <- getConnection drv t data query ;;
        let data := fst dq in
        let query := snd dq in
        w <- get ;;
        let x := on_exec drv (n_exec w) in
        let data := set_stmt (stmt_handle x) data in
        modify count_exec ;;;
        if SQL_SUCCEEDED (exec_ret x) then ret (data, query, false)
        else
          let retry := S retry in
          native <- extract_error "Error while executing query" (exec_diag x) true ;;
          match cached data with
          | None => ret (data, query, true)
          | Some c =>
              removeConnection (data_dbc data) ;;;
              let lcached := atol (cstr c) in
              let lcached := if lcached =? 0 then ANYERROR else lcached in
              if lcached =? ANYERROR then begin_loop fuel' drv t retry data query
              else if negb (lcached =? default ANYERROR native)
              then ret (data, query, true)
              else begin_loop fuel' drv t retry data query
          end
    end.

Definition is_number_type (DataType : Z) : bool :=
  (DataType =? SQL_DECIMAL) || (DataType =? SQL_NUMERIC) || (DataType =? SQL_REAL)
  || (DataType =? SQL_DOUBLE) || (DataType =? SQL_FLOAT).

(** The [for] loop over the columns in [db2_BeginForeignScan]. *)
Fixpoint describe_columns (n : nat) (i : nat) (a : DescribeAnswer)
    (query : option string) (cols : list db2ColumnDesc)
    : M (list db2ColumnDesc) :=
  match n with
  | O => ret cols
  | S n' =>
      let c := describe_col a i in
      unless (SQL_SUCCEEDED (describe_ret c))
        (extract_error "SQLDescribeCol" (describe_diag c) false ;;;
         ereport (describe_failed query)) ;;;
      describe_columns n' (S i) a query
        (cols ++ [{| columnsize := ColumnSizePtr c;
                     isNumber := is_number_type (DataTypePtr c) |}])
  end.

(** The part of [db2_BeginForeignScan] that follows the loop and its
    [failure] test: the number of columns and their description. *)
Definition describe_result (drv : Driver) (data : db2PrivateData)
    (query : option string) : M db2PrivateData :=
  w <- get ;;
  let a := on_describe drv (Nat.pred (n_exec w)) in
  unless (SQL_SUCCEEDED (numcols_ret a))
    (extract_error "SQLNumResultCols" (numcols_diag a) false ;;;
     ereport (numcols_failed query)) ;;;
  cols <- describe_columns (Z.to_nat (numcols_value a)) O a query [] ;;
  ret (set_columns (numcols_value a) cols data).

(** [list_drivers].  The loop over [SQLDataSources] ends when the driver
    has listed its data sources and writes DEBUG5 lines only.  The handle
    is given back whether or not it was allocated. *)
Definition list_drivers (drv : Driver) : M unit :=
  w <- get ;;
  let a := on_list_drivers drv (n_getconn w) in
  unless (SQL_SUCCEEDED (drivers_env_ret a))
    (lognotice "Cannot allocate SQL_HANDLE_ENV") ;;;
  SQLFreeHandle SQL_HANDLE_ENV (drivers_env a).

(** The part of [db2_BeginForeignScan] that follows [list_drivers()]. *)
Definition begin_scan (drv : Driver) (t : ForeignTable) : M db2PrivateData :=
  r <- begin_loop RETRYNUMB drv t O palloc_data None ;;
  let '(data, query, failure) := r in
  if failure : bool then ereport (exec_failed query)
  else describe_result drv data query.

Definition db2_BeginForeignScan (drv : Driver) (t : ForeignTable)
    : M db2PrivateData :=
  list_drivers drv ;;;
  begin_scan drv t.

(** [db2_BeginForeignScan] with the lookups of [getConnection]: the same
    loop, in which every call of [getConnection] starts with them. *)
Fixpoint begin_loop_lookup (fuel : nat) (drv : Driver) (c : catalog_lookup)
    (retry : nat) (data : db2PrivateData) (query : option string)
    : M (db2PrivateData * option string * bool) :=
  if negb (Nat.ltb retry RETRYNUMB) then ret (data, query, true)
  else
    match fuel with
    | O => out_of_fuel
    | S fuel' =>
        dq <- getConnection_lookup drv c data query ;;
        let data := fst dq in
        let query := snd dq in
        w <- get ;;
        let x := on_exec drv (n_exec w) in
        let data := set_stmt (stmt_handle x) data in
        modify count_exec ;;;
        if SQL_SUCCEEDED (exec_ret x) then ret (data, query, false)
        else
          let retry := S retry in
          native <- extract_error "Error while executing query" (exec_diag x) true ;;
          match cached data with
          | None => ret (data, query, true)
          | Some token =>
              removeConnection (data_dbc data) ;;;
              let lcached := atol (cstr token) in
              let lcached := if lcached =? 0 then ANYERROR else lcached in
              if lcached =? ANYERROR then begin_loop_lookup fuel' drv c retry data query
              else if negb (lcached =? default ANYERROR native)
              then ret (data, query, true)
              else begin_loop_lookup fuel' drv c retry data query
          end
    end.

Definition db2_BeginForeignScan_lookup (drv : Driver) (c : catalog_lookup)
    : M db2PrivateData :=
  list_drivers drv ;;;
  r <- begin_loop_lookup RETRYNUMB drv c O palloc_data None ;;
  let '(data, query, failure) := r in
  if failure : bool then ereport (exec_failed query)
  else describe_result drv data query.

(** The number of commas in the C string at [s]: what the loop
    [while ((p = strrchr(values[i], ','))) *p = '.';] decreases. *)
Fixpoint commas (s : list ascii) : nat :=
  match s with
  | [] => O
  | x :: s' =>
      if Ascii.eqb x NUL then O
      else ((if Ascii.eqb x ","%char then 1 else 0) + commas s')%nat
  end.

Definition inspect {A : Type} (x : A) : {y : A | x = y} := exist _ x eq_refl.

Equations? replace_commas (s : list ascii) : list ascii by wf (commas s) lt :=
  replace_commas s with inspect (strrchr s ","%char) => {
    | exist _ (Some p) Hp => replace_commas (<[p := "."%char]> s);
    | exist _ None _ => s }.
Proof.
  clear replace_commas. revert p Hp.
  induction s as [|x s IH]; intros p Hp; simpl in *; [discriminate|].
  destruct (Ascii.eqb x NUL) eqn:Hx; [discriminate|].
  destruct (strrchr s ","%char) as [q|] eqn:Hq.
  - injection Hp as <-. simpl. rewrite Hx.
    specialize (IH q eq_refl). lia.
  - destruct (Ascii.eqb x ","%char) eqn:Hc; [|discriminate].
    injection Hp as <-. simpl.
    assert (commas s = O) as ->.
    { clear -Hq. induction s as [|y s IH]; simpl in *; [reflexivity|].
      destruct (Ascii.eqb y NUL); [reflexivity|].
      destruct (strrchr s ","%char); [discriminate|].
      destruct (Ascii.eqb y ","%char); [discriminate|].
      simpl. apply IH. reflexivity. }
    lia.
Qed.

(** The [for] loop over the columns in [db2_IterateForeignScan]: a cell of
    [values] is NULL or the C string in the column's buffer. *)
Fixpoint iterate_columns (n : nat) (i : nat) (data : db2PrivateData)
    (a : FetchAnswer) (values : list (option (list ascii)))
    : M (list (option (list ascii))) :=
  match n with
  | O => ret values
  | S n' =>
      match columnsbuf data !! i with
      | None => undefined
      | Some col =>
          let g := fetch_cell a i in
          let v :=
            if to_int32 (getdata_indicator g) =? SQL_NULL_DATA then None
            else Some (c_str (if isNumber col
                              then replace_commas (getdata_buf g)
                              else getdata_buf g)) in
          unless (SQL_SUCCEEDED (getdata_ret g))
            (extract_error "SQLGetData" (getdata_diag g) false ;;;
             ereport getdata_failed) ;;;
          iterate_columns n' (S i) data a (values ++ [v])
      end
  end.

(** [db2_IterateForeignScan]: [None] is the NULL slot returned at the end
    of the data, [Some values] the array [values] as it is handed to
    [BuildTupleFromCStrings], whose tuple is stored in the slot. *)
Definition db2_IterateForeignScan (drv : Driver) (data : db2PrivateData)
    : M (option (list (option (list ascii)))) :=
  w <- get ;;
  let a := on_fetch drv (n_fetch w) in
  modify count_fetch ;;;
  if fetch_ret a =? SQL_NO_DATA_FOUND then ret None
  else
    unless (SQL_SUCCEEDED (fetch_ret a))
      (extract_error "SQLFetch" (fetch_diag a) false ;;;
       ereport fetch_failed) ;;;
    values <- iterate_columns (Z.to_nat (no_columns data)) O data a [] ;;
    ret (Some values).

(** What [BuildTupleFromCStrings] does with the array [values]: the input
    functions of the column types build the tuple, or one of them raises;
    when the table has more attributes than the result has columns, it
    reads past the array. *)
Inductive tuple_answer :=
| tuple_built
| tuple_raises (e : ErrorData)
| tuple_reads_past.

(** [db2_IterateForeignScan] with its call of [BuildTupleFromCStrings]; the
    slot returned holds the tuple built of [values]. *)
Definition db2_IterateForeignScan_tuple (drv : Driver)
    (build : list (option (list ascii)) -> tuple_answer)
    (data : db2PrivateData) : M (option (list (option (list ascii)))) :=
  r <- db2_IterateForeignScan drv data ;;
  match r with
  | None => ret None
  | Some values =>
      match build values with
      | tuple_built => ret (Some values)
      | tuple_raises e => ereport e
      | tuple_reads_past => undefined
      end
  end.

Definition db2_EndForeignScan (data : db2PrivateData) : M unit :=
  SQLFreeHandle SQL_HANDLE_STMT (stmt data) ;;;
  closeConnection data.

(** * Vocabulary of the properties and sample inputs *)

(** ** Vocabulary: option validation *)

(** The allow-list of a context and the names it requires, read off
    [valid_options]. *)
Definition allowed (name : string) (context : Oid) : Prop :=
  exists opt, In opt valid_options /\ optname opt = name /\ optcontext opt = context.

Definition required_in (name : string) (context : Oid) : Prop :=
  exists opt, In opt valid_options /\ optname opt = name
              /\ optcontext opt = context /\ required opt = true.

Definition allowed_names (context : Oid) : list string :=
  map optname (List.filter (fun opt => context =? optcontext opt) valid_options).

Definition supplied (name : string) (options_list : list DefElem) : Prop :=
  exists def, In def options_list /\ defname def = name.

(** ** Vocabulary: diagnostics *)

(** What one pass over the diagnostic area [d], starting after record number
    [i], writes as notices and leaves in [*outnative]. *)
Fixpoint diag_scan (d : diag_area) (i : Z) (outnative : option Z)
    : list notice * option Z :=
  match d with
  | [] => ([], outnative)
  | (r, rec) :: d' =>
      if SQL_SUCCEEDED r then
        let line := NoticeDiagRec (diag_state rec) (i + 1) (diag_native rec)
                                  (diag_text rec) in
        let out' := match outnative with
                    | Some v => if v =? ANYERROR then Some (diag_native rec) else Some v
                    | None => None
                    end in
        if r =? SQL_SUCCESS
        then (line :: fst (diag_scan d' (i + 1) out'), snd (diag_scan d' (i + 1) out'))
        else ([line], out')
      else ([], outnative)
  end.

(** The records a handle can hand out: RecNumber is an SQLSMALLINT. *)
Definition MAX_DIAG_RECORDS : Z := 32767.

Definition diag_records (d : diag_area) : diag_area :=
  take (Z.to_nat MAX_DIAG_RECORDS) d.

(** The native code of the first record whose native code is not the
    sentinel, and the sentinel when there is none. *)
Definition first_native (recs : list DiagRec) : Z :=
  match List.find (fun r => negb (diag_native r =? ANYERROR)) recs with
  | Some r => diag_native r
  | None => ANYERROR
  end.

(** The notice lines of the records, numbered from [i + 1]. *)
Fixpoint diag_lines (i : Z) (recs : list DiagRec) : list notice :=
  match recs with
  | [] => []
  | r :: recs' =>
      NoticeDiagRec (diag_state r) (i + 1) (diag_native r) (diag_text r)
        :: diag_lines (i + 1) recs'
  end.

(** The native code [extract_error] hands to [db2_BeginForeignScan]. *)
Definition reported_native (d : diag_area) : Z :=
  match fst (extract_error "Error while executing query" d true empty_world) with
  | Ok (Some native) => native
  | _ => ANYERROR
  end.

(** ** Vocabulary: row iteration *)

Definition subst_comma (c : ascii) : ascii :=
  if Ascii.eqb c ","%char then "."%char else c.

(** The cell emitted for a column, from its descriptor and the answer of
    [SQLGetData]. *)
Definition emitted_cell (col : db2ColumnDesc) (g : GetDataAnswer)
    : option (list ascii) :=
  if to_int32 (getdata_indicator g) =? SQL_NULL_DATA then None
  else Some (if isNumber col then map subst_comma (c_str (getdata_buf g))
             else c_str (getdata_buf g)).

Definition emitted_row (data : db2PrivateData) (a : FetchAnswer)
    : list (option (list ascii)) :=
  imap (fun k col => emitted_cell col (fetch_cell a k)) (columnsbuf data).

(** The fetch succeeds and so does [SQLGetData] on every column. *)
Definition row_fetched (data : db2PrivateData) (a : FetchAnswer) : Prop :=
  SQL_SUCCEEDED (fetch_ret a) = true
  /\ Z.to_nat (no_columns data) = length (columnsbuf data)
  /\ forall k, (k < length (columnsbuf data))%nat ->
               SQL_SUCCEEDED (getdata_ret (fetch_cell a k)) = true.

(** ** Vocabulary: the shape of the cache *)

(** The shape every cache reachable from the empty one has: [cache] and the
    [next] fields point to allocated blocks, a block points to an older
    one, and [dsn_name] has [DSN_MAX_LEN] bytes. *)
Definition ptr_ok (h : list db2ConnectionCacheEntry) (p : option addr) : bool :=
  match p with
  | None => true
  | Some a => Nat.ltb a (length h)
  end.

Definition entry_ok (a : addr) (n : db2ConnectionCacheEntry) : bool :=
  Nat.eqb (length (dsn_name n)) DSN_MAX_LEN
  && match next n with
     | None => true
     | Some b => Nat.ltb b a
     end.

Definition heap_ok (h : list db2ConnectionCacheEntry) : bool :=
  forallb (fun b : bool => b) (imap entry_ok h).

Definition cache_ok (w : world) : bool :=
  ptr_ok (heap w) (cache w) && heap_ok (heap w).

(** What [removeConnection] leaves unchanged. *)
Definition same_calls (w w' : world) : Prop :=
  heap w' = heap w /\ notices w' = notices w /\ n_getconn w' = n_getconn w
  /\ n_connect w' = n_connect w /\ n_exec w' = n_exec w /\ n_fetch w' = n_fetch w.

(** The calls counted in two worlds are the same. *)
Definition same_counts (w w' : world) : Prop :=
  n_getconn w' = n_getconn w /\ n_connect w' = n_connect w
  /\ n_exec w' = n_exec w.

(** Two states that differ at most in the handles given back and in the
    notices written. *)
Definition same_store (w w' : world) : Prop :=
  exists rl ns, w' = set_released rl (set_notices ns w).

(** ** Vocabulary: the retry loop *)

(** The test the loop makes on the token of the option [cached]. *)
Definition retry_eligible (token : string) (native : Z) : bool :=
  let lcached := atol (cstr token) in
  (lcached =? 0) || (lcached =? ANYERROR) || (lcached =? native).

(** The world after a failed [SQLExecDirect] and its diagnostics. *)
Definition after_exec_failure (x : ExecAnswer) (w : world) : world :=
  snd (extract_error "Error while executing query" (exec_diag x) true (count_exec w)).

(** The query text, the dsn and the token do not change between turns. *)
Fixpoint query_of (options : list DefElem) (query : option string) : option string :=
  match options with
  | [] => query
  | def :: rest =>
      query_of rest
        (if String.eqb (defname def) DSN then query
         else if String.eqb (defname def) CACHED then query
         else if String.eqb (defname def) PASSWORD then query
         else if String.eqb (defname def) USERNAME then query
         else if String.eqb (defname def) QUERY then Some (defstring def)
         else query)
  end.

(** ** Sample inputs *)

Definition sample_rec (native : Z) : DiagRec :=
  {| diag_state := "40001"; diag_native := native; diag_text := "deadlock" |}.

Definition sample_cell (text : string) (indicator : Z) : GetDataAnswer :=
  {| getdata_ret := SQL_SUCCESS; getdata_buf := cstr text;
     getdata_indicator := indicator; getdata_diag := [] |}.

Definition sample_fetch (indicator : Z) : FetchAnswer :=
  {| fetch_ret := SQL_SUCCESS; fetch_diag := [];
     fetch_cell := fun _ => sample_cell "123,45" indicator |}.

(** A session with a DECIMAL column followed by a VARCHAR column. *)
Definition sample_data : db2PrivateData :=
  {| data_env := 1; data_dbc := 2; stmt := 3; no_columns := 2;
     columnsbuf := [ {| columnsize := 20; isNumber := true |};
                     {| columnsize := 20; isNumber := false |} ];
     cached := None |}.

Definition fetch_driver (indicator : Z) : Driver :=
  {| on_connect := fun _ =>
       {| alloc_env_ret := 0; env_handle := 1; setenvattr_ret := 0;
          setenvattr_diag := []; alloc_dbc_ret := 0; dbc_handle := 2;
          alloc_dbc_diag := []; connect_ret := 0; connect_diag := [] |};
     on_exec := fun _ => {| stmt_handle := 3; exec_ret := 0; exec_diag := [] |};
     on_describe := fun _ =>
       {| numcols_ret := 0; numcols_value := 0; numcols_diag := [];
          describe_col := fun _ =>
            {| describe_ret := 0; DataTypePtr := 0; ColumnSizePtr := 0;
               describe_diag := [] |} |};
     on_fetch := fun _ => sample_fetch indicator;
     on_list_drivers := fun _ => {| drivers_env_ret := SQL_SUCCESS; drivers_env := 99 |};
     malloc_junk := fun _ _ => NUL |}.

(** A dsn of 127 characters and a [malloc] block whose bytes are not zero. *)
Definition dsn127 : list ascii := repeat "a"%char 127.

Definition junk_x : nat -> ascii := fun _ => "x"%char.

(** Two cached connections: first dsn B (handles 12, 22), then dsn A
    (handles 11, 21), which [addNewConnection] puts at the head. *)
Definition two_entries : world :=
  snd (addNewConnection junk_x (cstr "A") 10 11 21
         (snd (addNewConnection junk_x (cstr "B") 10 12 22 empty_world))).

Definition accepted (henv hdbc : SQLHANDLE) : ConnectAnswer :=
  {| alloc_env_ret := SQL_SUCCESS; env_handle := henv;
     setenvattr_ret := SQL_SUCCESS; setenvattr_diag := [];
     alloc_dbc_ret := SQL_SUCCESS; dbc_handle := hdbc; alloc_dbc_diag := [];
     connect_ret := SQL_SUCCESS; connect_diag := [] |}.

Definition rejected (henv hdbc : SQLHANDLE) : ConnectAnswer :=
  {| alloc_env_ret := SQL_SUCCESS; env_handle := henv;
     setenvattr_ret := SQL_SUCCESS; setenvattr_diag := [];
     alloc_dbc_ret := SQL_SUCCESS; dbc_handle := hdbc; alloc_dbc_diag := [];
     connect_ret := SQL_ERROR;
     connect_diag := [(SQL_SUCCESS, {| diag_state := "08001"; diag_native := -30081;
                                        diag_text := "communication error" |})] |}.

Definition exec_fails (native : Z) : ExecAnswer :=
  {| stmt_handle := 5; exec_ret := SQL_ERROR;
     exec_diag := [(SQL_SUCCESS, sample_rec native)] |}.

Definition exec_succeeds : ExecAnswer :=
  {| stmt_handle := 6; exec_ret := SQL_SUCCESS; exec_diag := [] |}.

(** A driver that accepts the first connection and fails the first execute
    with the native code 1205. *)
Definition retry_driver (second_connect second_exec : bool) : Driver :=
  {| on_connect := fun k =>
       match k with
       | O => accepted 11 12
       | S _ => if second_connect then accepted 21 22 else rejected 21 22
       end;
     on_exec := fun k =>
       match k with
       | O => exec_fails 1205
       | S _ => if second_exec then exec_succeeds else exec_fails 1205
       end;
     on_describe := on_describe (fetch_driver 0);
     on_fetch := on_fetch (fetch_driver 0);
     on_list_drivers := on_list_drivers (fetch_driver 0);
     malloc_junk := fun _ _ => NUL |}.

Definition option_ (name value : string) : DefElem :=
  {| defname := name; defstring := value |}.

Definition sample_table (cached_token : list DefElem) : ForeignTable :=
  {| table_options := [option_ "sql_query" "SELECT 1"];
     server_options := option_ "dsn" "D1" :: cached_token;
     mapping_options := [option_ "username" "db2inst1"; option_ "password" "secret"];
     user_id := 10 |}.

(** What the first turn leaves in [data] with that driver and table. *)
Definition first_turn_data (token : option string) : db2PrivateData :=
  {| data_env := 11; data_dbc := 12; stmt := 0; no_columns := 0;
     columnsbuf := []; cached := token |}.

Definition first_turn_world (drv : Driver) (t : ForeignTable) : world :=
  snd (getConnection drv t palloc_data None empty_world).


(** ** Vocabulary: the cache as a list *)

(** The nodes met by following [next] from [p], with their addresses. *)
Fixpoint chain (fuel : nat) (h : list db2ConnectionCacheEntry) (p : option addr)
    : list (addr * db2ConnectionCacheEntry) :=
  match p with
  | None => []
  | Some a =>
      match fuel with
      | O => []
      | S fuel' =>
          match h !! a with
          | None => []
          | Some n => (a, n) :: chain fuel' h (next n)
          end
      end
  end.

(** The entries of the cache, the most recently inserted first. *)
Definition cache_entries (w : world) : list (addr * db2ConnectionCacheEntry) :=
  chain (length (heap w)) (heap w) (cache w).

(** The first entry whose key compares equal, as a function of the list. *)
Fixpoint first_match (dsn : list ascii) (uid : Oid)
    (l : list (addr * db2ConnectionCacheEntry)) : outcome (option addr) :=
  match l with
  | [] => Ok None
  | (a, n) :: l' =>
      match strcmp_eq (dsn_name n) dsn with
      | None => Undefined
      | Some true => if userId n =? uid then Ok (Some a) else first_match dsn uid l'
      | Some false => first_match dsn uid l'
      end
  end.

Definition holds_dbc (hdbc : SQLHANDLE) (x : addr * db2ConnectionCacheEntry) : bool :=
  dbc (snd x) =? hdbc.

(** The entries that follow the last entry with the handle [hdbc]; [None]
    when no entry has it. *)
Fixpoint after_last (hdbc : SQLHANDLE) (l : list (addr * db2ConnectionCacheEntry))
    : option (list (addr * db2ConnectionCacheEntry)) :=
  match l with
  | [] => None
  | x :: l' =>
      match after_last hdbc l' with
      | Some r => Some r
      | None => if holds_dbc hdbc x then Some l' else None
      end
  end.

(** The calls that give back the handles of an entry. *)
Definition entry_release (x : addr * db2ConnectionCacheEntry) : list handle_call :=
  [FreeHandle SQL_HANDLE_DBC (dbc (snd x)); FreeHandle SQL_HANDLE_ENV (env (snd x))].

(** The next pointer of the last entry with the handle. *)
Fixpoint last_match_next (hdbc : SQLHANDLE) (l : list (addr * db2ConnectionCacheEntry))
    : option (option addr) :=
  match l with
  | [] => None
  | x :: l' =>
      match last_match_next hdbc l' with
      | Some p => Some p
      | None => if holds_dbc hdbc x then Some (next (snd x)) else None
      end
  end.


(** ** Vocabulary: the errors of the validator *)

(** The name is in [valid_options], for some context. *)
Definition known_option (name : string) : bool :=
  existsb (fun opt => String.eqb (optname opt) name) valid_options.

Definition allowedb (name : string) (context : Oid) : bool :=
  existsb (fun opt => String.eqb (optname opt) name && (context =? optcontext opt))
    valid_options.

(** The first option of the table that the context requires and the list
    does not supply. *)
Definition first_missing (options_list : list DefElem) (context : Oid)
    : option db2FdwOption :=
  List.find (fun opt => required opt && (context =? optcontext opt)
                        && negb (option_supplied options_list (optname opt)))
    valid_options.

(** ** Vocabulary: the options of a scan *)

(** The value of the last option of that name in the list. *)
Fixpoint option_value (name : string) (options : list DefElem) : option string :=
  match options with
  | [] => None
  | def :: rest =>
      match option_value name rest with
      | Some v => Some v
      | None => if String.eqb (defname def) name then Some (defstring def) else None
      end
  end.

(** The options [getConnection] scans, in the order it scans them. *)
Definition scanned_options (t : ForeignTable) : list DefElem :=
  table_options t ++ server_options t ++ mapping_options t.

(** ** Vocabulary: the description of the result *)

(** The largest request [palloc] serves. *)
Definition MaxAllocSize : Z := 1073741823.

(** The descriptor [db2_BeginForeignScan] builds for column [i]. *)
Definition column_of (a : DescribeAnswer) (i : nat) : db2ColumnDesc :=
  {| columnsize := ColumnSizePtr (describe_col a i);
     isNumber := is_number_type (DataTypePtr (describe_col a i)) |}.

(** The column count is not negative and [palloc] serves the request for
    each column buffer. *)
Definition buffers_allocatable (a : DescribeAnswer) : Prop :=
  0 <= numcols_value a
  /\ forall i, (i < Z.to_nat (numcols_value a))%nat ->
               0 <= ColumnSizePtr (describe_col a i) <= MaxAllocSize.

(** ** Vocabulary: the handles given back *)

Definition is_connection_release (c : handle_call) : bool :=
  match c with
  | FreeHandle type _ => (type =? SQL_HANDLE_DBC) || (type =? SQL_HANDLE_ENV)
  | Disconnect _ => false
  end.

(** What a run of the retry loop may do to the counters, the heap, the
    cache and the handles: at most [tries] connection requests, no more
    executes and no more connects than requests; blocks are added to the
    heap and none is changed; an entry of the cache was one before or is a
    new block; and the handles given back and the blocks freed are those
    of the entries [gone] that [removeConnection] took out of the cache. *)
Definition loop_effect (tries : nat) (w w' : world) : Prop :=
  cache_ok w' = true
  /\ (n_getconn w <= n_getconn w' <= n_getconn w + tries)%nat
  /\ (n_exec w <= n_exec w')%nat
  /\ (n_exec w' - n_exec w <= n_getconn w' - n_getconn w)%nat
  /\ (n_connect w <= n_connect w')%nat
  /\ (n_connect w' - n_connect w <= n_getconn w' - n_getconn w)%nat
  /\ n_fetch w' = n_fetch w
  /\ (exists more, heap w' = heap w ++ more)
  /\ (forall x, In x (cache_entries w') ->
                In x (cache_entries w) \/ (length (heap w) <= fst x)%nat)
  /\ exists gone,
       released w' = released w ++ flat_map entry_release gone
       /\ freed w' = freed w ++ map fst gone
       /\ forall x, In x gone ->
                    heap w' !! fst x = Some (snd x)
                    /\ ~ In x (cache_entries w').

(** ** Sample inputs: a result of two columns *)

(** A DECIMAL column of 20 bytes and a VARCHAR column of 30 bytes. *)
Definition two_columns : DescribeAnswer :=
  {| numcols_ret := SQL_SUCCESS; numcols_value := 2; numcols_diag := [];
     describe_col := fun i =>
       match i with
       | O => {| describe_ret := SQL_SUCCESS; DataTypePtr := SQL_DECIMAL;
                 ColumnSizePtr := 20; describe_diag := [] |}
       | S _ => {| describe_ret := SQL_SUCCESS; DataTypePtr := 12;
                   ColumnSizePtr := 30; describe_diag := [] |}
       end |}.

(** A driver that accepts every connection and every statement. *)
Definition describe_driver : Driver :=
  {| on_connect := fun _ => accepted 11 12;
     on_exec := fun _ => exec_succeeds;
     on_describe := fun _ => two_columns;
     on_fetch := on_fetch (fetch_driver 6);
     on_list_drivers := on_list_drivers (fetch_driver 6);
     malloc_junk := fun _ _ => NUL |}.

(** * Properties *)

(** ** The validator *)

Lemma scan_valid_options_allowed opts name context :
  NoDup (map optname opts) ->
  fst (scan_valid_options opts name context) = true <->
  exists opt, In opt opts /\ optname opt = name /\ optcontext opt = context.
Proof.
  induction opts as [|o opts IH]; simpl; intros Hnd.
  - split; [discriminate | intros (? & [] & _)].
  - apply NoDup_cons in Hnd as [Hnotin Hnd].
    destruct (String.eqb (optname o) name) eqn:E; simpl.
    + apply String.eqb_eq in E. split.
      * intros Hc. apply Z.eqb_eq in Hc. exists o. auto.
      * intros (o' & [<- | Hin] & Hn & Hc); [apply Z.eqb_eq; auto |].
        exfalso. apply Hnotin. apply list_elem_of_In.
        apply in_map_iff. exists o'. split; [congruence | exact Hin].
    + apply String.eqb_neq in E. rewrite (IH Hnd). split.
      * intros (o' & Hin & Hn & Hc). exists o'. auto.
      * intros (o' & [<- | Hin] & Hn & Hc); [contradiction |].
        exists o'. auto.
Qed.

Lemma valid_options_names_NoDup : NoDup (map optname valid_options).
Proof. apply NoDup_ListNoDup. repeat constructor; simpl; intuition discriminate. Qed.

Lemma option_supplied_iff options_list name :
  option_supplied options_list name = true <-> supplied name options_list.
Proof.
  unfold supplied. induction options_list as [|d l IH]; simpl.
  - split; [discriminate | intros (? & [] & _)].
  - destruct (String.eqb name (defname d)) eqn:E.
    + apply String.eqb_eq in E. split; [|reflexivity].
      intros _. exists d. auto.
    + apply String.eqb_neq in E. rewrite IH. split.
      * intros (d' & Hin & Hn). exists d'. auto.
      * intros (d' & [<- | Hin] & Hn); [congruence |]. exists d'. auto.
Qed.

Lemma validate_supplied_cases options_list context :
  (validate_supplied options_list context = Ok tt
   /\ forall def, In def options_list -> allowed (defname def) context)
  \/ (exists def recognized,
        In def options_list /\ ~ allowed (defname def) context
        /\ validate_supplied options_list context
           = Raise (invalid_option (defname def) recognized context)).
Proof.
  induction options_list as [|d l IH]; cbn [validate_supplied].
  - left. split; [reflexivity | intros ? []].
  - pose proof (scan_valid_options_allowed valid_options (defname d) context
                  valid_options_names_NoDup) as Hscan.
    destruct (scan_valid_options valid_options (defname d) context)
      as [valid recognized]. cbn [fst] in Hscan.
    destruct valid; cbn [negb].
    + destruct IH as [[Hok Hall] | (d' & r & Hin & Hna & Hr)].
      * left. split; [exact Hok |].
        intros d' [<- | Hin]; [apply Hscan; reflexivity | auto].
      * right. exists d', r. split; [right; exact Hin | split; assumption].
    + right. exists d, recognized. split; [left; reflexivity |].
      split; [|reflexivity].
      intros Ha. apply Hscan in Ha. discriminate.
Qed.

Lemma validate_required_cases opts options_list context :
  (validate_required opts options_list context = Ok tt
   /\ forall opt, In opt opts -> required opt = true ->
                  optcontext opt = context -> supplied (optname opt) options_list)
  \/ (exists opt,
        In opt opts /\ required opt = true /\ optcontext opt = context
        /\ ~ supplied (optname opt) options_list
        /\ validate_required opts options_list context
           = Raise (option_required (optname opt) context)).
Proof.
  induction opts as [|o opts IH]; simpl.
  - left. split; [reflexivity | intros ? []].
  - destruct (required o) eqn:Hreq; simpl.
    2:{ destruct IH as [[Hok Hall] | (o' & Hin & H1 & H2 & H3 & H4)].
        - left. split; [exact Hok |]. intros o' [<- | Hin] Hr; [congruence | auto].
        - right. exists o'. repeat split; try assumption. right; exact Hin. }
    destruct (context =? optcontext o) eqn:Hctx; simpl.
    2:{ apply Z.eqb_neq in Hctx.
        destruct IH as [[Hok Hall] | (o' & Hin & H1 & H2 & H3 & H4)].
        - left. split; [exact Hok |].
          intros o' [<- | Hin] Hr Hc; [congruence | auto].
        - right. exists o'. repeat split; try assumption. right; exact Hin. }
    apply Z.eqb_eq in Hctx.
    destruct (option_supplied options_list (optname o)) eqn:Hsup; simpl.
    + apply option_supplied_iff in Hsup.
      destruct IH as [[Hok Hall] | (o' & Hin & H1 & H2 & H3 & H4)].
      * left. split; [exact Hok |]. intros o' [<- | Hin] Hr Hc; auto.
      * right. exists o'. repeat split; try assumption. right; exact Hin.
    + right. exists o. split; [left; reflexivity |].
      split; [exact Hreq |]. split; [symmetry; exact Hctx |].
      split; [|reflexivity].
      intros Hs. apply option_supplied_iff in Hs. congruence.
Qed.

Lemma valid_options_hint_lists context :
  valid_options_hint context
  = "Valid options in this context are: "
      +:+ match allowed_names context with
          | [] => "<none>"
          | names => String.concat ", " names
          end.
Proof.
  unfold valid_options_hint, createValidOptions, allowed_names, valid_options.
  cbn -[Z.eqb String.append].
  destruct (context =? ForeignServerRelationId) eqn:E1;
    [apply Z.eqb_eq in E1; subst; reflexivity|].
  destruct (context =? ForeignTableRelationId) eqn:E2;
    [apply Z.eqb_eq in E2; subst; reflexivity|].
  destruct (context =? UserMappingRelationId) eqn:E3;
    [apply Z.eqb_eq in E3; subst; reflexivity|].
  reflexivity.
Qed.

(** C5.  The validator returns without raising exactly when every supplied
    option name is in the allow-list of the context and every name required
    in the context is supplied; when it rejects, it raises an error whose
    hint lists the options that are valid in the context. *)
Theorem validator_accepts_iff (options_list : list DefElem) (context : Oid) :
  (db2odbc_fdw_validator options_list context = Ok tt <->
     (forall def, In def options_list -> allowed (defname def) context)
     /\ (forall name, required_in name context -> supplied name options_list))
  /\ (db2odbc_fdw_validator options_list context <> Ok tt ->
      exists e, db2odbc_fdw_validator options_list context = Raise e
                /\ errhint e = valid_options_hint context)
  /\ valid_options_hint context
     = "Valid options in this context are: "
         +:+ match allowed_names context with
             | [] => "<none>"
             | names => String.concat ", " names
             end.
Proof.
  split; [|split; [|apply valid_options_hint_lists]];
    unfold db2odbc_fdw_validator;
    (destruct (validate_supplied_cases options_list context)
      as [[Hok Hall] | (d & r & Hin & Hna & Hr)];
     [destruct (validate_required_cases valid_options options_list context)
        as [[Hok2 Hall2] | (o & Hin & H1 & H2 & H3 & H4)] |]).
  - rewrite Hok, Hok2. split; [|reflexivity]. intros _. split; [exact Hall |].
    intros name (o & Hin & Hn & Hc & Hr). subst name. auto.
  - rewrite Hok, H4. split; [discriminate |]. intros [_ Hreq]. exfalso.
    apply H3, Hreq. exists o. auto.
  - rewrite Hr. split; [discriminate |]. intros [Hall _]. exfalso.
    apply Hna, Hall, Hin.
  - rewrite Hok, Hok2. intros []. reflexivity.
  - rewrite Hok, H4. intros _. eexists. split; reflexivity.
  - rewrite Hr. intros _. eexists. split; reflexivity.
Qed.

(** ** Diagnostic extraction *)

Lemma to_int16_small z : 0 <= z <= 32767 -> to_int16 z = z.
Proof. intros H. unfold to_int16. rewrite Z.mod_small; lia. Qed.

Lemma extract_error_loop_scan rest :
  forall pre fuel outnative w,
    Z.of_nat (length pre) <= MAX_DIAG_RECORDS ->
    (length rest < fuel)%nat ->
    extract_error_loop fuel (pre ++ rest) (Z.of_nat (length pre)) outnative w
    = let s := diag_scan
                 (take (Z.to_nat (MAX_DIAG_RECORDS - Z.of_nat (length pre))) rest)
                 (Z.of_nat (length pre)) outnative in
      (Ok (snd s), set_notices (notices w ++ fst s) w).
Proof.
  unfold MAX_DIAG_RECORDS.
  induction rest as [|[r rec] rest IH]; intros pre fuel outnative w Hpre Hfuel;
    (destruct fuel as [|fuel]; [simpl in Hfuel; lia |]);
    cbn [extract_error_loop].
  - rewrite take_nil. cbn [diag_scan fst snd]. rewrite !app_nil_r.
    destruct (Z.eq_dec (Z.of_nat (length pre)) 32767) as [E|E].
    + rewrite E. change (to_int16 (32767 + 1)) with (-32768).
      cbn. destruct w; reflexivity.
    + rewrite to_int16_small by lia. unfold SQLGetDiagRec.
      destruct (Z.leb_spec (Z.of_nat (length pre) + 1) 0); [lia|].
      replace (Z.to_nat (Z.of_nat (length pre) + 1 - 1)) with (length pre) by lia.
      rewrite (lookup_ge_None_2 pre) by lia.
      cbn. destruct w; reflexivity.
  - destruct (Z.eq_dec (Z.of_nat (length pre)) 32767) as [E|E].
    + rewrite E. change (to_int16 (32767 + 1)) with (-32768).
      replace (Z.to_nat (32767 - 32767)) with O by reflexivity.
      cbn. rewrite app_nil_r. destruct w; reflexivity.
    + rewrite to_int16_small by lia. unfold SQLGetDiagRec.
      destruct (Z.leb_spec (Z.of_nat (length pre) + 1) 0); [lia|].
      replace (Z.to_nat (Z.of_nat (length pre) + 1 - 1)) with (length pre) by lia.
      rewrite list_lookup_middle by reflexivity.
      replace (Z.to_nat (32767 - Z.of_nat (length pre)))
        with (S (Z.to_nat (32767 - Z.of_nat (length (pre ++ [(r, rec)])))))
        by (rewrite length_app; cbn [length]; lia).
      cbn [take diag_scan].
      specialize (IH (pre ++ [(r, rec)]) fuel).
      replace (Z.of_nat (length (pre ++ [(r, rec)])))
        with (Z.of_nat (length pre) + 1) in *
        by (rewrite length_app; cbn [length]; lia).
      rewrite <- app_assoc in IH. cbn [app] in IH.
      unfold bind, elog_notice, modify, ret.
      destruct (SQL_SUCCEEDED r) eqn:Hs.
      * destruct (r =? SQL_SUCCESS) eqn:Hr.
        -- rewrite IH by (simpl in Hfuel; lia).
           cbn [fst snd notices set_notices]. rewrite <- app_assoc.
           destruct w; reflexivity.
        -- cbn [fst snd]. reflexivity.
      * destruct (r =? SQL_SUCCESS) eqn:Hr.
        -- apply Z.eqb_eq in Hr. subst r. discriminate.
        -- cbn [fst snd]. rewrite app_nil_r. destruct w; reflexivity.
Qed.

(** [extract_error] always returns; it only adds notices. *)
Lemma extract_error_scan fn d want_native w :
  extract_error fn d want_native w
  = let s := diag_scan (diag_records d) 0
                 (if want_native then Some ANYERROR else None) in
    (Ok (snd s), set_notices (notices w ++ NoticeDiagnostics fn :: fst s) w).
Proof.
  unfold extract_error, bind, elog_notice, modify, diag_records.
  pose proof (extract_error_loop_scan d [] (S (length d))
                (if want_native then Some ANYERROR else None)
                (set_notices (notices w ++ [NoticeDiagnostics fn]) w)) as H.
  change (Z.of_nat (length [])) with 0 in H. cbn [app] in H.
  rewrite Z.sub_0_r in H.
  rewrite H by (unfold MAX_DIAG_RECORDS; lia).
  cbn [notices set_notices]. rewrite <- app_assoc. destruct w; reflexivity.
Qed.

Lemma diag_scan_all_success d :
  forall i v,
    Forall (fun a => fst a = SQL_SUCCESS) d ->
    diag_scan d i (Some v)
    = (diag_lines i (map snd d),
       Some (if v =? ANYERROR then first_native (map snd d) else v)).
Proof.
  induction d as [|[r rec] d IH]; intros i v Hall; cbn [diag_scan map snd diag_lines].
  - unfold first_native. cbn. destruct (v =? ANYERROR) eqn:E; [|reflexivity].
    apply Z.eqb_eq in E. congruence.
  - apply Forall_cons in Hall as [Hr Hall]. cbn [fst] in Hr. subst r.
    change (SQL_SUCCEEDED SQL_SUCCESS) with true.
    change (SQL_SUCCESS =? SQL_SUCCESS) with true. cbn iota.
    destruct (v =? ANYERROR) eqn:E.
    + rewrite IH by exact Hall. cbn [fst snd]. f_equal. f_equal.
      unfold first_native. cbn [List.find].
      destruct (diag_native rec =? ANYERROR) eqn:E2; reflexivity.
    + rewrite IH by exact Hall. cbn [fst snd]. rewrite E. reflexivity.
Qed.

Lemma diag_scan_all_success_null d :
  forall i,
    Forall (fun a => fst a = SQL_SUCCESS) d ->
    diag_scan d i None = (diag_lines i (map snd d), None).
Proof.
  induction d as [|[r rec] d IH]; intros i Hall; cbn [diag_scan map snd diag_lines];
    [reflexivity|].
  apply Forall_cons in Hall as [Hr Hall]. cbn [fst] in Hr. subst r.
  change (SQL_SUCCEEDED SQL_SUCCESS) with true.
  change (SQL_SUCCESS =? SQL_SUCCESS) with true. cbn iota.
  rewrite IH by exact Hall. reflexivity.
Qed.

(** C8, as the code has it.  When every diagnostic record of the handle is
    retrieved with SQL_SUCCESS, [extract_error] emits the heading and then
    every record, in order, with its state code, sequence number, native
    code and message text, whether or not the caller asks for the native
    code.  To a caller that asks for it, it returns the native code of the
    first record whose native code is not -1; it returns -1 when there is
    no such record, in particular when no record is available.  A caller
    that passes NULL gets nothing back. *)
Theorem extract_error_all_success (fn : string) (d : diag_area)
    (want_native : bool) (w : world) :
  Z.of_nat (length d) <= MAX_DIAG_RECORDS ->
  Forall (fun a => fst a = SQL_SUCCESS) d ->
  extract_error fn d want_native w
  = (Ok (if want_native then Some (first_native (map snd d)) else None),
     set_notices (notices w ++ NoticeDiagnostics fn :: diag_lines 0 (map snd d)) w)
  /\ (forall r recs, map snd d = r :: recs -> diag_native r <> ANYERROR ->
                     first_native (map snd d) = diag_native r)
  /\ (d = [] -> first_native (map snd d) = ANYERROR).
Proof.
  intros Hlen Hall. split; [|split].
  - rewrite extract_error_scan. unfold diag_records.
    rewrite take_ge by lia. destruct want_native.
    + rewrite diag_scan_all_success by exact Hall. reflexivity.
    + rewrite diag_scan_all_success_null by exact Hall. reflexivity.
  - intros r recs -> Hne. unfold first_native. cbn [List.find].
    apply Z.eqb_neq in Hne. rewrite Hne. reflexivity.
  - intros ->. reflexivity.
Qed.

Lemma extract_error_all_success_witness :
  extract_error "SQLFetch" [(SQL_SUCCESS, sample_rec 1205); (SQL_SUCCESS, sample_rec 7)]
    true empty_world
  = (Ok (Some 1205),
     set_notices [NoticeDiagnostics "SQLFetch";
                  NoticeDiagRec "40001" 1 1205 "deadlock";
                  NoticeDiagRec "40001" 2 7 "deadlock"] empty_world).
Proof.
  apply (extract_error_all_success "SQLFetch"
           [(SQL_SUCCESS, sample_rec 1205); (SQL_SUCCESS, sample_rec 7)] true
           empty_world).
  - vm_compute. discriminate.
  - repeat constructor.
Defined.

(** C8 as stated fails on two inputs: a first record whose native code is
    -1 is passed over for the next one, and a record retrieved with
    SQL_SUCCESS_WITH_INFO ends the enumeration. *)
Lemma extract_error_counterexample :
  let d1 := [(SQL_SUCCESS, sample_rec (-1)); (SQL_SUCCESS, sample_rec 7)] in
  let d2 := [(SQL_SUCCESS_WITH_INFO, sample_rec 5); (SQL_SUCCESS, sample_rec 7)] in
  fst (extract_error "SQLFetch" d1 true empty_world) = Ok (Some 7)
  /\ fst (extract_error "SQLFetch" d1 true empty_world)
     <> Ok (Some (diag_native (sample_rec (-1))))
  /\ notices (snd (extract_error "SQLFetch" d2 true empty_world))
     = [NoticeDiagnostics "SQLFetch"; NoticeDiagRec "40001" 1 5 "deadlock"].
Proof.
  cbv zeta. split; [reflexivity | split; [|reflexivity]].
  vm_compute. discriminate.
Qed.

(** ** Row iteration *)

Lemma strrchr_none_no_comma s :
  strrchr s ","%char = None -> map subst_comma (c_str s) = c_str s.
Proof.
  induction s as [|x s IH]; simpl; [reflexivity|].
  destruct (Ascii.eqb x NUL); [reflexivity|].
  destruct (strrchr s ","%char); [discriminate|].
  destruct (Ascii.eqb x ","%char) eqn:Hc; [discriminate|].
  intros _. simpl. unfold subst_comma at 1. rewrite Hc.
  rewrite IH; reflexivity.
Qed.

Lemma strrchr_some_replace s p :
  strrchr s ","%char = Some p ->
  map subst_comma (c_str (<[p := "."%char]> s)) = map subst_comma (c_str s).
Proof.
  revert p. induction s as [|x s IH]; intros p; simpl; [discriminate|].
  destruct (Ascii.eqb x NUL) eqn:Hx; [discriminate|].
  destruct (strrchr s ","%char) as [q|] eqn:Hq.
  - intros [= <-]. simpl. rewrite Hx. simpl. rewrite (IH q eq_refl). reflexivity.
  - destruct (Ascii.eqb x ","%char) eqn:Hc; [|discriminate].
    intros [= <-]. simpl. unfold subst_comma at 1 3. rewrite Hc. reflexivity.
Qed.

(** The loop replaces every comma of the C string by a point and changes
    nothing else. *)
Lemma replace_commas_c_str s :
  c_str (replace_commas s) = map subst_comma (c_str s).
Proof.
  funelim (replace_commas s).
  - rewrite H. apply strrchr_some_replace. exact Hp.
  - symmetry. apply strrchr_none_no_comma. assumption.
Qed.

Lemma iterate_columns_row data a rest :
  forall pre values w,
    columnsbuf data = pre ++ rest ->
    (forall k, (k < length (columnsbuf data))%nat ->
               SQL_SUCCEEDED (getdata_ret (fetch_cell a k)) = true) ->
    iterate_columns (length rest) (length pre) data a values w
    = (Ok (values ++ imap (fun k col => emitted_cell col (fetch_cell a (length pre + k)))
                          rest), w).
Proof.
  induction rest as [|col rest IH]; intros pre values w Hcols Hok;
    cbn [length iterate_columns imap].
  - rewrite app_nil_r. reflexivity.
  - rewrite Hcols, list_lookup_middle by reflexivity.
    rewrite Hok by (rewrite Hcols, length_app; cbn [length]; lia).
    unfold unless, bind, ret.
    specialize (IH (pre ++ [col])).
    rewrite length_app in IH. cbn [length] in IH.
    replace (length pre + 1)%nat with (S (length pre)) in IH by lia.
    rewrite (IH _ _ ltac:(rewrite Hcols, <- app_assoc; reflexivity) Hok).
    rewrite <- app_assoc. cbn [app]. rewrite Nat.add_0_r.
    assert (Hcell : (if to_int32 (getdata_indicator (fetch_cell a (length pre)))
                        =? SQL_NULL_DATA then None
                     else Some (c_str (if isNumber col
                                       then replace_commas
                                              (getdata_buf (fetch_cell a (length pre)))
                                       else getdata_buf (fetch_cell a (length pre)))))
                    = emitted_cell col (fetch_cell a (length pre))).
    { unfold emitted_cell.
      destruct (to_int32 _ =? SQL_NULL_DATA); [reflexivity|].
      destruct (isNumber col); [|reflexivity].
      rewrite replace_commas_c_str. reflexivity. }
    rewrite Hcell.
    assert (Himap : imap (fun k c => emitted_cell c (fetch_cell a (S (length pre) + k))) rest
                    = imap ((fun k c => emitted_cell c (fetch_cell a (length pre + k))) ∘ S) rest).
    { apply imap_ext. intros k c _. unfold compose.
      replace (S (length pre) + k)%nat with (length pre + S k)%nat by lia.
      reflexivity. }
    rewrite Himap. reflexivity.
Qed.

(** When the fetch and every [SQLGetData] succeed, [db2_IterateForeignScan]
    returns the row of the emitted cells. *)
Lemma iterate_row drv data w :
  row_fetched data (on_fetch drv (n_fetch w)) ->
  db2_IterateForeignScan drv data w
  = (Ok (Some (emitted_row data (on_fetch drv (n_fetch w)))), count_fetch w).
Proof.
  intros (Hf & Hn & Hok). unfold db2_IterateForeignScan, bind, get, modify.
  destruct (fetch_ret (on_fetch drv (n_fetch w)) =? SQL_NO_DATA_FOUND) eqn:E.
  { apply Z.eqb_eq in E. rewrite E in Hf. discriminate. }
  rewrite Hf. unfold unless, ret. rewrite Hn.
  rewrite (iterate_columns_row data _ (columnsbuf data) [] [] _ eq_refl Hok).
  reflexivity.
Qed.

Lemma emitted_row_lookup data a i col :
  columnsbuf data !! i = Some col ->
  emitted_row data a !! i = Some (emitted_cell col (fetch_cell a i)).
Proof.
  intros H. unfold emitted_row. rewrite list_lookup_imap, H. reflexivity.
Qed.

Lemma subst_comma_no_comma l : ~ In ","%char (map subst_comma l).
Proof.
  induction l as [|c l IH]; simpl; [tauto|].
  intros [H|H]; [|tauto]. unfold subst_comma in H.
  destruct (Ascii.eqb c ","%char) eqn:E; [discriminate|].
  apply Ascii.eqb_neq in E. congruence.
Qed.

(** C4.  In a row returned by Iterate, the cell of a numeric-family column
    that is not a null cell is the fetched text with every comma replaced by
    a point, so it holds no comma; the cell of another column is the fetched
    text unchanged.  A cell is null when its indicator, as an [int], is
    SQL_NULL_DATA. *)
Theorem iterate_numeric_normalized (drv : Driver) (data : db2PrivateData)
    (w : world) (i : nat) (col : db2ColumnDesc) :
  let a := on_fetch drv (n_fetch w) in
  let g := fetch_cell a i in
  row_fetched data a ->
  columnsbuf data !! i = Some col ->
  to_int32 (getdata_indicator g) <> SQL_NULL_DATA ->
  exists row cell,
    db2_IterateForeignScan drv data w = (Ok (Some row), count_fetch w)
    /\ row !! i = Some (Some cell)
    /\ (isNumber col = true ->
        cell = map subst_comma (c_str (getdata_buf g)) /\ ~ In ","%char cell)
    /\ (isNumber col = false -> cell = c_str (getdata_buf g)).
Proof.
  intros a g Hrow Hcol Hnn.
  exists (emitted_row data a).
  exists (if isNumber col then map subst_comma (c_str (getdata_buf g))
          else c_str (getdata_buf g)).
  split; [apply iterate_row; exact Hrow |]. split.
  - rewrite (emitted_row_lookup _ _ _ _ Hcol). unfold emitted_cell. fold g.
    apply Z.eqb_neq in Hnn. rewrite Hnn. reflexivity.
  - split; intros ->; [|reflexivity].
    split; [reflexivity | apply subst_comma_no_comma].
Qed.

(** C7, as the code has it.  In a row returned by Iterate, a column whose
    length indicator converted to [int] equals SQL_NULL_DATA has a null
    cell, whatever its buffer holds; in particular a column whose indicator
    is SQL_NULL_DATA.  Any other column has the text of its buffer, with
    commas replaced by points for a numeric-family column. *)
Theorem iterate_null_cells (drv : Driver) (data : db2PrivateData)
    (w : world) (i : nat) (col : db2ColumnDesc) :
  let a := on_fetch drv (n_fetch w) in
  let g := fetch_cell a i in
  row_fetched data a ->
  columnsbuf data !! i = Some col ->
  exists row,
    db2_IterateForeignScan drv data w = (Ok (Some row), count_fetch w)
    /\ (to_int32 (getdata_indicator g) = SQL_NULL_DATA -> row !! i = Some None)
    /\ (getdata_indicator g = SQL_NULL_DATA -> row !! i = Some None)
    /\ (to_int32 (getdata_indicator g) <> SQL_NULL_DATA ->
        row !! i = Some (Some (if isNumber col
                               then map subst_comma (c_str (getdata_buf g))
                               else c_str (getdata_buf g)))).
Proof.
  intros a g Hrow Hcol.
  exists (emitted_row data a).
  split; [apply iterate_row; exact Hrow |].
  rewrite (emitted_row_lookup _ _ _ _ Hcol). unfold emitted_cell. fold g.
  split; [|split].
  - intros ->. reflexivity.
  - intros ->. reflexivity.
  - intros Hnn. apply Z.eqb_neq in Hnn. rewrite Hnn. reflexivity.
Qed.

Lemma sample_row_fetched indicator drv :
  on_fetch drv O = sample_fetch indicator ->
  row_fetched sample_data (on_fetch drv (n_fetch empty_world)).
Proof.
  intros H. cbn [n_fetch empty_world]. rewrite H.
  split; [reflexivity | split; [reflexivity | intros; reflexivity]].
Qed.

Lemma iterate_numeric_normalized_witness :
  exists row cell,
    db2_IterateForeignScan (fetch_driver 6) sample_data empty_world
    = (Ok (Some row), count_fetch empty_world)
    /\ row !! O = Some (Some cell)
    /\ (true = true -> cell = cstr "123.45" /\ ~ In ","%char cell)
    /\ (true = false -> cell = cstr "123,45").
Proof.
  apply (iterate_numeric_normalized (fetch_driver 6) sample_data empty_world O
           {| columnsize := 20; isNumber := true |}).
  - apply (sample_row_fetched 6). reflexivity.
  - reflexivity.
  - vm_compute. discriminate.
Defined.

Lemma iterate_null_cells_witness :
  exists row,
    db2_IterateForeignScan (fetch_driver SQL_NULL_DATA) sample_data empty_world
    = (Ok (Some row), count_fetch empty_world)
    /\ (-1 = SQL_NULL_DATA -> row !! 1%nat = Some None)
    /\ (SQL_NULL_DATA = SQL_NULL_DATA -> row !! 1%nat = Some None)
    /\ (-1 <> SQL_NULL_DATA -> row !! 1%nat = Some (Some (cstr "123,45"))).
Proof.
  apply (iterate_null_cells (fetch_driver SQL_NULL_DATA) sample_data empty_world
           1%nat {| columnsize := 20; isNumber := false |}).
  - apply (sample_row_fetched SQL_NULL_DATA). reflexivity.
  - reflexivity.
Defined.

(** C7 as stated fails: the indicator 4294967295 is not SQL_NULL_DATA, yet
    its conversion to [int] is, and the cell is emitted as null. *)
Lemma iterate_null_counterexample :
  getdata_indicator (fetch_cell (on_fetch (fetch_driver 4294967295) O) O)
    <> SQL_NULL_DATA
  /\ db2_IterateForeignScan (fetch_driver 4294967295) sample_data empty_world
     = (Ok (Some [None; None]), count_fetch empty_world).
Proof.
  split; [vm_compute; discriminate | reflexivity].
Qed.

(** ** The connection cache *)

Lemma forallb_imap {A} (f : nat -> A -> bool) (l : list A) :
  forallb (fun b : bool => b) (imap f l) = true
  <-> forall i x, l !! i = Some x -> f i x = true.
Proof.
  revert f. induction l as [|y l IH]; intros f; cbn [imap forallb].
  - split; [intros _ i x H; discriminate | reflexivity].
  - rewrite andb_true_iff, IH. split.
    + intros [H0 HS] [|i] x Hx; cbn in Hx; [congruence | apply (HS i x Hx)].
    + intros H. split; [apply (H O); reflexivity |].
      intros i x Hx. apply (H (S i)). exact Hx.
Qed.

Lemma heap_ok_lookup h :
  heap_ok h = true <-> forall a n, h !! a = Some n -> entry_ok a n = true.
Proof. apply forallb_imap. Qed.

Lemma entry_ok_next a n b :
  entry_ok a n = true -> next n = Some b -> (b < a)%nat.
Proof.
  unfold entry_ok. intros H Hn. rewrite Hn in H.
  apply andb_true_iff in H as [_ H]. apply Nat.ltb_lt in H. exact H.
Qed.

Lemma entry_ok_length a n :
  entry_ok a n = true -> length (dsn_name n) = DSN_MAX_LEN.
Proof.
  unfold entry_ok. intros H. apply andb_true_iff in H as [H _].
  apply Nat.eqb_eq in H. exact H.
Qed.

(** [strcmp] stays inside the array when the C string is shorter than it. *)
Lemma strcmp_eq_defined a :
  forall s, (strlen s < length a)%nat -> exists b, strcmp_eq a s = Some b.
Proof.
  induction a as [|x a IH]; intros s Hlen; cbn [length] in Hlen; [lia|].
  cbn [strcmp_eq].
  destruct (Ascii.eqb x (hd NUL s)) eqn:E; [|eauto].
  destruct (Ascii.eqb x NUL) eqn:Ex; [eauto|].
  apply Ascii.eqb_eq in E. subst x.
  destruct s as [|c s]; cbn [hd tl] in *.
  - rewrite Ascii.eqb_refl in Ex. discriminate.
  - cbn [strlen] in Hlen. rewrite Ex in Hlen. apply IH. lia.
Qed.

(** [findConnection] returns on every well-shaped cache when the dsn is
    shorter than the array. *)
Lemma findConnection_loop_ok h dsn uid :
  heap_ok h = true ->
  (strlen dsn < DSN_MAX_LEN)%nat ->
  forall fuel e,
    (forall a, e = Some a -> (a < fuel)%nat /\ (a < length h)%nat) ->
    exists r, findConnection_loop fuel h e dsn uid = Ok r /\ ptr_ok h r = true.
Proof.
  intros Hh Hdsn. rewrite heap_ok_lookup in Hh.
  induction fuel as [|fuel IH]; intros [a|] He; cbn [findConnection_loop];
    try (exists None; split; reflexivity).
  - destruct (He a eq_refl). lia.
  - destruct (He a eq_refl) as [Hf Hl].
    destruct (lookup_lt_is_Some_2 h a Hl) as [n Hn]. rewrite Hn.
    pose proof (Hh a n Hn) as Hentry.
    assert (Hnext : forall b, next n = Some b -> (b < fuel)%nat /\ (b < length h)%nat).
    { intros b Hb. pose proof (entry_ok_next a n b Hentry Hb). lia. }
    destruct (strcmp_eq_defined (dsn_name n) dsn) as [b Hb].
    { rewrite (entry_ok_length a n Hentry). exact Hdsn. }
    rewrite Hb. destruct b; [|apply IH; exact Hnext].
    destruct (userId n =? uid); [|apply IH; exact Hnext].
    exists (Some a). split; [reflexivity |]. cbn. apply Nat.ltb_lt. exact Hl.
Qed.

Lemma cache_ok_parts w :
  cache_ok w = true <-> ptr_ok (heap w) (cache w) = true /\ heap_ok (heap w) = true.
Proof. unfold cache_ok. apply andb_true_iff. Qed.

Lemma ptr_ok_bound h p a : ptr_ok h p = true -> p = Some a -> (a < length h)%nat.
Proof. intros H ->. cbn in H. apply Nat.ltb_lt in H. exact H. Qed.

Lemma findConnection_ok dsn uid w :
  cache_ok w = true ->
  (strlen dsn < DSN_MAX_LEN)%nat ->
  exists r, findConnection dsn uid w = (Ok r, w) /\ ptr_ok (heap w) r = true.
Proof.
  intros Hw Hdsn. apply cache_ok_parts in Hw as [Hp Hh].
  unfold findConnection.
  destruct (findConnection_loop_ok (heap w) dsn uid Hh Hdsn (length (heap w)) (cache w))
    as (r & Hr & Hok).
  { intros a Ha. pose proof (ptr_ok_bound _ _ _ Hp Ha). lia. }
  exists r. rewrite Hr. auto.
Qed.

Lemma removeConnection_loop_ok hdbc :
  forall fuel e w,
    heap_ok (heap w) = true ->
    ptr_ok (heap w) (cache w) = true ->
    (forall a, e = Some a -> (a < fuel)%nat /\ (a < length (heap w))%nat) ->
    exists w', removeConnection_loop fuel None e hdbc w = (Ok tt, w')
               /\ cache_ok w' = true /\ same_calls w w'.
Proof.
  induction fuel as [|fuel IH]; intros [a|] w Hh Hp He; cbn [removeConnection_loop];
    try (exists w; split; [reflexivity |]; split;
         [apply cache_ok_parts; auto | repeat split]).
  - destruct (He a eq_refl). lia.
  - destruct (He a eq_refl) as [Hf Hl].
    destruct (lookup_lt_is_Some_2 (heap w) a Hl) as [n Hn].
    unfold bind at 1, get. rewrite Hn.
    pose proof (proj1 (heap_ok_lookup _) Hh a n Hn) as Hentry.
    assert (Hnext : forall b, next n = Some b ->
                              (b < fuel)%nat /\ (b < length (heap w))%nat).
    { intros b Hb. pose proof (entry_ok_next a n b Hentry Hb). lia. }
    destruct (dbc n =? hdbc).
    + cbv beta iota delta [bind modify SQLFreeHandle free].
      match goal with
      | |- context [removeConnection_loop fuel None (next n) hdbc ?w1] =>
          destruct (IH (next n) w1) as (w' & Hrun & Hok & Hsame)
      end.
      * exact Hh.
      * cbn. destruct (next n) as [b|] eqn:Hb; [|reflexivity].
        apply Nat.ltb_lt. apply (Hnext b eq_refl).
      * exact Hnext.
      * exists w'. split; [exact Hrun | split; [exact Hok |]].
        destruct Hsame as (H1 & H2 & H3 & H4 & H5 & H6).
        cbn in *. repeat split; assumption.
    + apply IH; assumption.
Qed.

Lemma removeConnection_ok hdbc w :
  cache_ok w = true ->
  exists w', removeConnection hdbc w = (Ok tt, w')
             /\ cache_ok w' = true /\ same_calls w w'.
Proof.
  intros Hw. apply cache_ok_parts in Hw as [Hp Hh].
  unfold removeConnection, bind, get.
  apply removeConnection_loop_ok; [exact Hh | exact Hp |].
  intros a Ha. pose proof (ptr_ok_bound _ _ _ Hp Ha). lia.
Qed.

Lemma strncpy_length dst : forall src n, length (strncpy dst src n) = length dst.
Proof.
  induction dst as [|d dst IH]; intros src [|n]; cbn [strncpy length]; try reflexivity.
  destruct src as [|c src]; [|destruct (Ascii.eqb c NUL)];
    cbn [length]; rewrite IH; reflexivity.
Qed.

Lemma malloc_dsn_name_length junk : length (malloc_dsn_name junk) = DSN_MAX_LEN.
Proof. unfold malloc_dsn_name. rewrite length_map, length_seq. reflexivity. Qed.

Lemma addNewConnection_ok junk dsn uid henv hdbc w :
  cache_ok w = true ->
  cache_ok (snd (addNewConnection junk dsn uid henv hdbc w)) = true.
Proof.
  intros Hw. apply cache_ok_parts in Hw as [Hp Hh].
  unfold addNewConnection, modify. cbn [snd].
  apply cache_ok_parts. cbn [heap cache set_cache set_heap]. split.
  - cbn. apply Nat.ltb_lt. rewrite length_app. cbn. lia.
  - apply heap_ok_lookup. intros a n Hn.
    destruct (Nat.lt_ge_cases a (length (heap w))) as [Hlt|Hge].
    + rewrite lookup_app_l in Hn by exact Hlt.
      apply (proj1 (heap_ok_lookup _) Hh a n Hn).
    + apply lookup_snoc_Some in Hn as [[Hlt _] | [-> <-]]; [lia |].
      unfold entry_ok. cbn [dsn_name next].
      rewrite strncpy_length, malloc_dsn_name_length, Nat.eqb_refl. cbn [andb].
      destruct (cache w) as [b|] eqn:Hb; [|reflexivity].
      apply Nat.ltb_lt. pose proof (ptr_ok_bound _ _ _ Hp eq_refl). lia.
Qed.

Lemma empty_world_ok : cache_ok empty_world = true.
Proof. reflexivity. Qed.

(** [strncpy] leaves a terminated copy when the source is shorter than the
    count, and then [strcmp] finds the copy equal to the source. *)
Lemma strncpy_strcmp_eq n :
  forall dst src,
    (strlen src < n)%nat -> (n <= length dst)%nat ->
    strcmp_eq (strncpy dst src n) src = Some true.
Proof.
  induction n as [|n IH]; intros dst src Hs Hd; [lia|].
  destruct dst as [|d dst]; cbn [length] in Hd; [lia|].
  cbn [strncpy]. destruct src as [|c src].
  - reflexivity.
  - cbn [strlen] in Hs. destruct (Ascii.eqb c NUL) eqn:Ec.
    + apply Ascii.eqb_eq in Ec. subst c. reflexivity.
    + cbn [strcmp_eq hd tl]. rewrite Ascii.eqb_refl, Ec. apply IH; lia.
Qed.

Lemma strncpy_c_str n :
  forall dst src,
    (strlen src < n)%nat -> (n <= length dst)%nat ->
    c_str (strncpy dst src n) = c_str src.
Proof.
  induction n as [|n IH]; intros dst src Hs Hd; [lia|].
  destruct dst as [|d dst]; cbn [length] in Hd; [lia|].
  cbn [strncpy]. destruct src as [|c src].
  - reflexivity.
  - cbn [strlen] in Hs. cbn [c_str]. destruct (Ascii.eqb c NUL) eqn:Ec.
    + reflexivity.
    + cbn [c_str]. rewrite Ec. f_equal. apply IH; lia.
Qed.

(** A dsn of 127 characters or more fills the first 127 bytes and leaves
    byte 127 as [malloc] returned it; when that byte is not zero the stored
    key is not terminated, and [strcmp] against a dsn of 127 characters
    fails. *)
Lemma strncpy_long n :
  forall dst src,
    (n <= strlen src)%nat -> (n <= length dst)%nat ->
    strncpy dst src n = take n src ++ drop n dst.
Proof.
  induction n as [|n IH]; intros dst src Hs Hd; [destruct dst; reflexivity|].
  destruct dst as [|d dst]; cbn [length] in Hd; [lia|].
  destruct src as [|c src]; cbn [strlen] in Hs; [lia|].
  cbn [strncpy]. destruct (Ascii.eqb c NUL); [lia|].
  cbn [take drop app]. f_equal. apply IH; lia.
Qed.

Lemma strcmp_eq_unterminated src :
  forall g rest,
    g <> NUL ->
    strcmp_eq (take (strlen src) src ++ g :: rest) src = Some false.
Proof.
  induction src as [|c src IH]; intros g rest Hg; cbn [strlen].
  - cbn. apply Ascii.eqb_neq in Hg. rewrite Hg. reflexivity.
  - destruct (Ascii.eqb c NUL) eqn:Ec.
    + apply Ascii.eqb_eq in Ec. subst c. cbn [take app strcmp_eq hd].
      apply Ascii.eqb_neq in Hg. rewrite Hg. reflexivity.
    + cbn [take app strcmp_eq hd tl]. rewrite Ascii.eqb_refl, Ec. apply IH. exact Hg.
Qed.

Lemma stored_key_long junk dsn :
  (DSN_MAX_LEN - 1 <= strlen dsn)%nat ->
  strncpy (malloc_dsn_name junk) dsn (DSN_MAX_LEN - 1)
  = take (DSN_MAX_LEN - 1) dsn ++ [junk (DSN_MAX_LEN - 1)%nat].
Proof.
  intros H. rewrite strncpy_long; [| exact H | rewrite malloc_dsn_name_length; unfold DSN_MAX_LEN; lia].
  f_equal.
Qed.

Lemma find_after_insert_unterminated junk dsn uid henv hdbc :
  strlen dsn = (DSN_MAX_LEN - 1)%nat ->
  junk (DSN_MAX_LEN - 1)%nat <> NUL ->
  fst (findConnection dsn uid (snd (addNewConnection junk dsn uid henv hdbc empty_world)))
  = Ok None.
Proof.
  intros Hlen Hj. unfold addNewConnection, modify, findConnection.
  cbn [fst snd heap cache set_cache set_heap empty_world app length findConnection_loop
       lookup list_lookup dsn_name next].
  rewrite stored_key_long by lia. rewrite <- Hlen.
  rewrite strcmp_eq_unterminated by (rewrite Hlen; exact Hj). reflexivity.
Qed.

(** A dsn of at most 126 characters is stored exactly, and [findConnection]
    after [addNewConnection] returns the new entry, ahead of any older entry
    with the same key. *)
Lemma find_after_insert_short junk dsn uid henv hdbc w :
  (strlen dsn <= DSN_MAX_LEN - 2)%nat ->
  let w' := snd (addNewConnection junk dsn uid henv hdbc w) in
  exists e,
    fst (findConnection dsn uid w') = Ok (Some (length (heap w)))
    /\ heap w' !! length (heap w) = Some e
    /\ env e = henv /\ dbc e = hdbc /\ userId e = uid
    /\ c_str (dsn_name e) = c_str dsn.
Proof.
  intros Hlen w'. subst w'. unfold addNewConnection, modify. cbn [snd].
  eexists. split; [|split; [|split; [|split; [|split]]]].
  - unfold findConnection. cbn [fst heap cache set_cache set_heap].
    rewrite length_app. cbn [length].
    replace (length (heap w) + 1)%nat with (S (length (heap w))) by lia.
    cbn [findConnection_loop].
    rewrite list_lookup_middle by reflexivity. cbn [dsn_name userId].
    rewrite strncpy_strcmp_eq.
    + rewrite Z.eqb_refl. reflexivity.
    + unfold DSN_MAX_LEN in *. lia.
    + rewrite malloc_dsn_name_length. unfold DSN_MAX_LEN. lia.
  - cbn [heap set_cache set_heap]. apply list_lookup_middle. reflexivity.
  - reflexivity.
  - reflexivity.
  - reflexivity.
  - cbn [dsn_name]. apply strncpy_c_str.
    + unfold DSN_MAX_LEN in *. lia.
    + rewrite malloc_dsn_name_length. unfold DSN_MAX_LEN. lia.
Qed.

(** C3 at the failing input.  The dsn has 127 characters; [strncpy] copies
    them and writes no terminator, byte 127 of the array keeps what the
    [malloc] block held, [strcmp] sees a longer string and [findConnection]
    does not return the entry just inserted. *)
Theorem find_after_insert_127 :
  strlen dsn127 = 127%nat
  /\ fst (findConnection dsn127 10
            (snd (addNewConnection junk_x dsn127 10 1 2 empty_world)))
     = Ok None.
Proof. split; reflexivity. Qed.

(** C10 at the failing input.  For the dsn of 127 characters the array holds
    no NUL after [strncpy]: the stored key runs to the end of the array and
    is not the dsn. *)
Theorem stored_key_127 :
  let e := {| dsn_name := strncpy (malloc_dsn_name junk_x) dsn127 (DSN_MAX_LEN - 1);
              userId := 10; env := 1; dbc := 2; next := None |} in
  strlen dsn127 = 127%nat
  /\ heap (snd (addNewConnection junk_x dsn127 10 1 2 empty_world)) = [e]
  /\ strlen (dsn_name e) = DSN_MAX_LEN
  /\ c_str (dsn_name e) = dsn127 ++ ["x"%char]
  /\ c_str (dsn_name e) <> c_str dsn127.
Proof.
  cbv zeta. split; [reflexivity|]. split; [reflexivity|].
  split; [reflexivity|]. split; [reflexivity|].
  vm_compute. discriminate.
Qed.

(** C2 at the failing input.  Removing the connection of B, the second node
    of the list, sets [cache] to the node after B: the entry of A, whose
    connection handle is another one, is no longer found, and its block is
    not freed. *)
Theorem remove_second_drops_first :
  let w' := snd (removeConnection 22 two_entries) in
  fst (findConnection (cstr "A") 10 two_entries) = Ok (Some 1%nat)
  /\ (dbc <$> heap two_entries !! 1%nat) = Some 21
  /\ fst (removeConnection 22 two_entries) = Ok tt
  /\ fst (findConnection (cstr "A") 10 w') = Ok None
  /\ cache w' = None
  /\ freed w' = [O].
Proof. cbv zeta. repeat split; reflexivity. Qed.

(** *** The cache as a list *)

Lemma chain_fuel h :
  heap_ok h = true ->
  forall a f1 f2, (a < f1)%nat -> (a < f2)%nat ->
                  chain f1 h (Some a) = chain f2 h (Some a).
Proof.
  intros Hh. rewrite heap_ok_lookup in Hh.
  induction a as [a IH] using lt_wf_ind. intros f1 f2 H1 H2.
  destruct f1 as [|f1]; [lia|]. destruct f2 as [|f2]; [lia|].
  cbn [chain]. destruct (h !! a) as [n|] eqn:Hn; [|reflexivity].
  f_equal. destruct (next n) as [b|] eqn:Hb; [|destruct f1, f2; reflexivity].
  pose proof (entry_ok_next a n b (Hh a n Hn) Hb). apply IH; lia.
Qed.

Lemma chain_ptr_fuel h p f1 f2 :
  heap_ok h = true ->
  (forall a, p = Some a -> (a < f1)%nat /\ (a < f2)%nat) ->
  chain f1 h p = chain f2 h p.
Proof.
  intros Hh Hp. destruct p as [a|]; [|destruct f1, f2; reflexivity].
  destruct (Hp a eq_refl). apply chain_fuel; assumption.
Qed.

Lemma findConnection_loop_chain h dsn uid :
  heap_ok h = true ->
  forall fuel p,
    (forall a, p = Some a -> (a < fuel)%nat /\ (a < length h)%nat) ->
    findConnection_loop fuel h p dsn uid = first_match dsn uid (chain fuel h p).
Proof.
  intros Hh. pose proof (proj1 (heap_ok_lookup _) Hh) as Hl.
  induction fuel as [|fuel IH]; intros [a|] Hp; cbn [findConnection_loop chain first_match];
    try reflexivity.
  - destruct (Hp a eq_refl). lia.
  - destruct (Hp a eq_refl) as [Hf Hlen].
    destruct (lookup_lt_is_Some_2 h a Hlen) as [n Hn]. rewrite Hn.
    cbn [first_match].
    assert (Hnext : forall b, next n = Some b -> (b < fuel)%nat /\ (b < length h)%nat).
    { intros b Hb. pose proof (entry_ok_next a n b (Hl a n Hn) Hb). lia. }
    rewrite (IH (next n) Hnext). reflexivity.
Qed.

Lemma chain_heap_app h e :
  heap_ok h = true ->
  forall fuel p,
    (forall a, p = Some a -> (a < length h)%nat) ->
    chain fuel (h ++ [e]) p = chain fuel h p.
Proof.
  intros Hh. pose proof (proj1 (heap_ok_lookup _) Hh) as Hl.
  induction fuel as [|fuel IH]; intros [a|] Hp; cbn [chain]; try reflexivity.
  pose proof (Hp a eq_refl) as Ha.
  rewrite lookup_app_l by exact Ha.
  destruct (h !! a) as [n|] eqn:Hn; [|reflexivity].
  f_equal. apply IH. intros b Hb.
  pose proof (entry_ok_next a n b (Hl a n Hn) Hb). lia.
Qed.

Lemma cache_entries_add junk dsn uid henv hdbc w :
  cache_ok w = true ->
  cache_entries (snd (addNewConnection junk dsn uid henv hdbc w))
  = (length (heap w),
     {| dsn_name := strncpy (malloc_dsn_name junk) dsn (DSN_MAX_LEN - 1);
        userId := uid; env := henv; dbc := hdbc; next := cache w |})
      :: cache_entries w.
Proof.
  intros Hw. apply cache_ok_parts in Hw as [Hp Hh].
  unfold cache_entries, addNewConnection, modify.
  cbn [snd heap cache set_cache set_heap].
  rewrite length_app. cbn [length].
  replace (length (heap w) + 1)%nat with (S (length (heap w))) by lia.
  cbn [chain]. rewrite list_lookup_middle by reflexivity. cbn [next].
  f_equal. apply chain_heap_app; [exact Hh |].
  intros a Ha. apply (ptr_ok_bound _ _ _ Hp Ha).
Qed.

Lemma removeConnection_loop_chain hdbc :
  forall fuel e w,
    heap_ok (heap w) = true ->
    (forall a, e = Some a -> (a < fuel)%nat /\ (a < length (heap w))%nat) ->
    let l := chain fuel (heap w) e in
    removeConnection_loop fuel None e hdbc w
    = (Ok tt,
       set_freed (freed w ++ map fst (List.filter (holds_dbc hdbc) l))
         (set_released (released w ++ flat_map entry_release (List.filter (holds_dbc hdbc) l))
            (set_cache (match last_match_next hdbc l with
                        | Some p => p
                        | None => cache w
                        end) w))).
Proof.
  induction fuel as [|fuel IH]; intros [a|] w Hh He; cbn [removeConnection_loop chain];
    try (cbn; rewrite !app_nil_r; destruct w; reflexivity).
  - destruct (He a eq_refl). lia.
  - destruct (He a eq_refl) as [Hf Hl].
    destruct (lookup_lt_is_Some_2 (heap w) a Hl) as [n Hn].
    unfold bind at 1, get. rewrite Hn.
    pose proof (proj1 (heap_ok_lookup _) Hh a n Hn) as Hentry.
    assert (Hnext : forall b, next n = Some b ->
                              (b < fuel)%nat /\ (b < length (heap w))%nat).
    { intros b Hb. pose proof (entry_ok_next a n b Hentry Hb). lia. }
    cbn [List.filter last_match_next].
    change (holds_dbc hdbc (a, n)) with (dbc n =? hdbc).
    destruct (dbc n =? hdbc) eqn:Hd.
    + cbv beta iota delta [bind modify SQLFreeHandle free].
      rewrite IH by (cbn; assumption).
      cbn [heap cache freed released set_cache set_released set_freed
           map flat_map fst snd entry_release app].
      rewrite <- !app_assoc. cbn [app].
      destruct (last_match_next hdbc (chain fuel (heap w) (next n)));
        destruct w; reflexivity.
    + rewrite IH by assumption. cbv zeta.
      destruct (last_match_next hdbc (chain fuel (heap w) (next n)));
        reflexivity.
Qed.

Lemma chain_after_last h hdbc :
  heap_ok h = true ->
  forall fuel p f2,
    (forall a, p = Some a -> (a < fuel)%nat /\ (a < length h)%nat) ->
    (length h <= f2)%nat ->
    match last_match_next hdbc (chain fuel h p) with
    | Some q => after_last hdbc (chain fuel h p) = Some (chain f2 h q)
    | None => after_last hdbc (chain fuel h p) = None
    end.
Proof.
  intros Hh. pose proof (proj1 (heap_ok_lookup _) Hh) as Hl.
  induction fuel as [|fuel IH]; intros [a|] f2 Hp Hf2; cbn [chain last_match_next after_last];
    try reflexivity.
  destruct (Hp a eq_refl) as [Hf Hlen].
  destruct (lookup_lt_is_Some_2 h a Hlen) as [n Hn]. rewrite Hn.
  cbn [last_match_next after_last].
  assert (Hnext : forall b, next n = Some b -> (b < fuel)%nat /\ (b < length h)%nat).
  { intros b Hb. pose proof (entry_ok_next a n b (Hl a n Hn) Hb). lia. }
  specialize (IH (next n) f2 Hnext Hf2).
  destruct (last_match_next hdbc (chain fuel h (next n))) as [q|].
  - rewrite IH. reflexivity.
  - rewrite IH. destruct (holds_dbc hdbc (a, n)); [|reflexivity].
    cbn [snd]. f_equal. apply chain_ptr_fuel; [exact Hh |].
    intros b Hb. destruct (Hnext b Hb). lia.
Qed.

Lemma after_last_clean hdbc l :
  match after_last hdbc l with
  | Some r => forallb (fun x => negb (holds_dbc hdbc x)) r = true
  | None => forallb (fun x => negb (holds_dbc hdbc x)) l = true
  end.
Proof.
  induction l as [|x l IH]; cbn [after_last forallb]; [reflexivity|].
  destruct (after_last hdbc l) as [r|]; [exact IH|].
  destruct (holds_dbc hdbc x); [exact IH | cbn; exact IH].
Qed.

Lemma clean_no_match hdbc l :
  forallb (fun x => negb (holds_dbc hdbc x)) l = true ->
  List.filter (holds_dbc hdbc) l = [] /\ last_match_next hdbc l = None
  /\ after_last hdbc l = None.
Proof.
  induction l as [|x l IH]; cbn [forallb List.filter last_match_next after_last];
    [auto|].
  intros H. apply andb_true_iff in H as [Hx Hl].
  destruct (IH Hl) as (-> & -> & ->).
  destruct (holds_dbc hdbc x); [discriminate | auto].
Qed.

Lemma chain_lookup h :
  forall fuel p a n, In (a, n) (chain fuel h p) -> h !! a = Some n.
Proof.
  induction fuel as [|fuel IH]; intros [b|] a n; simpl; try tauto.
  destruct (h !! b) as [m|] eqn:Hb; simpl; [|tauto].
  intros [[= <- <-] | Hin]; [exact Hb | apply (IH _ _ _ Hin)].
Qed.

Lemma first_match_in dsn uid l a :
  first_match dsn uid l = Ok (Some a) -> exists n, In (a, n) l.
Proof.
  induction l as [|[b n] l IH]; cbn [first_match]; [discriminate|].
  destruct (strcmp_eq (dsn_name n) dsn) as [[|]|]; try discriminate.
  - destruct (userId n =? uid).
    + intros [= <-]. exists n. left. reflexivity.
    + intros H. destruct (IH H) as [m Hm]. exists m. right. exact Hm.
  - intros H. destruct (IH H) as [m Hm]. exists m. right. exact Hm.
Qed.

Lemma removeConnection_run hdbc w :
  cache_ok w = true ->
  let l := cache_entries w in
  let gone := List.filter (holds_dbc hdbc) l in
  let w' := set_freed (freed w ++ map fst gone)
              (set_released (released w ++ flat_map entry_release gone)
                 (set_cache (match last_match_next hdbc l with
                             | Some p => p
                             | None => cache w
                             end) w)) in
  removeConnection hdbc w = (Ok tt, w')
  /\ cache_entries w' = default l (after_last hdbc l).
Proof.
  intros Hw l gone w'. apply cache_ok_parts in Hw as [Hp Hh].
  assert (Hb : forall a, cache w = Some a ->
                         (a < length (heap w))%nat /\ (a < length (heap w))%nat).
  { intros a Ha. pose proof (ptr_ok_bound _ _ _ Hp Ha). lia. }
  split.
  - unfold removeConnection, bind, get.
    rewrite (removeConnection_loop_chain hdbc _ _ w Hh Hb). reflexivity.
  - subst w'. unfold cache_entries at 1.
    cbn [heap cache set_freed set_released set_cache].
    pose proof (chain_after_last (heap w) hdbc Hh (length (heap w)) (cache w)
                  (length (heap w)) Hb (Nat.le_refl _)) as H.
    fold (cache_entries w) in H. fold l in H.
    destruct (last_match_next hdbc l) as [q|]; rewrite H; reflexivity.
Qed.

Lemma first_match_fuel dsn uid l : first_match dsn uid l <> OutOfFuel.
Proof.
  induction l as [|[a n] l IH]; cbn [first_match]; [discriminate|].
  destruct (strcmp_eq (dsn_name n) dsn) as [[|]|]; try discriminate; [|exact IH].
  destruct (userId n =? uid); [discriminate | exact IH].
Qed.

(** ** The connector *)

Ltac run_monad :=
  cbv beta iota zeta delta
    [bind modify get ret ereport undefined out_of_fuel unless lognotice elog_notice
     findConnection findConnection_null
     heap cache freed released notices n_getconn n_connect n_exec n_fetch
     count_getconn count_connect count_exec count_fetch
     set_notices set_heap set_cache set_freed set_released fst snd] in *.

Ltac split_conj := repeat match goal with |- _ /\ _ => split end.

Ltac close_effect :=
  solve
    [ assumption | reflexivity | left; reflexivity | right; reflexivity
    | intros ? ? [= <- <-]; split; reflexivity
    | intros ? ? ?; discriminate
    | intros ? [= <-]; split_conj; try reflexivity; assumption
    | intros ? [= <-]; split_conj; reflexivity
    | intros ? ?; discriminate
    | intros E; exfalso; clear -E; lia
    | intros _ E; exfalso; congruence
    | intros _ _; reflexivity
    | intros ? ? ? ?; discriminate
    | intros ? ? _ _; eexists; reflexivity
    | intros ? ? _ E; exfalso; apply E; reflexivity
    | intros ? _ _; reflexivity
    | intros ? [= <-] E; congruence
    | discriminate ].

Ltac run_diag := repeat (rewrite ?extract_error_scan in *; run_monad).

Lemma findConnection_loop_no_raise h dsn uid err :
  forall fuel e, findConnection_loop fuel h e dsn uid <> Raise err.
Proof.
  induction fuel as [|fuel IH]; intros [a|]; cbn [findConnection_loop];
    try discriminate.
  destruct (h !! a) as [n|]; [|discriminate].
  destruct (strcmp_eq (dsn_name n) dsn) as [[|]|]; try discriminate; [|apply IH].
  destruct (userId n =? uid); [discriminate | apply IH].
Qed.

(** What one call of [getConnection] does to the counters and to the shape
    of the cache, whatever its outcome. *)
Lemma getConnection_effect drv t data query w r w' :
  cache_ok w = true ->
  getConnection drv t data query w = (r, w') ->
  let o := resolve_options t query in
  cache_ok w' = true
  /\ n_getconn w' = S (n_getconn w) /\ n_exec w' = n_exec w
  /\ n_fetch w' = n_fetch w
  /\ (n_connect w' = n_connect w \/ n_connect w' = S (n_connect w))
  /\ (forall d q, r = Ok (d, q) -> cached d = o_cached o /\ q = o_query o)
  /\ (n_connect w' = S (n_connect w) ->
      SQL_SUCCEEDED (connect_ret (on_connect drv (n_connect w))) = false ->
      r = Raise (unable_to_connect (fmt_s (o_dsn o))))
  /\ (forall e, r = Raise e ->
      n_connect w' = S (n_connect w)
      /\ SQL_SUCCEEDED (connect_ret (on_connect drv (n_connect w))) = false
      /\ e = unable_to_connect (fmt_s (o_dsn o)))
  /\ (forall d q, r = Ok (d, q) -> o_cached o <> None ->
      exists dsn, o_dsn o = Some dsn)
  /\ (forall dsn, o_dsn o = Some dsn ->
      fst (findConnection (cstr dsn) (user_id t) w) = Ok None ->
      n_connect w' = S (n_connect w))
  /\ r <> OutOfFuel.
Proof.
  intros Hw Hrun o. subst o. unfold getConnection in Hrun.
  assert (Hfuel : forall dsn,
             fst (findConnection (cstr dsn) (user_id t) w) <> OutOfFuel).
  { intros dsn. apply cache_ok_parts in Hw as [Hp Hh]. unfold findConnection.
    cbn [fst]. rewrite (findConnection_loop_chain _ (cstr dsn) (user_id t) Hh).
    - apply first_match_fuel.
    - intros a Ha. pose proof (ptr_ok_bound _ _ _ Hp Ha). lia. }
  destruct (o_dsn (resolve_options t query)) as [dsn|] eqn:Hdsn;
    destruct w as [h f c rl ns ng nc ne nf]; run_monad.
  2:{ destruct c as [a|].
      { injection Hrun as <- <-. run_monad. split_conj; close_effect. }
      destruct (SQL_SUCCEEDED (alloc_env_ret (on_connect drv nc)));
        destruct (SQL_SUCCEEDED (setenvattr_ret (on_connect drv nc)));
        destruct (SQL_SUCCEEDED (alloc_dbc_ret (on_connect drv nc)));
        destruct (SQL_SUCCEEDED (connect_ret (on_connect drv nc))) eqn:Hc;
        destruct (o_cached (resolve_options t query)) as [tok|] eqn:Htok;
        run_diag; injection Hrun as <- <-; run_monad;
        (split; [exact Hw | split_conj; close_effect]). }
  destruct (findConnection_loop _ _ _ _ _) as [[a|] | e | |] eqn:Hfind.
  3:{ exfalso. exact (findConnection_loop_no_raise _ _ _ _ _ _ Hfind). }
  - destruct (h !! a) as [n|]; injection Hrun as <- <-; run_monad;
      split_conj; close_effect.
  - destruct (SQL_SUCCEEDED (alloc_env_ret (on_connect drv nc)));
      destruct (SQL_SUCCEEDED (setenvattr_ret (on_connect drv nc)));
      destruct (SQL_SUCCEEDED (alloc_dbc_ret (on_connect drv nc)));
      destruct (SQL_SUCCEEDED (connect_ret (on_connect drv nc))) eqn:Hc;
      destruct (o_cached (resolve_options t query)) as [tok|] eqn:Htok;
      unfold addNewConnection in Hrun;
      run_diag; injection Hrun as <- <-; run_monad;
      (split;
       [ first [ exact Hw | exact (addNewConnection_ok _ _ _ _ _ _ Hw) ]
       | split_conj; close_effect ]).
  - injection Hrun as <- <-. run_monad. split_conj; close_effect.
  - exfalso. exact (Hfuel dsn Hfind).
Qed.

(** C6.  When no cached entry matches and the driver rejects [SQLConnect],
    [getConnection] raises ERRCODE_FDW_UNABLE_TO_ESTABLISH_CONNECTION with a
    message that ends with the data source name, and the cache is left as it
    was: no entry is inserted. *)
Theorem getConnection_connect_rejected (drv : Driver) (t : ForeignTable)
    (data : db2PrivateData) (query : option string) (w : world) (dsn : string) :
  o_dsn (resolve_options t query) = Some dsn ->
  fst (findConnection (cstr dsn) (user_id t) w) = Ok None ->
  SQL_SUCCEEDED (connect_ret (on_connect drv (n_connect w))) = false ->
  exists w',
    getConnection drv t data query w = (Raise (unable_to_connect dsn), w')
    /\ errcode (unable_to_connect dsn) = ERRCODE_FDW_UNABLE_TO_ESTABLISH_CONNECTION
    /\ errmsg (unable_to_connect dsn) = "cannot connect to odbc dsn " +:+ dsn
    /\ heap w' = heap w /\ cache w' = cache w.
Proof.
  intros Hdsn Hfind Hconn.
  unfold getConnection. rewrite Hdsn.
  destruct w as [h f c rl ns ng nc ne nf].
  run_monad. rewrite Hfind, Hconn.
  destruct (SQL_SUCCEEDED (alloc_env_ret (on_connect drv nc)));
    destruct (SQL_SUCCEEDED (setenvattr_ret (on_connect drv nc)));
    destruct (SQL_SUCCEEDED (alloc_dbc_ret (on_connect drv nc)));
    run_diag; (eexists; split_conj; reflexivity).
Qed.

(** ** The retry loop of Begin *)

Lemma diag_scan_some d : forall i v, exists v', snd (diag_scan d i (Some v)) = Some v'.
Proof.
  induction d as [|[r rec] d IH]; intros i v; cbn [diag_scan]; [eauto|].
  destruct (SQL_SUCCEEDED r); [|cbn; eauto].
  destruct (r =? SQL_SUCCESS); cbn [snd]; [|destruct (v =? ANYERROR); eauto].
  destruct (v =? ANYERROR); apply IH.
Qed.

Lemma extract_error_native fn d w :
  extract_error fn d true w
  = (Ok (Some (reported_native d)), snd (extract_error fn d true w)).
Proof.
  unfold reported_native. rewrite !extract_error_scan. cbn [fst snd].
  destruct (diag_scan_some (diag_records d) 0 ANYERROR) as [v Hv].
  rewrite Hv. reflexivity.
Qed.

Lemma extract_error_calls fn d b w :
  let w' := snd (extract_error fn d b w) in
  heap w' = heap w /\ cache w' = cache w /\ n_getconn w' = n_getconn w
  /\ n_connect w' = n_connect w /\ n_exec w' = n_exec w /\ n_fetch w' = n_fetch w.
Proof. rewrite extract_error_scan. destruct w. cbn. split_conj; reflexivity. Qed.

(** One turn of the loop, on a well-shaped cache. *)
Lemma begin_loop_step fuel drv t retry data query w :
  cache_ok w = true ->
  (retry < RETRYNUMB)%nat ->
  begin_loop (S fuel) drv t retry data query w
  = match getConnection drv t data query w with
    | (Ok (d, q), w1) =>
        let x := on_exec drv (n_exec w1) in
        let d' := set_stmt (stmt_handle x) d in
        if SQL_SUCCEEDED (exec_ret x) then (Ok (d', q, false), count_exec w1)
        else
          let w2 := after_exec_failure x w1 in
          match cached d with
          | None => (Ok (d', q, true), w2)
          | Some token =>
              let w3 := snd (removeConnection (data_dbc d) w2) in
              if retry_eligible token (reported_native (exec_diag x))
              then begin_loop fuel drv t (S retry) d' q w3
              else (Ok (d', q, true), w3)
          end
    | (Raise e, w1) => (Raise e, w1)
    | (Undefined, w1) => (Undefined, w1)
    | (OutOfFuel, w1) => (OutOfFuel, w1)
    end.
Proof.
  intros Hw Hretry. cbn [begin_loop].
  apply Nat.ltb_lt in Hretry. rewrite Hretry. cbn [negb].
  unfold bind at 1.
  destruct (getConnection drv t data query w) as [[[d q]|e| |] w1] eqn:Hget;
    try reflexivity.
  destruct (getConnection_effect _ _ _ _ _ _ _ Hw Hget) as (Hw1 & _).
  cbn [fst snd]. unfold bind at 1, get. unfold bind at 1, modify.
  destruct (SQL_SUCCEEDED (exec_ret (on_exec drv (n_exec w1)))); [reflexivity|].
  cbv zeta. unfold bind at 1. rewrite extract_error_native.
  fold (after_exec_failure (on_exec drv (n_exec w1)) w1).
  change (cached (set_stmt (stmt_handle (on_exec drv (n_exec w1))) d))
    with (cached d).
  change (data_dbc (set_stmt (stmt_handle (on_exec drv (n_exec w1))) d))
    with (data_dbc d).
  destruct (cached d) as [token|]; [|reflexivity].
  assert (Hw2 : cache_ok (after_exec_failure (on_exec drv (n_exec w1)) w1) = true).
  { unfold after_exec_failure.
    destruct (extract_error_calls "Error while executing query"
                (exec_diag (on_exec drv (n_exec w1))) true (count_exec w1))
      as (Hh & Hc & _).
    unfold cache_ok in *. rewrite Hh, Hc. exact Hw1. }
  destruct (removeConnection_ok (data_dbc d) _ Hw2) as (w3 & Hrm & _ & _).
  unfold bind at 1. rewrite Hrm. cbn [snd]. unfold default, from_option, id.
  unfold retry_eligible. cbv zeta.
  destruct (atol (cstr token) =? 0) eqn:E0.
  - change (ANYERROR =? ANYERROR) with true. reflexivity.
  - cbn [orb]. destruct (atol (cstr token) =? ANYERROR); [reflexivity|].
    cbn [orb]. destruct (atol (cstr token) =? reported_native _); reflexivity.
Qed.

Lemma describe_columns_counts n :
  forall i a q cols w,
    same_counts w (snd (describe_columns n i a q cols w)).
Proof.
  induction n as [|n IH]; intros i a q cols w; cbn [describe_columns].
  - repeat split.
  - unfold bind at 1, unless.
    destruct (SQL_SUCCEEDED (describe_ret (describe_col a i))).
    + cbv beta iota delta [ret]. apply IH.
    + unfold bind at 1. rewrite extract_error_scan. cbv zeta.
      cbv beta iota delta [ereport snd]. destruct w; repeat split.
Qed.

Lemma describe_columns_raise n q :
  forall i a cols w e,
    fst (describe_columns n i a q cols w) = Raise e -> e = describe_failed q.
Proof.
  induction n as [|n IH]; intros i a cols w e; cbn [describe_columns].
  - cbn. discriminate.
  - unfold bind at 1, unless.
    destruct (SQL_SUCCEEDED (describe_ret (describe_col a i))).
    + cbv beta iota delta [ret]. apply IH.
    + unfold bind at 1. rewrite extract_error_scan. cbv zeta.
      cbv beta iota delta [ereport fst]. intros [= <-]. reflexivity.
Qed.

Lemma describe_result_effect drv data query w r w' :
  describe_result drv data query w = (r, w') ->
  same_counts w w' /\ forall dsn, r <> Raise (unable_to_connect dsn).
Proof.
  unfold describe_result. unfold bind at 1, get. unfold bind at 1, unless.
  destruct (SQL_SUCCEEDED (numcols_ret (on_describe drv (Nat.pred (n_exec w))))).
  - cbv beta iota delta [ret]. unfold bind at 1.
    pose proof (describe_columns_counts
                  (Z.to_nat (numcols_value (on_describe drv (Nat.pred (n_exec w)))))
                  O (on_describe drv (Nat.pred (n_exec w))) query [] w) as Hc.
    pose proof (describe_columns_raise
                  (Z.to_nat (numcols_value (on_describe drv (Nat.pred (n_exec w)))))
                  query O (on_describe drv (Nat.pred (n_exec w))) [] w) as Hr.
    destruct (describe_columns _ _ _ _ _ _) as [[cols|err| |] w1];
      cbn [fst snd] in *; intros [= <- <-]; (split; [exact Hc |]);
      intros dsn; try discriminate.
    specialize (Hr err eq_refl). subst err. discriminate.
  - unfold bind at 1. rewrite extract_error_scan. cbv zeta.
    cbv beta iota delta [ereport]. intros [= <- <-]. split.
    + destruct w; repeat split.
    + intros dsn. discriminate.
Qed.

(** [begin_scan], by the outcome of its loop. *)
Lemma begin_unfold drv t w :
  begin_scan drv t w
  = match begin_loop RETRYNUMB drv t O palloc_data None w with
    | (Ok (d, q, true), wl) => (Raise (exec_failed q), wl)
    | (Ok (d, q, false), wl) => describe_result drv d q wl
    | (Raise e, wl) => (Raise e, wl)
    | (Undefined, wl) => (Undefined, wl)
    | (OutOfFuel, wl) => (OutOfFuel, wl)
    end.
Proof.
  unfold begin_scan, bind.
  destruct (begin_loop RETRYNUMB drv t O palloc_data None w)
    as [[[[d q] [|]]|e| |] wl]; reflexivity.
Qed.

Lemma scan_options_query options :
  forall o, o_query (scan_options options o) = query_of options (o_query o).
Proof.
  induction options as [|def rest IH]; intros o; cbn [scan_options query_of];
    [reflexivity|].
  rewrite IH. f_equal.
  destruct (String.eqb (defname def) DSN); [reflexivity|].
  destruct (String.eqb (defname def) CACHED); [reflexivity|].
  destruct (String.eqb (defname def) PASSWORD); [reflexivity|].
  destruct (String.eqb (defname def) USERNAME); [reflexivity|].
  destruct (String.eqb (defname def) QUERY); reflexivity.
Qed.

Lemma query_of_idem options :
  forall q, query_of options (query_of options q) = query_of options q.
Proof.
  induction options as [|def rest IH]; intros q; cbn [query_of]; [reflexivity|].
  destruct (String.eqb (defname def) DSN); [apply IH|].
  destruct (String.eqb (defname def) CACHED); [apply IH|].
  destruct (String.eqb (defname def) PASSWORD); [apply IH|].
  destruct (String.eqb (defname def) USERNAME); [apply IH|].
  destruct (String.eqb (defname def) QUERY); [reflexivity | apply IH].
Qed.

Lemma resolve_options_query_idem t q :
  o_query (resolve_options t (o_query (resolve_options t q)))
  = o_query (resolve_options t q).
Proof.
  unfold resolve_options. rewrite !scan_options_query. cbn [o_query].
  apply query_of_idem.
Qed.

(** The dsn and the token do not depend on the query passed in. *)
Lemma scan_options_dsn options :
  forall o o',
    o_dsn o = o_dsn o' -> o_cached o = o_cached o' ->
    o_dsn (scan_options options o) = o_dsn (scan_options options o')
    /\ o_cached (scan_options options o) = o_cached (scan_options options o').
Proof.
  induction options as [|def rest IH]; intros o o' Hd Hc; cbn [scan_options];
    [auto|].
  apply IH;
    destruct (String.eqb (defname def) DSN); cbn [o_dsn o_cached]; auto;
    destruct (String.eqb (defname def) CACHED); cbn [o_dsn o_cached]; auto;
    destruct (String.eqb (defname def) PASSWORD); cbn [o_dsn o_cached]; auto;
    destruct (String.eqb (defname def) USERNAME); cbn [o_dsn o_cached]; auto;
    destruct (String.eqb (defname def) QUERY); cbn [o_dsn o_cached]; auto.
Qed.

Lemma resolve_options_dsn t query query' :
  o_dsn (resolve_options t query') = o_dsn (resolve_options t query).
Proof. unfold resolve_options. apply scan_options_dsn; reflexivity. Qed.

Lemma resolve_options_cached t query query' :
  o_cached (resolve_options t query') = o_cached (resolve_options t query).
Proof. unfold resolve_options. apply scan_options_dsn; reflexivity. Qed.

(** The session Begin returns has as many column descriptors as
    [no_columns] says, which is what Iterate relies on. *)
Lemma describe_columns_length n :
  forall i a q cols w cols' w',
    describe_columns n i a q cols w = (Ok cols', w') ->
    length cols' = (length cols + n)%nat.
Proof.
  induction n as [|n IH]; intros i a q cols w cols' w'; cbn [describe_columns].
  - intros [= <- _]. lia.
  - unfold bind at 1, unless.
    destruct (SQL_SUCCEEDED (describe_ret (describe_col a i))).
    + cbv beta iota delta [ret]. intros H. apply IH in H.
      rewrite length_app in H. cbn [length] in H. lia.
    + unfold bind at 1. rewrite extract_error_scan. cbv zeta.
      cbv beta iota delta [ereport]. discriminate.
Qed.

Lemma begin_columns_invariant drv t w data w' :
  begin_scan drv t w = (Ok data, w') ->
  Z.to_nat (no_columns data) = length (columnsbuf data).
Proof.
  rewrite begin_unfold.
  destruct (begin_loop RETRYNUMB drv t O palloc_data None w)
    as [[[[d q] [|]]|e| |] wl]; try discriminate.
  unfold describe_result. unfold bind at 1, get. unfold bind at 1, unless.
  destruct (SQL_SUCCEEDED (numcols_ret (on_describe drv (Nat.pred (n_exec wl))))).
  - cbv beta iota delta [ret]. unfold bind at 1.
    destruct (describe_columns _ _ _ _ _ _) as [[cols|err| |] w1] eqn:Hd;
      try discriminate.
    intros [= <- _]. apply describe_columns_length in Hd.
    cbn [no_columns columnsbuf set_columns length] in *. lia.
  - unfold bind at 1. rewrite extract_error_scan. cbv zeta.
    cbv beta iota delta [ereport]. discriminate.
Qed.

Lemma after_exec_failure_effect x w :
  cache_ok w = true ->
  cache_ok (after_exec_failure x w) = true
  /\ n_getconn (after_exec_failure x w) = n_getconn w
  /\ n_connect (after_exec_failure x w) = n_connect w
  /\ n_exec (after_exec_failure x w) = S (n_exec w).
Proof.
  intros Hw. unfold after_exec_failure.
  destruct (extract_error_calls "Error while executing query" (exec_diag x) true
              (count_exec w)) as (Hh & Hc & Hg & Hn & He & _).
  split_conj.
  - unfold cache_ok in *. rewrite Hh, Hc. exact Hw.
  - rewrite Hg. reflexivity.
  - rewrite Hn. reflexivity.
  - rewrite He. reflexivity.
Qed.

Lemma removeConnection_effect hdbc w :
  cache_ok w = true ->
  fst (removeConnection hdbc w) = Ok tt
  /\ cache_ok (snd (removeConnection hdbc w)) = true
  /\ n_getconn (snd (removeConnection hdbc w)) = n_getconn w
  /\ n_connect (snd (removeConnection hdbc w)) = n_connect w
  /\ n_exec (snd (removeConnection hdbc w)) = n_exec w.
Proof.
  intros Hw.
  destruct (removeConnection_ok hdbc w Hw)
    as (w' & -> & Hw' & _ & _ & Hg & Hn & He & _).
  cbn [fst snd]. auto.
Qed.

(** The second and last turn of the loop. *)
Lemma begin_last_turn drv t d q w :
  cache_ok w = true ->
  match getConnection drv t d q w with
  | (Ok (d2, q2), w1) =>
      exists d' w',
        begin_loop 1 drv t 1 d q w
        = (Ok (d', q2, negb (SQL_SUCCEEDED (exec_ret (on_exec drv (n_exec w))))), w')
        /\ n_getconn w' = n_getconn w1 /\ n_connect w' = n_connect w1
        /\ n_exec w' = S (n_exec w)
  | (Raise e, w1) => begin_loop 1 drv t 1 d q w = (Raise e, w1)
  | (Undefined, w1) => begin_loop 1 drv t 1 d q w = (Undefined, w1)
  | (OutOfFuel, w1) => begin_loop 1 drv t 1 d q w = (OutOfFuel, w1)
  end.
Proof.
  intros Hw. rewrite (begin_loop_step 0 drv t 1 d q w Hw) by (unfold RETRYNUMB; lia).
  destruct (getConnection drv t d q w) as [[[d2 q2]|e| |] w1] eqn:Hget;
    try reflexivity.
  destruct (getConnection_effect _ _ _ _ _ _ _ Hw Hget)
    as (Hw1 & Hg1 & He1 & _).
  cbv zeta. rewrite He1.
  destruct (SQL_SUCCEEDED (exec_ret (on_exec drv (n_exec w)))).
  - eexists _, _. split; [reflexivity |]. cbn. rewrite He1. auto.
  - destruct (after_exec_failure_effect (on_exec drv (n_exec w)) w1 Hw1)
      as (Hw2 & Hg2 & Hn2 & He2).
    destruct (cached d2) as [token|].
    + destruct (removeConnection_effect (data_dbc d2) _ Hw2)
        as (_ & _ & Hg3 & Hn3 & He3).
      destruct (retry_eligible token _); cbn [begin_loop RETRYNUMB Nat.ltb Nat.leb negb];
        (eexists _, _; split; [reflexivity |]);
        rewrite Hg3, Hn3, He3, Hg2, Hn2, He2, He1; auto.
    + eexists _, _. split; [reflexivity |]. rewrite Hg2, Hn2, He2, He1. auto.
Qed.

Ltac close_run token :=
  first
    [ solve [auto]
    | solve [exists token; auto]
    | solve [intros; unfold exec_failed, unable_to_connect; discriminate]
    | solve [unfold exec_failed, unable_to_connect; discriminate] ].

(** The runs of [begin_scan] whose first turn obtains a connection, by
    what happens next:
    the first execute succeeds; it fails and the loop ends; it fails, the
    loop turns again and obtains a connection; it fails, the loop turns
    again and [getConnection] does not return. *)
Lemma begin_run_cases drv t w data1 q1 w1 :
  cache_ok w = true ->
  getConnection drv t palloc_data None w = (Ok (data1, q1), w1) ->
  forall r w', begin_scan drv t w = (r, w') ->
  let x1 := on_exec drv (n_exec w) in
  let native := reported_native (exec_diag x1) in
  (SQL_SUCCEEDED (exec_ret x1) = true
   /\ n_getconn w' = S (n_getconn w) /\ n_exec w' = S (n_exec w)
   /\ n_connect w' = n_connect w1)
  \/ (SQL_SUCCEEDED (exec_ret x1) = false
      /\ (cached data1 = None
          \/ exists token, cached data1 = Some token
                           /\ retry_eligible token native = false)
      /\ r = Raise (exec_failed q1)
      /\ n_getconn w' = S (n_getconn w) /\ n_exec w' = S (n_exec w)
      /\ n_connect w' = n_connect w1)
  \/ (SQL_SUCCEEDED (exec_ret x1) = false
      /\ (exists token, cached data1 = Some token
                        /\ retry_eligible token native = true)
      /\ n_getconn w' = S (S (n_getconn w)) /\ n_exec w' = S (S (n_exec w))
      /\ (n_connect w' = S (n_connect w1) ->
          SQL_SUCCEEDED (connect_ret (on_connect drv (n_connect w1))) = true)
      /\ (SQL_SUCCEEDED (exec_ret (on_exec drv (S (n_exec w)))) = false ->
          r = Raise (exec_failed q1))
      /\ (forall dsn, r <> Raise (unable_to_connect dsn)))
  \/ (SQL_SUCCEEDED (exec_ret x1) = false
      /\ (exists token, cached data1 = Some token
                        /\ retry_eligible token native = true)
      /\ n_getconn w' = S (S (n_getconn w)) /\ n_exec w' = S (n_exec w)
      /\ (forall q, r <> Raise (exec_failed q))
      /\ (n_connect w' = S (n_connect w1) ->
          SQL_SUCCEEDED (connect_ret (on_connect drv (n_connect w1))) = false ->
          exists dsn, o_dsn (resolve_options t q1) = Some dsn
                      /\ r = Raise (unable_to_connect dsn))).
Proof.
  intros Hw Hget r w' Hrun x1 native. subst x1 native.
  rewrite begin_unfold in Hrun. unfold RETRYNUMB in Hrun.
  rewrite (begin_loop_step 1 drv t 0 palloc_data None w Hw) in Hrun
    by (unfold RETRYNUMB; lia).
  rewrite Hget in Hrun. cbv zeta in Hrun.
  destruct (getConnection_effect _ _ _ _ _ _ _ Hw Hget)
    as (Hw1 & Hg1 & He1 & _ & _ & Hdq & _ & _ & Hhas & _).
  destruct (Hdq data1 q1 eq_refl) as [Hcd Hq1].
  specialize (Hhas data1 q1 eq_refl).
  rewrite He1 in Hrun.
  destruct (SQL_SUCCEEDED (exec_ret (on_exec drv (n_exec w)))) eqn:Hs1.
  { left. destruct (describe_result_effect _ _ _ _ _ _ Hrun) as ((Hg & Hn & He) & _).
    cbn in Hg, Hn, He. rewrite Hg, Hn, He, Hg1, He1. auto. }
  right.
  destruct (after_exec_failure_effect (on_exec drv (n_exec w)) w1 Hw1)
    as (Hw2 & Hg2 & Hn2 & He2).
  destruct (cached data1) as [token|] eqn:Hc1.
  2:{ left. injection Hrun as <- <-. rewrite Hg2, Hn2, He2, Hg1, He1. auto 10. }
  destruct (removeConnection_effect (data_dbc data1) _ Hw2)
    as (_ & Hw3 & Hg3 & Hn3 & He3).
  destruct (retry_eligible token _) eqn:Hel.
  2:{ left. injection Hrun as <- <-.
      rewrite Hg3, Hn3, He3, Hg2, Hn2, He2, Hg1, He1.
      split_conj; auto. right. exists token. auto. }
  right.
  assert (Hdsn1 : exists dsn, o_dsn (resolve_options t q1) = Some dsn).
  { destruct Hhas as [dsn Hdsn]; [rewrite <- Hcd; discriminate |].
    exists dsn. rewrite (resolve_options_dsn t None q1). exact Hdsn. }
  remember (snd (removeConnection (data_dbc data1)
                   (after_exec_failure (on_exec drv (n_exec w)) w1))) as w3 eqn:Hw3eq.
  remember (set_stmt (stmt_handle (on_exec drv (n_exec w))) data1) as d1 eqn:Hd1eq.
  pose proof (begin_last_turn drv t d1 q1 w3 Hw3) as Hlast.
  destruct (getConnection drv t d1 q1 w3) as [[[d2 q2]|e| |] w4] eqn:Hget2;
    destruct (getConnection_effect _ _ _ _ _ _ _ Hw3 Hget2)
      as (Hw4 & Hg4 & He4 & _ & Hn4 & Hdq2 & Hrej & Hraise & _).
  - left. destruct Hlast as (d' & wl & Hloop & Hgl & Hnl & Hel2).
    rewrite Hloop in Hrun.
    assert (Hq2 : q2 = q1).
    { destruct (Hdq2 d2 q2 eq_refl) as [_ ->]. rewrite Hq1.
      apply resolve_options_query_idem. }
    subst q2.
    assert (Hconn : n_connect wl = S (n_connect w1) ->
                    SQL_SUCCEEDED (connect_ret (on_connect drv (n_connect w1))) = true).
    { intros E. rewrite Hnl in E.
      destruct (SQL_SUCCEEDED (connect_ret (on_connect drv (n_connect w1)))) eqn:Hs;
        [reflexivity |].
      exfalso.
      assert (Hbad := Hrej ltac:(rewrite Hn3, Hn2; exact E)
                           ltac:(rewrite Hn3, Hn2; exact Hs)).
      discriminate. }
    rewrite He3, He2, He1 in Hel2, Hrun.
    destruct (SQL_SUCCEEDED (exec_ret (on_exec drv (S (n_exec w))))) eqn:Hs2;
      cbn [negb] in Hrun.
    + destruct (describe_result_effect _ _ _ _ _ _ Hrun) as ((Hg & Hn & He) & Hnu).
      rewrite Hg, Hn, He, Hgl, Hel2, Hg4, Hg3, Hg2, Hg1.
      split_conj; close_run token.
    + injection Hrun as <- <-.
      rewrite Hgl, Hel2, Hg4, Hg3, Hg2, Hg1.
      split_conj; close_run token.
  - right. rewrite Hlast in Hrun. injection Hrun as <- <-.
    destruct (Hraise e eq_refl) as (Hn & Hs & ->).
    destruct Hdsn1 as [dsn Hdsn]. rewrite Hdsn. cbn [fmt_s].
    rewrite Hg4, He4, Hg3, He3, Hg2, He2, Hg1, He1.
    split_conj; try close_run token.
    intros _ _. exists dsn. auto.
  - right. rewrite Hlast in Hrun. injection Hrun as <- <-.
    rewrite Hg4, He4, Hg3, He3, Hg2, He2, Hg1, He1.
    split_conj; try close_run token.
    intros E Hs. exfalso.
    assert (Hbad := Hrej ltac:(rewrite Hn3, Hn2; exact E)
                         ltac:(rewrite Hn3, Hn2; exact Hs)).
    discriminate.
  - right. rewrite Hlast in Hrun. injection Hrun as <- <-.
    rewrite Hg4, He4, Hg3, He3, Hg2, He2, Hg1, He1.
    split_conj; try close_run token.
    intros E Hs. exfalso.
    assert (Hbad := Hrej ltac:(rewrite Hn3, Hn2; exact E)
                         ltac:(rewrite Hn3, Hn2; exact Hs)).
    discriminate.
Qed.

(** *** What [list_drivers] adds, and runs from states that differ in it *)

Lemma list_drivers_run drv w :
  let a := on_list_drivers drv (n_getconn w) in
  list_drivers drv w
  = (Ok tt,
     set_released (released w ++ [FreeHandle SQL_HANDLE_ENV (drivers_env a)])
       (set_notices
          (notices w ++ (if SQL_SUCCEEDED (drivers_env_ret a) then []
                         else [NoticeText "Cannot allocate SQL_HANDLE_ENV"])) w)).
Proof.
  cbv zeta. unfold list_drivers, SQLFreeHandle. destruct w as [h f c rl ns ng nc ne nf].
  run_monad. destruct (SQL_SUCCEEDED _); run_monad; rewrite ?app_nil_r; reflexivity.
Qed.

Lemma begin_list_drivers drv t w :
  db2_BeginForeignScan drv t w = begin_scan drv t (snd (list_drivers drv w)).
Proof.
  unfold db2_BeginForeignScan. unfold bind at 1.
  rewrite list_drivers_run. reflexivity.
Qed.

Lemma same_store_refl w : same_store w w.
Proof. exists (released w), (notices w). destruct w; reflexivity. Qed.

Lemma same_store_trans w1 w2 w3 :
  same_store w1 w2 -> same_store w2 w3 -> same_store w1 w3.
Proof.
  intros (rl & ns & ->) (rl' & ns' & ->). exists rl', ns'. destruct w1; reflexivity.
Qed.

Lemma same_store_sym w1 w2 : same_store w1 w2 -> same_store w2 w1.
Proof.
  intros (rl & ns & ->). exists (released w1), (notices w1). destruct w1; reflexivity.
Qed.

Lemma same_store_fields w w' :
  same_store w w' ->
  heap w' = heap w /\ freed w' = freed w /\ cache w' = cache w
  /\ n_getconn w' = n_getconn w /\ n_connect w' = n_connect w
  /\ n_exec w' = n_exec w /\ n_fetch w' = n_fetch w.
Proof. intros (rl & ns & ->). destruct w; split_conj; reflexivity. Qed.

Lemma same_store_cache_ok w w' : same_store w w' -> cache_ok w' = cache_ok w.
Proof. intros (rl & ns & ->). destruct w; reflexivity. Qed.

Lemma same_store_list_drivers drv w : same_store w (snd (list_drivers drv w)).
Proof. rewrite list_drivers_run. cbn [snd]. eexists _, _. destruct w; reflexivity. Qed.

Lemma same_store_notices w ns : same_store w (set_notices ns w).
Proof. exists (released w), ns. destruct w; reflexivity. Qed.

Lemma getConnection_store drv t data query w w0 r w1 :
  same_store w w0 ->
  getConnection drv t data query w = (r, w1) ->
  exists w1', getConnection drv t data query w0 = (r, w1') /\ same_store w1 w1'.
Proof.
  intros (rl0 & ns0 & ->) Hrun. unfold getConnection in *.
  destruct (o_dsn (resolve_options t query)) as [dsn|] eqn:Hdsn;
    destruct w as [h f c rl ns ng nc ne nf]; run_monad.
  2:{ destruct c as [a|].
      { injection Hrun as <- <-. eexists. split; [reflexivity |].
        eexists _, _. reflexivity. }
      destruct (SQL_SUCCEEDED (alloc_env_ret (on_connect drv nc)));
        destruct (SQL_SUCCEEDED (setenvattr_ret (on_connect drv nc)));
        destruct (SQL_SUCCEEDED (alloc_dbc_ret (on_connect drv nc)));
        destruct (SQL_SUCCEEDED (connect_ret (on_connect drv nc)));
        destruct (o_cached (resolve_options t query));
        run_diag; injection Hrun as <- <-;
        (eexists; split; [reflexivity |]); eexists _, _; reflexivity. }
  destruct (findConnection_loop _ _ _ _ _) as [[a|] | e | |].
  - destruct (h !! a) as [n|]; injection Hrun as <- <-;
      (eexists; split; [reflexivity |]); eexists _, _; reflexivity.
  - destruct (SQL_SUCCEEDED (alloc_env_ret (on_connect drv nc)));
      destruct (SQL_SUCCEEDED (setenvattr_ret (on_connect drv nc)));
      destruct (SQL_SUCCEEDED (alloc_dbc_ret (on_connect drv nc)));
      destruct (SQL_SUCCEEDED (connect_ret (on_connect drv nc)));
      destruct (o_cached (resolve_options t query));
      unfold addNewConnection in *;
      run_diag; injection Hrun as <- <-;
      (eexists; split; [reflexivity |]); eexists _, _; reflexivity.
  - injection Hrun as <- <-. eexists. split; [reflexivity |]. eexists _, _. reflexivity.
  - injection Hrun as <- <-. eexists. split; [reflexivity |]. eexists _, _. reflexivity.
  - injection Hrun as <- <-. eexists. split; [reflexivity |]. eexists _, _. reflexivity.
Qed.

Lemma after_exec_failure_store x w w0 :
  same_store w w0 ->
  same_store (after_exec_failure x w) (after_exec_failure x w0).
Proof.
  intros (rl & ns & ->). unfold after_exec_failure. rewrite !extract_error_scan.
  cbn [snd]. eexists _, _. destruct w; reflexivity.
Qed.

Lemma removeConnection_store hdbc w w0 :
  cache_ok w = true ->
  same_store w w0 ->
  same_store (snd (removeConnection hdbc w)) (snd (removeConnection hdbc w0)).
Proof.
  intros Hw Hs. pose proof (same_store_cache_ok _ _ Hs) as Hw0. rewrite Hw in Hw0.
  destruct (removeConnection_run hdbc w Hw) as [-> _].
  destruct (removeConnection_run hdbc w0 Hw0) as [-> _].
  destruct Hs as (rl & ns & ->). cbn [snd].
  eexists _, _. destruct w; reflexivity.
Qed.

Lemma describe_columns_notices a q :
  forall n i cols,
    exists r ns,
      forall w, describe_columns n i a q cols w
                = (r, set_notices (notices w ++ ns) w).
Proof.
  induction n as [|n IH]; intros i cols; cbn [describe_columns].
  - exists (Ok cols), []. intros w. rewrite app_nil_r. destruct w; reflexivity.
  - destruct (SQL_SUCCEEDED (describe_ret (describe_col a i))).
    + match goal with |- context [describe_columns n (S i) a q ?c] =>
        destruct (IH (S i) c) as (r & ns & H) end.
      exists r, ns. intros w. unfold unless, bind at 1, ret. apply H.
    + eexists _, _. intros w. unfold unless, bind. rewrite extract_error_scan.
      unfold ereport. reflexivity.
Qed.

Lemma describe_result_notices drv data query k :
  exists r ns,
    forall w, Nat.pred (n_exec w) = k ->
              describe_result drv data query w
              = (r, set_notices (notices w ++ ns) w).
Proof.
  destruct (describe_columns_notices (on_describe drv k) query
              (Z.to_nat (numcols_value (on_describe drv k))) O [])
    as (r & ns & H).
  destruct (SQL_SUCCEEDED (numcols_ret (on_describe drv k))) eqn:Hn.
  - destruct r as [cols|e| |].
    + eexists _, ns. intros w Hk. unfold describe_result, bind, get, unless.
      rewrite Hk, Hn. unfold ret at 1. rewrite H. reflexivity.
    + exists (Raise e), ns. intros w Hk. unfold describe_result, bind, get, unless.
      rewrite Hk, Hn. unfold ret at 1. rewrite H. reflexivity.
    + exists Undefined, ns. intros w Hk. unfold describe_result, bind, get, unless.
      rewrite Hk, Hn. unfold ret at 1. rewrite H. reflexivity.
    + exists OutOfFuel, ns. intros w Hk. unfold describe_result, bind, get, unless.
      rewrite Hk, Hn. unfold ret at 1. rewrite H. reflexivity.
  - eexists _, _. intros w Hk. unfold describe_result, bind, get, unless.
    rewrite Hk, Hn, extract_error_scan. unfold ereport. reflexivity.
Qed.

Lemma describe_result_store drv data query w w0 :
  same_store w w0 ->
  fst (describe_result drv data query w0) = fst (describe_result drv data query w)
  /\ same_store (snd (describe_result drv data query w))
                (snd (describe_result drv data query w0)).
Proof.
  intros Hs.
  destruct (describe_result_notices drv data query (Nat.pred (n_exec w)))
    as (r & ns & H).
  rewrite (H w eq_refl).
  rewrite (H w0) by (destruct Hs as (rl & ns0 & ->); destruct w; reflexivity).
  cbn [fst snd]. split; [reflexivity |].
  destruct Hs as (rl & ns0 & ->). eexists _, _. destruct w; reflexivity.
Qed.

(** The loop does the same from two states that differ in the handles
    given back and in the notices. *)
Lemma begin_loop_store drv t :
  forall fuel retry data query w w0,
    cache_ok w = true ->
    same_store w w0 ->
    fst (begin_loop fuel drv t retry data query w0)
    = fst (begin_loop fuel drv t retry data query w)
    /\ same_store (snd (begin_loop fuel drv t retry data query w))
                  (snd (begin_loop fuel drv t retry data query w0)).
Proof.
  induction fuel as [|fuel IH]; intros retry data query w w0 Hw Hs.
  - cbn [begin_loop]. destruct (negb (retry <? RETRYNUMB)%nat); cbn; auto.
  - destruct (Nat.ltb_spec retry RETRYNUMB) as [Hlt|Hge].
    2:{ cbn [begin_loop]. apply Nat.ltb_ge in Hge. rewrite Hge. cbn. auto. }
    pose proof (same_store_cache_ok _ _ Hs) as Hw0. rewrite Hw in Hw0.
    rewrite (begin_loop_step fuel drv t retry data query w Hw Hlt).
    rewrite (begin_loop_step fuel drv t retry data query w0 Hw0 Hlt).
    destruct (getConnection drv t data query w) as [r w1] eqn:Hget.
    destruct (getConnection_store _ _ _ _ _ _ _ _ Hs Hget) as (w1' & -> & Hs1).
    destruct (getConnection_effect _ _ _ _ _ _ _ Hw Hget) as (Hw1 & _).
    destruct r as [[d q]|e| |]; cbn [fst snd]; auto.
    cbv zeta.
    destruct (same_store_fields _ _ Hs1) as (_ & _ & _ & _ & _ & -> & _).
    destruct (SQL_SUCCEEDED (exec_ret (on_exec drv (n_exec w1)))).
    { cbn [fst snd]. split; [reflexivity |].
      destruct Hs1 as (rl & ns & ->). eexists _, _. destruct w1; reflexivity. }
    pose proof (after_exec_failure_store (on_exec drv (n_exec w1)) _ _ Hs1) as Hs2.
    destruct (after_exec_failure_effect (on_exec drv (n_exec w1)) w1 Hw1) as (Hw2 & _).
    destruct (cached d) as [token|]; [|cbn [fst snd]; auto].
    pose proof (removeConnection_store (data_dbc d) _ _ Hw2 Hs2) as Hs3.
    destruct (removeConnection_effect (data_dbc d) _ Hw2) as (_ & Hw3 & _).
    destruct (retry_eligible token _); [|cbn [fst snd]; auto].
    apply IH; assumption.
Qed.

Lemma begin_scan_store drv t w w0 :
  cache_ok w = true ->
  same_store w w0 ->
  fst (begin_scan drv t w0) = fst (begin_scan drv t w)
  /\ same_store (snd (begin_scan drv t w)) (snd (begin_scan drv t w0)).
Proof.
  intros Hw Hs. rewrite !begin_unfold.
  destruct (begin_loop_store drv t RETRYNUMB O palloc_data None w w0 Hw Hs)
    as [Hf Hst].
  destruct (begin_loop RETRYNUMB drv t O palloc_data None w)
    as [[[[d q] [|]]|e| |] wl];
    destruct (begin_loop RETRYNUMB drv t O palloc_data None w0)
      as [r0 wl0]; cbn [fst snd] in *; subst r0; cbn [fst snd]; auto.
  apply describe_result_store. exact Hst.
Qed.

(** What a theorem about [begin_scan] says of [db2_BeginForeignScan]. *)
Lemma begin_scan_of_begin drv t w :
  cache_ok w = true ->
  fst (db2_BeginForeignScan drv t w) = fst (begin_scan drv t w)
  /\ same_store (snd (begin_scan drv t w)) (snd (db2_BeginForeignScan drv t w)).
Proof.
  intros Hw. rewrite begin_list_drivers.
  apply begin_scan_store; [exact Hw | apply same_store_list_drivers].
Qed.

Lemma begin_scan_reconnect_rejected drv t w data1 q1 w1 :
  cache_ok w = true ->
  getConnection drv t palloc_data None w = (Ok (data1, q1), w1) ->
  let run := begin_scan drv t w in
  n_connect (snd run) = S (n_connect w1) ->
  SQL_SUCCEEDED (connect_ret (on_connect drv (n_connect w1))) = false ->
  exists dsn token,
    o_dsn (resolve_options t q1) = Some dsn
    /\ fst run = Raise (unable_to_connect dsn)
    /\ (forall q, fst run <> Raise (exec_failed q))
    /\ n_exec (snd run) = S (n_exec w)
    /\ n_getconn (snd run) = S (S (n_getconn w))
    /\ SQL_SUCCEEDED (exec_ret (on_exec drv (n_exec w))) = false
    /\ cached data1 = Some token
    /\ retry_eligible token (reported_native (exec_diag (on_exec drv (n_exec w))))
       = true.
Proof.
  intros Hw Hget run. subst run.
  destruct (begin_scan drv t w) as [r w'] eqn:Hrun. cbn [fst snd].
  intros Hn Hrej.
  destruct (begin_run_cases drv t w data1 q1 w1 Hw Hget r w' Hrun)
    as [(_ & _ & _ & Hc) | [(_ & _ & _ & _ & _ & Hc)
       | [(_ & _ & _ & _ & Hc & _)
         | (Hs & (token & Htok & Hel) & Hg & He & Hq & Hc)]]].
  - rewrite Hc in Hn. exfalso. clear -Hn. lia.
  - rewrite Hc in Hn. exfalso. clear -Hn. lia.
  - rewrite (Hc Hn) in Hrej. discriminate.
  - destruct (Hc Hn Hrej) as (dsn & Hdsn & Hr).
    exists dsn, token. split_conj; auto.
Qed.

(** C9.  When, after the first turn has obtained a connection, Begin issues
    one more [SQLConnect] and the driver rejects it, then this happened in
    the turn that follows a failed execute eligible for a retry, and Begin
    raises ERRCODE_FDW_UNABLE_TO_ESTABLISH_CONNECTION there: the first
    execute is the only one, the second turn is the last one, and "Cannot
    execute query" is not reported. *)
Theorem begin_reconnect_rejected (drv : Driver) (t : ForeignTable) (w : world)
    (data1 : db2PrivateData) (q1 : option string) (w1 : world) :
  cache_ok w = true ->
  getConnection drv t palloc_data None w = (Ok (data1, q1), w1) ->
  let run := db2_BeginForeignScan drv t w in
  n_connect (snd run) = S (n_connect w1) ->
  SQL_SUCCEEDED (connect_ret (on_connect drv (n_connect w1))) = false ->
  exists dsn token,
    o_dsn (resolve_options t q1) = Some dsn
    /\ fst run = Raise (unable_to_connect dsn)
    /\ (forall q, fst run <> Raise (exec_failed q))
    /\ n_exec (snd run) = S (n_exec w)
    /\ n_getconn (snd run) = S (S (n_getconn w))
    /\ SQL_SUCCEEDED (exec_ret (on_exec drv (n_exec w))) = false
    /\ cached data1 = Some token
    /\ retry_eligible token (reported_native (exec_diag (on_exec drv (n_exec w))))
       = true.
Proof.
  intros Hw Hget run. subst run.
  destruct (begin_scan_of_begin drv t w Hw) as [Hf Hs].
  destruct (same_store_fields _ _ Hs) as (_ & _ & _ & Hg & Hn & He & _).
  rewrite Hf, Hg, Hn, He.
  exact (begin_scan_reconnect_rejected drv t w data1 q1 w1 Hw Hget).
Qed.






Lemma getConnection_connect_rejected_witness :
  exists w',
    getConnection (retry_driver false false) (sample_table []) palloc_data None
      (count_connect empty_world)
    = (Raise (unable_to_connect "D1"), w')
    /\ errcode (unable_to_connect "D1") = ERRCODE_FDW_UNABLE_TO_ESTABLISH_CONNECTION
    /\ errmsg (unable_to_connect "D1") = "cannot connect to odbc dsn " +:+ "D1"
    /\ heap w' = [] /\ cache w' = None.
Proof.
  apply (getConnection_connect_rejected (retry_driver false false) (sample_table [])
           palloc_data None (count_connect empty_world) "D1");
    reflexivity.
Defined.



Lemma begin_reconnect_rejected_witness :
  let run := db2_BeginForeignScan (retry_driver false false)
               (sample_table [option_ "cached" "1205"]) empty_world in
  exists dsn token,
    Some "D1"%string = Some dsn
    /\ fst run = Raise (unable_to_connect dsn)
    /\ (forall q, fst run <> Raise (exec_failed q))
    /\ n_exec (snd run) = 1%nat
    /\ n_getconn (snd run) = 2%nat
    /\ SQL_SUCCEEDED (exec_ret (on_exec (retry_driver false false) O)) = false
    /\ Some "1205"%string = Some token
    /\ retry_eligible token
         (reported_native (exec_diag (on_exec (retry_driver false false) O)))
       = true.
Proof.
  apply (begin_reconnect_rejected (retry_driver false false)
           (sample_table [option_ "cached" "1205"]) empty_world
           (first_turn_data (Some "1205")) (Some "SELECT 1")
           (first_turn_world (retry_driver false false)
              (sample_table [option_ "cached" "1205"])));
    reflexivity.
Defined.

(** * Further properties *)

(** ** Lookup, insertion and removal on the list of entries *)

Lemma strncpy_strcmp_same n :
  forall dst src s,
    (strlen src < n)%nat -> (n <= length dst)%nat ->
    c_str s = c_str src ->
    strcmp_eq (strncpy dst src n) s = Some true.
Proof.
  induction n as [|n IH]; intros dst src s Hs Hd Heq; [lia|].
  destruct dst as [|d dst]; cbn [length] in Hd; [lia|].
  cbn [strncpy]. destruct src as [|c src].
  - cbn [c_str] in Heq. cbn [strcmp_eq].
    destruct s as [|y s]; cbn [hd]; [reflexivity|].
    cbn [c_str] in Heq. destruct (Ascii.eqb y NUL) eqn:Ey; [|discriminate].
    apply Ascii.eqb_eq in Ey. subst y. reflexivity.
  - cbn [strlen c_str] in Hs, Heq. destruct (Ascii.eqb c NUL) eqn:Ec.
    + cbn [strcmp_eq]. destruct s as [|y s]; cbn [hd]; [reflexivity|].
      cbn [c_str] in Heq. destruct (Ascii.eqb y NUL) eqn:Ey; [|discriminate].
      apply Ascii.eqb_eq in Ey. subst y. reflexivity.
    + destruct s as [|y s]; cbn [c_str] in Heq; [discriminate|].
      destruct (Ascii.eqb y NUL); [discriminate|].
      injection Heq as -> Heq.
      cbn [strcmp_eq hd tl]. rewrite Ascii.eqb_refl, Ec. apply IH; [lia | lia | exact Heq].
Qed.

Lemma strncpy_strcmp_other n :
  forall dst src s,
    (strlen src < n)%nat -> (n <= length dst)%nat ->
    c_str s <> c_str src ->
    strcmp_eq (strncpy dst src n) s = Some false.
Proof.
  induction n as [|n IH]; intros dst src s Hs Hd Hne; [lia|].
  destruct dst as [|d dst]; cbn [length] in Hd; [lia|].
  cbn [strncpy].
  assert (Hnul : c_str src = [] ->
                 strcmp_eq (NUL :: strncpy dst [] n) s = Some false).
  { intros E. rewrite E in Hne. cbn [strcmp_eq].
    destruct s as [|y s]; cbn [hd c_str] in *; [congruence|].
    destruct (Ascii.eqb y NUL) eqn:Ey; [congruence|].
    rewrite Ascii.eqb_sym, Ey. reflexivity. }
  destruct src as [|c src]; [apply Hnul; reflexivity|].
  cbn [strlen c_str] in Hs, Hne, Hnul. destruct (Ascii.eqb c NUL) eqn:Ec;
    [apply Hnul; reflexivity|].
  cbn [strcmp_eq]. destruct (Ascii.eqb c (hd NUL s)) eqn:Ey; [|reflexivity].
  rewrite Ec. apply Ascii.eqb_eq in Ey.
  destruct s as [|y s]; cbn [hd tl] in *.
  - subst c. rewrite Ascii.eqb_refl in Ec. discriminate.
  - subst y. cbn [c_str] in Hne. rewrite Ec in Hne.
    apply IH; [lia | lia | congruence].
Qed.

Lemma findConnection_chain dsn uid w :
  cache_ok w = true ->
  findConnection dsn uid w = (first_match dsn uid (cache_entries w), w).
Proof.
  intros Hw. apply cache_ok_parts in Hw as [Hp Hh]. unfold findConnection.
  rewrite (findConnection_loop_chain _ dsn uid Hh); [reflexivity |].
  intros a Ha. pose proof (ptr_ok_bound _ _ _ Hp Ha). lia.
Qed.

(** X1.  On a well-shaped cache [findConnection] returns the first entry,
    in the order most recent first, whose [dsn_name] compares equal to the
    dsn and whose [userId] is the user's; older entries with the same key
    are never returned. *)
Theorem findConnection_first_match (dsn : list ascii) (uid : Oid) (w : world) :
  cache_ok w = true ->
  findConnection dsn uid w = (first_match dsn uid (cache_entries w), w).
Proof. exact (findConnection_chain dsn uid w). Qed.

Lemma findConnection_first_match_witness :
  findConnection (cstr "B") 10 two_entries = (Ok (Some O), two_entries).
Proof.
  apply (findConnection_first_match (cstr "B") 10 two_entries). reflexivity.
Defined.

(** X2.  On a well-shaped cache [addNewConnection] puts the new entry in
    front of the entries already there, which it leaves as they were, and
    the cache stays well-shaped; it does not look for an entry with the
    same key first. *)
Theorem addNewConnection_prepends (junk : nat -> ascii) (dsn : list ascii)
    (uid : Oid) (henv hdbc : SQLHANDLE) (w : world) :
  cache_ok w = true ->
  let w' := snd (addNewConnection junk dsn uid henv hdbc w) in
  exists e,
    cache_entries w' = (length (heap w), e) :: cache_entries w
    /\ userId e = uid /\ env e = henv /\ dbc e = hdbc
    /\ length (dsn_name e) = DSN_MAX_LEN
    /\ cache_ok w' = true.
Proof.
  intros Hw w'. subst w'. eexists. split; [apply cache_entries_add; exact Hw |].
  cbn [userId env dbc dsn_name]. split_conj; try reflexivity.
  - rewrite strncpy_length. apply malloc_dsn_name_length.
  - apply addNewConnection_ok. exact Hw.
Qed.

Lemma addNewConnection_prepends_witness :
  exists e,
    cache_entries (snd (addNewConnection junk_x (cstr "A") 10 31 41 two_entries))
    = (2%nat, e) :: cache_entries two_entries
    /\ userId e = 10 /\ env e = 31 /\ dbc e = 41
    /\ length (dsn_name e) = DSN_MAX_LEN
    /\ cache_ok (snd (addNewConnection junk_x (cstr "A") 10 31 41 two_entries)) = true.
Proof.
  apply (addNewConnection_prepends junk_x (cstr "A") 10 31 41 two_entries).
  reflexivity.
Defined.

(** X3.  Insert then lookup: for a dsn of at most 126 characters,
    [findConnection] right after [addNewConnection] returns the new entry
    with the inserted handles, whatever the cache held before, so of two
    entries with one key the later one is found. *)
Theorem insert_then_find (junk : nat -> ascii) (dsn : list ascii) (uid : Oid)
    (henv hdbc : SQLHANDLE) (w : world) :
  (strlen dsn <= DSN_MAX_LEN - 2)%nat ->
  let w' := snd (addNewConnection junk dsn uid henv hdbc w) in
  exists e,
    fst (findConnection dsn uid w') = Ok (Some (length (heap w)))
    /\ heap w' !! length (heap w) = Some e
    /\ env e = henv /\ dbc e = hdbc.
Proof.
  intros Hlen w'.
  destruct (find_after_insert_short junk dsn uid henv hdbc w Hlen)
    as (e & H1 & H2 & H3 & H4 & _).
  exists e. auto.
Qed.

Lemma insert_then_find_witness :
  exists e,
    fst (findConnection (cstr "A") 10
           (snd (addNewConnection junk_x (cstr "A") 10 31 41 two_entries)))
    = Ok (Some 2%nat)
    /\ heap (snd (addNewConnection junk_x (cstr "A") 10 31 41 two_entries)) !! 2%nat
       = Some e
    /\ env e = 31 /\ dbc e = 41.
Proof.
  apply (insert_then_find junk_x (cstr "A") 10 31 41 two_entries).
  vm_compute. lia.
Defined.

(** X4.  For a dsn of at most 126 characters, [addNewConnection] does not
    change what [findConnection] returns for another key: another user, or
    another dsn. *)
Theorem insert_keeps_other_keys (junk : nat -> ascii) (dsn dsn' : list ascii)
    (uid uid' : Oid) (henv hdbc : SQLHANDLE) (w : world) :
  cache_ok w = true ->
  (strlen dsn <= DSN_MAX_LEN - 2)%nat ->
  uid' <> uid \/ c_str dsn' <> c_str dsn ->
  fst (findConnection dsn' uid' (snd (addNewConnection junk dsn uid henv hdbc w)))
  = fst (findConnection dsn' uid' w).
Proof.
  intros Hw Hlen Hother.
  rewrite (findConnection_chain dsn' uid' w Hw).
  rewrite (findConnection_chain dsn' uid' _ (addNewConnection_ok _ _ _ _ _ _ Hw)).
  cbn [fst]. rewrite cache_entries_add by exact Hw.
  cbn [first_match dsn_name userId].
  assert (Hn : (strlen dsn < DSN_MAX_LEN - 1)%nat) by (unfold DSN_MAX_LEN in *; lia).
  assert (Hd : (DSN_MAX_LEN - 1 <= length (malloc_dsn_name junk))%nat)
    by (rewrite malloc_dsn_name_length; unfold DSN_MAX_LEN; lia).
  destruct (decide (c_str dsn' = c_str dsn)) as [E|E].
  - rewrite (strncpy_strcmp_same _ _ _ _ Hn Hd E).
    destruct Hother as [Hu | Hc]; [|contradiction].
    apply not_eq_sym in Hu. apply Z.eqb_neq in Hu. rewrite Hu. reflexivity.
  - rewrite (strncpy_strcmp_other _ _ _ _ Hn Hd E). reflexivity.
Qed.

Lemma insert_keeps_other_keys_witness :
  fst (findConnection (cstr "B") 10
         (snd (addNewConnection junk_x (cstr "A") 10 31 41 two_entries)))
  = fst (findConnection (cstr "B") 10 two_entries).
Proof.
  apply (insert_keeps_other_keys junk_x (cstr "A") (cstr "B") 10 10 31 41 two_entries).
  - reflexivity.
  - vm_compute. lia.
  - right. vm_compute. discriminate.
Defined.

(** X5.  On a well-shaped cache [removeConnection] returns and keeps
    exactly the entries that follow the last entry with the connection
    handle (every entry when none has it): [prev] stays NULL, so entries in
    front of a matching one are unlinked with it.  It frees the blocks of
    the matching entries only, gives back their connection and environment
    handles in list order, and leaves the blocks and the cache well-shaped. *)
Theorem removeConnection_entries (hdbc : SQLHANDLE) (w : world) :
  cache_ok w = true ->
  let l := cache_entries w in
  let gone := List.filter (holds_dbc hdbc) l in
  exists w',
    removeConnection hdbc w = (Ok tt, w')
    /\ cache_entries w' = default l (after_last hdbc l)
    /\ heap w' = heap w
    /\ freed w' = freed w ++ map fst gone
    /\ released w' = released w ++ flat_map entry_release gone
    /\ notices w' = notices w
    /\ cache_ok w' = true.
Proof.
  intros Hw l gone.
  destruct (removeConnection_run hdbc w Hw) as [Hrun Hent].
  destruct (removeConnection_ok hdbc w Hw) as (w2 & Hrun2 & Hok & _).
  eexists. split; [exact Hrun |]. split; [exact Hent |].
  rewrite Hrun in Hrun2. injection Hrun2 as <-.
  split_conj; try reflexivity. exact Hok.
Qed.

Lemma removeConnection_entries_witness :
  exists w',
    removeConnection 21 two_entries = (Ok tt, w')
    /\ cache_entries w' = default (cache_entries two_entries)
                            (after_last 21 (cache_entries two_entries))
    /\ heap w' = heap two_entries
    /\ freed w' = [1%nat]
    /\ released w' = [FreeHandle SQL_HANDLE_DBC 21; FreeHandle SQL_HANDLE_ENV 11]
    /\ notices w' = []
    /\ cache_ok w' = true.
Proof.
  apply (removeConnection_entries 21 two_entries). reflexivity.
Defined.

(** X6.  After [removeConnection] on a well-shaped cache no entry of the
    cache holds the connection handle, and [findConnection] returns no
    entry that holds it, for any key. *)
Theorem removeConnection_evicts (hdbc : SQLHANDLE) (w : world)
    (dsn : list ascii) (uid : Oid) :
  cache_ok w = true ->
  let w' := snd (removeConnection hdbc w) in
  forallb (fun x => negb (holds_dbc hdbc x)) (cache_entries w') = true
  /\ forall a, fst (findConnection dsn uid w') = Ok (Some a) ->
               exists n, heap w' !! a = Some n /\ dbc n <> hdbc.
Proof.
  intros Hw w'. subst w'.
  destruct (removeConnection_run hdbc w Hw) as [Hrun Hent].
  destruct (removeConnection_ok hdbc w Hw) as (w2 & Hrun2 & Hok & _).
  rewrite Hrun in Hrun2. injection Hrun2 as Hw2.
  rewrite Hrun. cbn [snd]. rewrite Hw2 in *.
  assert (Hclean : forallb (fun x => negb (holds_dbc hdbc x)) (cache_entries w2) = true).
  { rewrite Hent. pose proof (after_last_clean hdbc (cache_entries w)) as H.
    destruct (after_last hdbc (cache_entries w)); exact H. }
  split; [exact Hclean |].
  intros a Hfind. rewrite (findConnection_chain dsn uid w2 Hok) in Hfind.
  cbn [fst] in Hfind. destruct (first_match_in _ _ _ _ Hfind) as [n Hin].
  exists n. split; [apply (chain_lookup _ _ _ _ _ Hin) |].
  rewrite forallb_forall in Hclean. specialize (Hclean _ Hin).
  unfold holds_dbc in Hclean. cbn [snd] in Hclean.
  apply negb_true_iff, Z.eqb_neq in Hclean. exact Hclean.
Qed.

Lemma removeConnection_evicts_witness :
  forallb (fun x => negb (holds_dbc 21 x))
    (cache_entries (snd (removeConnection 21 two_entries))) = true
  /\ forall a, fst (findConnection (cstr "B") 10 (snd (removeConnection 21 two_entries)))
               = Ok (Some a) ->
               exists n, heap (snd (removeConnection 21 two_entries)) !! a = Some n
                         /\ dbc n <> 21.
Proof.
  apply (removeConnection_evicts 21 two_entries (cstr "B") 10). reflexivity.
Defined.

(** X7.  When no entry of a well-shaped cache holds the connection handle,
    [removeConnection] changes nothing: no block is freed, no handle is
    given back and the cache is the same. *)
Theorem removeConnection_absent (hdbc : SQLHANDLE) (w : world) :
  cache_ok w = true ->
  forallb (fun x => negb (holds_dbc hdbc x)) (cache_entries w) = true ->
  removeConnection hdbc w = (Ok tt, w).
Proof.
  intros Hw Hclean.
  destruct (removeConnection_run hdbc w Hw) as [Hrun _]. rewrite Hrun.
  destruct (clean_no_match hdbc _ Hclean) as (-> & -> & _).
  cbn [map flat_map]. rewrite !app_nil_r. destruct w; reflexivity.
Qed.

Lemma removeConnection_absent_witness :
  removeConnection 99 two_entries = (Ok tt, two_entries).
Proof.
  apply (removeConnection_absent 99 two_entries); reflexivity.
Defined.

Lemma strlen_take_snoc k :
  forall s g, (k <= strlen s)%nat -> g <> NUL -> strlen (take k s ++ [g]) = S k.
Proof.
  induction k as [|k IH]; intros s g Hlen Hg.
  - rewrite take_0. cbn. apply Ascii.eqb_neq in Hg. rewrite Hg. reflexivity.
  - destruct s as [|c s]; cbn [strlen] in Hlen; [lia|].
    destruct (Ascii.eqb c NUL) eqn:Ec; [lia|].
    cbn [take app strlen]. rewrite Ec. f_equal. apply IH; [lia | exact Hg].
Qed.

(** X8.  [addNewConnection] keeps at most the first 127 characters of the
    dsn: for a dsn of 127 characters or more the array of the new entry is
    these characters followed by the byte the [malloc] block held at offset
    127; no terminator is written, so when that byte is not zero the array
    holds no NUL. *)
Theorem addNewConnection_truncates (junk : nat -> ascii) (dsn : list ascii)
    (uid : Oid) (henv hdbc : SQLHANDLE) (w : world) :
  (DSN_MAX_LEN - 1 <= strlen dsn)%nat ->
  exists e,
    heap (snd (addNewConnection junk dsn uid henv hdbc w)) !! length (heap w) = Some e
    /\ dsn_name e = take (DSN_MAX_LEN - 1) dsn ++ [junk (DSN_MAX_LEN - 1)%nat]
    /\ (junk (DSN_MAX_LEN - 1)%nat <> NUL -> strlen (dsn_name e) = DSN_MAX_LEN).
Proof.
  intros Hlen. unfold addNewConnection, modify. cbn [snd heap set_cache set_heap].
  eexists. split; [apply list_lookup_middle; reflexivity |].
  cbn [dsn_name]. rewrite (stored_key_long junk dsn Hlen). split; [reflexivity |].
  intros Hj. apply strlen_take_snoc; assumption.
Qed.

Lemma addNewConnection_truncates_witness :
  exists e,
    heap (snd (addNewConnection junk_x (dsn127 ++ cstr "tail") 10 1 2 empty_world)) !! O
    = Some e
    /\ dsn_name e = take (DSN_MAX_LEN - 1) (dsn127 ++ cstr "tail") ++ ["x"%char]
    /\ ("x"%char <> NUL -> strlen (dsn_name e) = DSN_MAX_LEN).
Proof.
  apply (addNewConnection_truncates junk_x (dsn127 ++ cstr "tail") 10 1 2 empty_world).
  vm_compute. lia.
Defined.

(** ** The errors of the validator *)

Lemma scan_valid_options_known opts name context :
  snd (scan_valid_options opts name context)
  = existsb (fun opt => String.eqb (optname opt) name) opts.
Proof.
  induction opts as [|o opts IH]; cbn [scan_valid_options existsb]; [reflexivity|].
  destruct (String.eqb (optname o) name); [reflexivity | exact IH].
Qed.

Lemma allowedb_allowed name context :
  allowedb name context = true <-> allowed name context.
Proof.
  unfold allowedb, allowed. rewrite existsb_exists. split.
  - intros (o & Hin & H). apply andb_true_iff in H as [Hn Hc].
    apply String.eqb_eq in Hn. apply Z.eqb_eq in Hc. exists o. auto.
  - intros (o & Hin & Hn & Hc). exists o. split; [exact Hin |].
    apply andb_true_iff. split; [apply String.eqb_eq; exact Hn |].
    apply Z.eqb_eq. auto.
Qed.

Lemma validate_supplied_first pre def post context :
  forallb (fun d => allowedb (defname d) context) pre = true ->
  allowedb (defname def) context = false ->
  validate_supplied (pre ++ def :: post) context
  = Raise (invalid_option (defname def) (known_option (defname def)) context).
Proof.
  intros Hpre Hdef.
  induction pre as [|d pre IH]; cbn [app validate_supplied].
  - pose proof (scan_valid_options_allowed valid_options (defname def) context
                  valid_options_names_NoDup) as Hscan.
    pose proof (scan_valid_options_known valid_options (defname def) context) as Hk.
    destruct (scan_valid_options valid_options (defname def) context) as [valid rec].
    cbn [fst snd] in *. destruct valid.
    + assert (allowedb (defname def) context = true) as E
        by (apply allowedb_allowed, Hscan; reflexivity).
      congruence.
    + cbn [negb]. rewrite Hk. reflexivity.
  - cbn [forallb] in Hpre. apply andb_true_iff in Hpre as [Hd Hpre].
    pose proof (scan_valid_options_allowed valid_options (defname d) context
                  valid_options_names_NoDup) as Hscan.
    destruct (scan_valid_options valid_options (defname d) context) as [valid rec].
    cbn [fst] in Hscan. destruct valid.
    + cbn [negb]. apply IH. exact Hpre.
    + apply allowedb_allowed, Hscan in Hd. discriminate.
Qed.

Lemma validate_supplied_all options_list context :
  forallb (fun d => allowedb (defname d) context) options_list = true ->
  validate_supplied options_list context = Ok tt.
Proof.
  intros H.
  destruct (validate_supplied_cases options_list context)
    as [[Hok _] | (d & r & Hin & Hna & _)]; [exact Hok |].
  rewrite forallb_forall in H. apply H, allowedb_allowed in Hin. contradiction.
Qed.

Lemma validate_required_find opts options_list context :
  validate_required opts options_list context
  = match List.find (fun opt => required opt && (context =? optcontext opt)
                                && negb (option_supplied options_list (optname opt)))
            opts with
    | Some opt => Raise (option_required (optname opt) context)
    | None => Ok tt
    end.
Proof.
  induction opts as [|o opts IH]; cbn [validate_required List.find]; [reflexivity|].
  destruct (required o); cbn [negb andb]; [|exact IH].
  destruct (context =? optcontext o); cbn [negb andb]; [|exact IH].
  destruct (option_supplied options_list (optname o)); cbn [negb]; [exact IH | reflexivity].
Qed.

(** X9.  An option that is not valid in the context is reported before any
    missing required option: the validator raises
    ERRCODE_FDW_INVALID_OPTION_NAME for the first such option of the list,
    and the message says that the name is recognized exactly when the name
    is valid in another context. *)
Theorem validator_first_invalid (pre : list DefElem) (def : DefElem)
    (post : list DefElem) (context : Oid) :
  forallb (fun d => allowedb (defname d) context) pre = true ->
  allowedb (defname def) context = false ->
  db2odbc_fdw_validator (pre ++ def :: post) context
  = Raise (invalid_option (defname def) (known_option (defname def)) context)
  /\ errcode (invalid_option (defname def) (known_option (defname def)) context)
     = ERRCODE_FDW_INVALID_OPTION_NAME
  /\ (known_option (defname def) = true <->
      exists context', allowed (defname def) context').
Proof.
  intros Hpre Hdef. split; [|split].
  - unfold db2odbc_fdw_validator.
    rewrite (validate_supplied_first pre def post context Hpre Hdef). reflexivity.
  - reflexivity.
  - unfold known_option, allowed. rewrite existsb_exists. split.
    + intros (o & Hin & Hn). apply String.eqb_eq in Hn.
      exists (optcontext o), o. auto.
    + intros (c & o & Hin & Hn & _). exists o. split; [exact Hin |].
      apply String.eqb_eq. exact Hn.
Qed.

Lemma validator_first_invalid_witness :
  db2odbc_fdw_validator
    ([option_ "cached" "0"] ++ option_ "username" "u" :: [option_ "bogus" "1"])
    ForeignServerRelationId
  = Raise (invalid_option "username" true ForeignServerRelationId)
  /\ errcode (invalid_option "username" true ForeignServerRelationId)
     = ERRCODE_FDW_INVALID_OPTION_NAME
  /\ (true = true <-> exists context', allowed "username" context').
Proof.
  apply (validator_first_invalid [option_ "cached" "0"] (option_ "username" "u")
           [option_ "bogus" "1"] ForeignServerRelationId); reflexivity.
Defined.

(** X10.  When every supplied option is valid in the context, the validator
    raises ERRCODE_FDW_OPTION_NAME_NOT_FOUND for the first option, in the
    order of [valid_options], that the context requires and the list does
    not supply, and it returns when there is none; the values of the
    options play no part. *)
Theorem validator_first_missing (options_list : list DefElem) (context : Oid) :
  forallb (fun d => allowedb (defname d) context) options_list = true ->
  db2odbc_fdw_validator options_list context
  = match first_missing options_list context with
    | Some opt => Raise (option_required (optname opt) context)
    | None => Ok tt
    end.
Proof.
  intros H. unfold db2odbc_fdw_validator, first_missing.
  rewrite (validate_supplied_all _ _ H). apply validate_required_find.
Qed.

Lemma validator_first_missing_witness :
  db2odbc_fdw_validator [] UserMappingRelationId
  = Raise (option_required "username" UserMappingRelationId).
Proof.
  apply (validator_first_missing [] UserMappingRelationId). reflexivity.
Defined.

(** ** Where the diagnostics stop *)

Lemma diag_scan_stop pre r rec post :
  Forall (fun a => fst a = SQL_SUCCESS) pre ->
  r <> SQL_SUCCESS ->
  forall i v,
    diag_scan (pre ++ (r, rec) :: post) i (Some v)
    = (diag_lines i (map snd pre ++ (if SQL_SUCCEEDED r then [rec] else [])),
       Some (if v =? ANYERROR
             then first_native (map snd pre ++ (if SQL_SUCCEEDED r then [rec] else []))
             else v)).
Proof.
  intros Hpre Hr. apply Z.eqb_neq in Hr.
  induction pre as [|[r0 rec0] pre IH]; intros i v; cbn [app diag_scan map snd].
  - rewrite Hr. destruct (SQL_SUCCEEDED r); cbn [diag_lines].
    + unfold first_native. cbn [List.find].
      destruct (v =? ANYERROR) eqn:E; [|reflexivity].
      destruct (diag_native rec =? ANYERROR) eqn:E2; [|reflexivity].
      cbn [negb]. apply Z.eqb_eq in E2. rewrite E2. reflexivity.
    + unfold first_native. cbn. destruct (v =? ANYERROR) eqn:E; [|reflexivity].
      apply Z.eqb_eq in E. congruence.
  - apply Forall_cons in Hpre as [H0 Hpre]. cbn [fst] in H0. subst r0.
    change (SQL_SUCCEEDED SQL_SUCCESS) with true.
    change (SQL_SUCCESS =? SQL_SUCCESS) with true. cbn iota.
    destruct (v =? ANYERROR) eqn:E.
    + rewrite (IH Hpre). cbn [fst snd diag_lines]. f_equal. f_equal.
      unfold first_native. cbn [List.find].
      destruct (diag_native rec0 =? ANYERROR) eqn:E2; reflexivity.
    + rewrite (IH Hpre). cbn [fst snd diag_lines]. rewrite E. reflexivity.
Qed.

Lemma diag_scan_stop_null pre r rec post :
  Forall (fun a => fst a = SQL_SUCCESS) pre ->
  r <> SQL_SUCCESS ->
  forall i,
    diag_scan (pre ++ (r, rec) :: post) i None
    = (diag_lines i (map snd pre ++ (if SQL_SUCCEEDED r then [rec] else [])),
       None).
Proof.
  intros Hpre Hr. apply Z.eqb_neq in Hr.
  induction pre as [|[r0 rec0] pre IH]; intros i; cbn [app diag_scan map snd].
  - rewrite Hr. destruct (SQL_SUCCEEDED r); reflexivity.
  - apply Forall_cons in Hpre as [H0 Hpre]. cbn [fst] in H0. subst r0.
    change (SQL_SUCCEEDED SQL_SUCCESS) with true.
    change (SQL_SUCCESS =? SQL_SUCCESS) with true. cbn iota.
    rewrite (IH Hpre). reflexivity.
Qed.

Lemma diag_scan_length d :
  forall i o, (length (fst (diag_scan d i o)) <= length d)%nat.
Proof.
  induction d as [|[r rec] d IH]; intros i o; cbn [diag_scan fst length]; [lia|].
  destruct (SQL_SUCCEEDED r); [|cbn; lia].
  destruct (r =? SQL_SUCCESS); cbn [fst length]; [|lia].
  match goal with |- context [diag_scan d ?j ?p] => specialize (IH j p) end. lia.
Qed.

Lemma diag_scan_none d : forall i, snd (diag_scan d i None) = None.
Proof.
  induction d as [|[r rec] d IH]; intros i; cbn [diag_scan snd]; [reflexivity|].
  destruct (SQL_SUCCEEDED r); [|reflexivity].
  destruct (r =? SQL_SUCCESS); cbn [snd]; [apply IH | reflexivity].
Qed.

(** X11.  Where [extract_error] stops, whether or not the caller asks for
    the native code.  When the records before the first record that is not
    retrieved with SQL_SUCCESS are fewer than 32767, it emits them and, if
    that record is retrieved with SQL_SUCCESS_WITH_INFO, that record too.
    The records the driver holds after that one change nothing: the NOTICE
    lines and the value returned are the same whatever they are.  To a
    caller that asks for it, the native code is taken from the emitted
    records alone; a caller that passes NULL gets nothing back. *)
Theorem extract_error_stops (fn : string) (pre : diag_area) (r : SQLRETURN)
    (rec : DiagRec) (post : diag_area) (want_native : bool) (w : world) :
  Forall (fun a => fst a = SQL_SUCCESS) pre ->
  r <> SQL_SUCCESS ->
  Z.of_nat (length pre) < MAX_DIAG_RECORDS ->
  let recs := map snd pre ++ (if SQL_SUCCEEDED r then [rec] else []) in
  extract_error fn (pre ++ (r, rec) :: post) want_native w
  = (Ok (if want_native then Some (first_native recs) else None),
     set_notices (notices w ++ NoticeDiagnostics fn :: diag_lines 0 recs) w).
Proof.
  intros Hpre Hr Hlen recs. rewrite extract_error_scan. unfold diag_records.
  rewrite take_app_ge by (unfold MAX_DIAG_RECORDS in *; lia).
  assert (Hk : exists k, (Z.to_nat MAX_DIAG_RECORDS - length pre)%nat = S k).
  { exists (Z.to_nat MAX_DIAG_RECORDS - length pre - 1)%nat.
    unfold MAX_DIAG_RECORDS in *. lia. }
  destruct Hk as [k ->]. cbn [take]. destruct want_native.
  - rewrite (diag_scan_stop pre r rec _ Hpre Hr). reflexivity.
  - rewrite (diag_scan_stop_null pre r rec _ Hpre Hr). reflexivity.
Qed.

Lemma extract_error_stops_witness :
  extract_error "SQLFetch"
    ([(SQL_SUCCESS, sample_rec 5)] ++ (SQL_SUCCESS_WITH_INFO, sample_rec 6)
       :: [(SQL_SUCCESS, sample_rec 7)]) false empty_world
  = (Ok None,
     set_notices [NoticeDiagnostics "SQLFetch";
                  NoticeDiagRec "40001" 1 5 "deadlock";
                  NoticeDiagRec "40001" 2 6 "deadlock"] empty_world).
Proof.
  apply (extract_error_stops "SQLFetch" [(SQL_SUCCESS, sample_rec 5)]
           SQL_SUCCESS_WITH_INFO (sample_rec 6) [(SQL_SUCCESS, sample_rec 7)]
           false empty_world).
  - repeat constructor.
  - discriminate.
  - vm_compute. reflexivity.
Defined.

(** X12.  [extract_error] returns for every diagnostic area, however long;
    it adds the heading and at most 32767 record lines to the notices and
    changes nothing else, and it hands back a native code exactly when
    [outnative] is not NULL. *)
Theorem extract_error_bounded (fn : string) (d : diag_area) (want_native : bool)
    (w : world) :
  exists v lines,
    extract_error fn d want_native w
    = (Ok v, set_notices (notices w ++ NoticeDiagnostics fn :: lines) w)
    /\ Z.of_nat (length lines) <= MAX_DIAG_RECORDS
    /\ (length lines <= length d)%nat
    /\ (want_native = false -> v = None)
    /\ (want_native = true -> exists native, v = Some native).
Proof.
  rewrite extract_error_scan. cbv zeta. eexists _, _. split; [reflexivity |].
  pose proof (diag_scan_length (diag_records d) 0
                (if want_native then Some ANYERROR else None)) as Hl.
  assert (Ht : (length (diag_records d) <= Z.to_nat MAX_DIAG_RECORDS)%nat
               /\ (length (diag_records d) <= length d)%nat).
  { unfold diag_records. rewrite length_take. lia. }
  split_conj.
  - unfold MAX_DIAG_RECORDS in *. lia.
  - lia.
  - intros ->. apply diag_scan_none.
  - intros ->. apply diag_scan_some.
Qed.

(** ** The options and the outcomes of [getConnection] *)

Lemma scan_options_last options :
  forall o,
    let o' := scan_options options o in
    o_dsn o' = from_option Some (o_dsn o) (option_value DSN options)
    /\ o_cached o' = from_option Some (o_cached o) (option_value CACHED options)
    /\ o_password o' = from_option Some (o_password o) (option_value PASSWORD options)
    /\ o_username o' = from_option Some (o_username o) (option_value USERNAME options)
    /\ o_query o' = from_option Some (o_query o) (option_value QUERY options).
Proof.
  induction options as [|def rest IH]; intros o; cbn [scan_options option_value];
    [cbn; auto |].
  cbv zeta in IH |- *.
  match goal with |- context [scan_options rest ?x] => destruct (IH x) as (H1 & H2 & H3 & H4 & H5) end.
  rewrite H1, H2, H3, H4, H5. clear IH H1 H2 H3 H4 H5.
  destruct (option_value DSN rest), (option_value CACHED rest),
    (option_value PASSWORD rest), (option_value USERNAME rest),
    (option_value QUERY rest); cbn [from_option];
    (destruct (String.eqb (defname def) DSN) eqn:E1;
     [apply String.eqb_eq in E1; rewrite ?E1; cbn; auto |]);
    (destruct (String.eqb (defname def) CACHED) eqn:E2;
     [apply String.eqb_eq in E2; rewrite ?E2; cbn; auto |]);
    (destruct (String.eqb (defname def) PASSWORD) eqn:E3;
     [apply String.eqb_eq in E3; rewrite ?E3; cbn; auto |]);
    (destruct (String.eqb (defname def) USERNAME) eqn:E4;
     [apply String.eqb_eq in E4; rewrite ?E4; cbn; auto |]);
    (destruct (String.eqb (defname def) QUERY) eqn:E5;
     [apply String.eqb_eq in E5; rewrite ?E5; cbn; auto |]);
    cbn; auto.
Qed.

(** X13.  [getConnection] reads the options of the table, then those of the
    server, then those of the user mapping, and for each of dsn, cached,
    username and password the last occurrence wins; sql_query is the last
    occurrence too, and the query passed in when there is none. *)
Theorem getConnection_options_last_wins (t : ForeignTable) (query : option string) :
  let o := resolve_options t query in
  o_dsn o = option_value DSN (scanned_options t)
  /\ o_cached o = option_value CACHED (scanned_options t)
  /\ o_username o = option_value USERNAME (scanned_options t)
  /\ o_password o = option_value PASSWORD (scanned_options t)
  /\ o_query o = from_option Some query (option_value QUERY (scanned_options t)).
Proof.
  cbv zeta. unfold resolve_options, scanned_options.
  match goal with |- context [scan_options ?l ?x] =>
    destruct (scan_options_last l x) as (H1 & H2 & H3 & H4 & H5) end.
  rewrite H1, H2, H3, H4, H5. cbn [o_dsn o_cached o_username o_password o_query].
  split_conj; try reflexivity;
    match goal with |- from_option Some None ?x = ?x => destruct x; reflexivity end.
Qed.

Lemma getConnection_hit drv t data query w dsn a n :
  o_dsn (resolve_options t query) = Some dsn ->
  fst (findConnection (cstr dsn) (user_id t) w) = Ok (Some a) ->
  heap w !! a = Some n ->
  getConnection drv t data query w
  = (Ok (set_data_dbc (dbc n)
           (set_data_env (env n)
              (set_cached (o_cached (resolve_options t query)) data)),
         o_query (resolve_options t query)),
     count_getconn w).
Proof.
  intros Hdsn Hfind Hn. unfold getConnection. rewrite Hdsn.
  destruct w as [h f c rl ns ng nc ne nf]. run_monad.
  rewrite Hfind, Hn. reflexivity.
Qed.

Lemma getConnection_fresh drv t data query w dsn :
  o_dsn (resolve_options t query) = Some dsn ->
  fst (findConnection (cstr dsn) (user_id t) w) = Ok None ->
  let o := resolve_options t query in
  let c := on_connect drv (n_connect w) in
  exists ns ns',
    let w1 := count_connect (set_notices (notices w ++ ns) (count_getconn w)) in
    getConnection drv t data query w
    = if SQL_SUCCEEDED (connect_ret c)
      then (Ok (set_data_dbc (dbc_handle c)
                  (set_data_env (env_handle c) (set_cached (o_cached o) data)),
                o_query o),
            match o_cached o with
            | Some _ =>
                snd (addNewConnection (malloc_junk drv (length (heap w))) (cstr dsn)
                       (user_id t) (env_handle c) (dbc_handle c) w1)
            | None => w1
            end)
      else (Raise (unable_to_connect dsn),
            count_connect (set_notices (notices w ++ ns') (count_getconn w))).
Proof.
  intros Hdsn Hfind. cbv zeta.
  unfold getConnection. rewrite Hdsn.
  destruct w as [h f c rl ns ng nc ne nf].
  run_monad. rewrite Hfind.
  destruct (SQL_SUCCEEDED (alloc_env_ret (on_connect drv nc)));
    destruct (SQL_SUCCEEDED (setenvattr_ret (on_connect drv nc)));
    destruct (SQL_SUCCEEDED (alloc_dbc_ret (on_connect drv nc)));
    destruct (SQL_SUCCEEDED (connect_ret (on_connect drv nc)));
    destruct (o_cached (resolve_options t query));
    unfold addNewConnection;
    run_diag; rewrite <- ?app_assoc;
    first [ solve [exists [], []; rewrite ?app_nil_r; reflexivity]
          | solve [eexists _, []; reflexivity]
          | solve [eexists [], _; reflexivity] ].
Qed.

Lemma getConnection_fresh_null drv t data query w :
  o_dsn (resolve_options t query) = None ->
  cache w = None ->
  let o := resolve_options t query in
  let c := on_connect drv (n_connect w) in
  exists ns ns',
    let w1 := count_connect (set_notices (notices w ++ ns) (count_getconn w)) in
    getConnection drv t data query w
    = if SQL_SUCCEEDED (connect_ret c)
      then match o_cached o with
           | Some _ => (Undefined, w1)
           | None =>
               (Ok (set_data_dbc (dbc_handle c)
                      (set_data_env (env_handle c) (set_cached (o_cached o) data)),
                    o_query o), w1)
           end
      else (Raise (unable_to_connect (fmt_s None)),
            count_connect (set_notices (notices w ++ ns') (count_getconn w))).
Proof.
  intros Hdsn Hc. cbv zeta.
  unfold getConnection. rewrite Hdsn.
  destruct w as [h f c rl ns ng nc ne nf]. cbn [cache] in Hc. subst c.
  run_monad.
  destruct (SQL_SUCCEEDED (alloc_env_ret (on_connect drv nc)));
    destruct (SQL_SUCCEEDED (setenvattr_ret (on_connect drv nc)));
    destruct (SQL_SUCCEEDED (alloc_dbc_ret (on_connect drv nc)));
    destruct (SQL_SUCCEEDED (connect_ret (on_connect drv nc)));
    destruct (o_cached (resolve_options t query)) eqn:Htok;
    run_diag; rewrite <- ?app_assoc;
    first [ solve [exists [], []; rewrite ?app_nil_r; reflexivity]
          | solve [eexists _, []; reflexivity]
          | solve [eexists [], _; reflexivity] ].
Qed.

(** The ways a call of [getConnection] can go: it stops at the lookup; the
    lookup finds an entry; it finds none for the dsn; no dsn is set and the
    cache is empty. *)
Lemma getConnection_cases drv t data query w r w' :
  getConnection drv t data query w = (r, w') ->
  let o := resolve_options t query in
  let c := on_connect drv (n_connect w) in
  ((forall x, r <> Ok x) /\ (forall e, r <> Raise e) /\ w' = count_getconn w
   /\ (r = OutOfFuel ->
       exists dsn, o_dsn o = Some dsn
                   /\ fst (findConnection (cstr dsn) (user_id t) w) = OutOfFuel))
  \/ (exists dsn a n,
        o_dsn o = Some dsn
        /\ fst (findConnection (cstr dsn) (user_id t) w) = Ok (Some a)
        /\ heap w !! a = Some n
        /\ r = Ok (set_data_dbc (dbc n)
                     (set_data_env (env n) (set_cached (o_cached o) data)),
                   o_query o)
        /\ w' = count_getconn w)
  \/ (exists dsn ns ns',
        o_dsn o = Some dsn
        /\ fst (findConnection (cstr dsn) (user_id t) w) = Ok None
        /\ (r, w')
           = let w1 := count_connect
                         (set_notices (notices w ++ ns) (count_getconn w)) in
             if SQL_SUCCEEDED (connect_ret c)
             then (Ok (set_data_dbc (dbc_handle c)
                         (set_data_env (env_handle c) (set_cached (o_cached o) data)),
                       o_query o),
                   match o_cached o with
                   | Some _ =>
                       snd (addNewConnection (malloc_junk drv (length (heap w)))
                              (cstr dsn) (user_id t) (env_handle c) (dbc_handle c) w1)
                   | None => w1
                   end)
             else (Raise (unable_to_connect dsn),
                   count_connect (set_notices (notices w ++ ns') (count_getconn w))))
  \/ (exists ns ns',
        o_dsn o = None /\ cache w = None
        /\ (r, w')
           = let w1 := count_connect
                         (set_notices (notices w ++ ns) (count_getconn w)) in
             if SQL_SUCCEEDED (connect_ret c)
             then match o_cached o with
                  | Some _ => (Undefined, w1)
                  | None =>
                      (Ok (set_data_dbc (dbc_handle c)
                             (set_data_env (env_handle c)
                                (set_cached (o_cached o) data)),
                           o_query o), w1)
                  end
             else (Raise (unable_to_connect (fmt_s None)),
                   count_connect (set_notices (notices w ++ ns') (count_getconn w)))).
Proof.
  intros Hrun. cbv zeta.
  destruct (o_dsn (resolve_options t query)) as [dsn|] eqn:Hdsn.
  2:{ destruct (cache w) as [a|] eqn:Hc.
      - left. unfold getConnection in Hrun. rewrite Hdsn in Hrun.
        destruct w as [h f c rl ns ng nc ne nf]. cbn [cache] in Hc. subst c.
        run_monad. injection Hrun as <- <-.
        split_conj; [discriminate | discriminate | reflexivity | discriminate].
      - right. right. right.
        destruct (getConnection_fresh_null drv t data query w Hdsn Hc)
          as (ns & ns' & E).
        exists ns, ns'. rewrite <- Hrun. cbv zeta in E. rewrite E.
        split_conj; reflexivity. }
  destruct (fst (findConnection (cstr dsn) (user_id t) w)) as [[a|] | e | |] eqn:Hfind.
  - destruct (heap w !! a) as [n|] eqn:Hn.
    + right. left. exists dsn, a, n.
      rewrite (getConnection_hit drv t data query w dsn a n Hdsn Hfind Hn) in Hrun.
      injection Hrun as <- <-. split_conj; try reflexivity; assumption.
    + left. unfold getConnection in Hrun. rewrite Hdsn in Hrun.
      destruct w as [h f c rl ns ng nc ne nf]. run_monad.
      rewrite Hfind, Hn in Hrun. injection Hrun as <- <-.
      split_conj;
        [discriminate | discriminate | reflexivity
        | first [discriminate | intros _; exists dsn; split; first [reflexivity | assumption]]].
  - right. right. left.
    destruct (getConnection_fresh drv t data query w dsn Hdsn Hfind) as (ns & ns' & E).
    exists dsn, ns, ns'. rewrite <- Hrun. cbv zeta in E. rewrite E.
    split_conj; try reflexivity; assumption.
  - exfalso. destruct w as [h f c rl ns ng nc ne nf]. run_monad.
    exact (findConnection_loop_no_raise _ _ _ _ _ _ Hfind).
  - left. unfold getConnection in Hrun. rewrite Hdsn in Hrun.
    destruct w as [h f c rl ns ng nc ne nf]. run_monad.
    rewrite Hfind in Hrun. injection Hrun as <- <-.
    split_conj;
        [discriminate | discriminate | reflexivity
        | first [discriminate | intros _; exists dsn; split; first [reflexivity | assumption]]].
  - left. unfold getConnection in Hrun. rewrite Hdsn in Hrun.
    destruct w as [h f c rl ns ng nc ne nf]. run_monad.
    rewrite Hfind in Hrun. injection Hrun as <- <-.
    split_conj;
        [discriminate | discriminate | reflexivity
        | first [discriminate | intros _; exists dsn; split; first [reflexivity | assumption]]].
Qed.

Lemma findConnection_frame dsn uid w w' :
  heap w' = heap w -> cache w' = cache w ->
  fst (findConnection dsn uid w') = fst (findConnection dsn uid w).
Proof. intros Hh Hc. unfold findConnection. cbn [fst]. rewrite Hh, Hc. reflexivity. Qed.

Lemma cache_entries_frame w w' :
  heap w' = heap w -> cache w' = cache w -> cache_entries w' = cache_entries w.
Proof. intros Hh Hc. unfold cache_entries. rewrite Hh, Hc. reflexivity. Qed.

Lemma cache_ok_frame w w' :
  heap w' = heap w -> cache w' = cache w -> cache_ok w' = cache_ok w.
Proof. intros Hh Hc. unfold cache_ok. rewrite Hh, Hc. reflexivity. Qed.

Lemma findConnection_found dsn uid w a :
  cache_ok w = true ->
  fst (findConnection dsn uid w) = Ok (Some a) ->
  exists n, heap w !! a = Some n /\ In (a, n) (cache_entries w).
Proof.
  intros Hw Hfind. rewrite (findConnection_chain dsn uid w Hw) in Hfind.
  cbn [fst] in Hfind. destruct (first_match_in _ _ _ _ Hfind) as [n Hn].
  exists n. split; [|exact Hn]. exact (chain_lookup _ _ _ _ _ Hn).
Qed.

(** X14.  When the cache holds an entry for the dsn and the user,
    [getConnection] hands out the handles of that entry, and what it does
    does not depend on the driver: for every driver the session gets these
    two handles, the token and the query of the options, and the state is
    the one before the call with one more connection request counted, so
    that no [SQLConnect] is counted, nothing is logged, no handle is given
    back and the cache is not touched. *)
Theorem getConnection_cache_hit (t : ForeignTable) (data : db2PrivateData)
    (query : option string) (w : world) (dsn : string) (a : addr) :
  cache_ok w = true ->
  o_dsn (resolve_options t query) = Some dsn ->
  fst (findConnection (cstr dsn) (user_id t) w) = Ok (Some a) ->
  exists n,
    In (a, n) (cache_entries w)
    /\ forall drv : Driver,
         getConnection drv t data query w
         = (Ok ({| data_env := env n; data_dbc := dbc n; stmt := stmt data;
                   no_columns := no_columns data; columnsbuf := columnsbuf data;
                   cached := o_cached (resolve_options t query) |},
                o_query (resolve_options t query)),
            count_getconn w).
Proof.
  intros Hw Hdsn Hfind.
  destruct (findConnection_found _ _ _ _ Hw Hfind) as (n & Hn & Hin).
  exists n. split; [exact Hin |]. intros drv.
  rewrite (getConnection_hit drv t data query w dsn a n Hdsn Hfind Hn).
  reflexivity.
Qed.

Lemma getConnection_cache_hit_witness :
  exists n,
    In (1%nat, n) (cache_entries two_entries)
    /\ forall drv : Driver,
         getConnection drv
           {| table_options := []; server_options := [option_ "dsn" "A"];
              mapping_options := []; user_id := 10 |}
           palloc_data None two_entries
         = (Ok ({| data_env := env n; data_dbc := dbc n; stmt := stmt palloc_data;
                   no_columns := no_columns palloc_data;
                   columnsbuf := columnsbuf palloc_data;
                   cached := o_cached (resolve_options
                                         {| table_options := [];
                                            server_options := [option_ "dsn" "A"];
                                            mapping_options := [];
                                            user_id := 10 |} None) |},
                o_query (resolve_options
                           {| table_options := [];
                              server_options := [option_ "dsn" "A"];
                              mapping_options := []; user_id := 10 |} None)),
            count_getconn two_entries).
Proof.
  apply (getConnection_cache_hit
           {| table_options := []; server_options := [option_ "dsn" "A"];
              mapping_options := []; user_id := 10 |}
           palloc_data None two_entries "A" 1%nat); reflexivity.
Defined.

Lemma getConnection_entry drv t data d query q w w' dsn token :
  cache_ok w = true ->
  o_dsn (resolve_options t query) = Some dsn ->
  (strlen (cstr dsn) <= DSN_MAX_LEN - 2)%nat ->
  getConnection drv t data query w = (Ok (d, q), w') ->
  cached d = Some token ->
  exists a n,
    fst (findConnection (cstr dsn) (user_id t) w') = Ok (Some a)
    /\ heap w' !! a = Some n
    /\ env n = data_env d /\ dbc n = data_dbc d.
Proof.
  intros Hw Hdsn Hlen Hrun Htok.
  destruct (getConnection_cases _ _ _ _ _ _ _ Hrun)
    as [(Hno & _) | [(dsn' & a & n & Hd & Hfind & Hn & Hr & ->)
                    | [(dsn' & ns & ns' & Hd & Hfind & E)
                      | (ns & ns' & Hd & _)]]].
  4:{ rewrite Hdsn in Hd. discriminate. }
  - exfalso. exact (Hno _ eq_refl).
  - rewrite Hdsn in Hd. injection Hd as <-. injection Hr as -> _.
    exists a, n. split_conj; try reflexivity.
    + rewrite <- Hfind. apply findConnection_frame; destruct w; reflexivity.
    + destruct w; exact Hn.
  - rewrite Hdsn in Hd. injection Hd as <-. cbv zeta in E.
    destruct (SQL_SUCCEEDED (connect_ret (on_connect drv (n_connect w))));
      [|discriminate].
    apply pair_equal_spec in E as [[= -> ->] ->].
    cbn [cached set_data_dbc set_data_env set_cached] in Htok.
    rewrite Htok.
    match goal with |- context [addNewConnection ?j ?s ?u ?e ?b ?x] =>
      destruct (find_after_insert_short j s u e b x Hlen)
        as (n & H1 & H2 & H3 & H4 & _) end.
    eexists _, n. split_conj; [exact H1 | exact H2 | exact H3 | exact H4].
Qed.

(** X15.  After a successful [getConnection] of a session with the option
    cached, for a dsn of at most 126 characters, the cache holds an entry
    for the dsn and the user that [findConnection] returns, and its handles
    are the ones the session got, whether they were reused or new. *)
Theorem getConnection_leaves_entry (drv : Driver) (t : ForeignTable)
    (data d : db2PrivateData) (query q : option string) (w w' : world)
    (dsn token : string) :
  cache_ok w = true ->
  o_dsn (resolve_options t query) = Some dsn ->
  (strlen (cstr dsn) <= DSN_MAX_LEN - 2)%nat ->
  getConnection drv t data query w = (Ok (d, q), w') ->
  cached d = Some token ->
  exists a n,
    fst (findConnection (cstr dsn) (user_id t) w') = Ok (Some a)
    /\ heap w' !! a = Some n
    /\ env n = data_env d /\ dbc n = data_dbc d.
Proof. exact (getConnection_entry drv t data d query q w w' dsn token). Qed.

Lemma getConnection_leaves_entry_witness :
  exists a n,
    fst (findConnection (cstr "D1") 10
           (first_turn_world (retry_driver true true)
              (sample_table [option_ "cached" "yes"])))
    = Ok (Some a)
    /\ heap (first_turn_world (retry_driver true true)
               (sample_table [option_ "cached" "yes"])) !! a = Some n
    /\ env n = data_env (first_turn_data (Some "yes"))
    /\ dbc n = data_dbc (first_turn_data (Some "yes")).
Proof.
  apply (getConnection_leaves_entry (retry_driver true true)
           (sample_table [option_ "cached" "yes"]) palloc_data
           (first_turn_data (Some "yes")) None (Some "SELECT 1") empty_world
           (first_turn_world (retry_driver true true)
              (sample_table [option_ "cached" "yes"]))
           "D1" "yes").
  - reflexivity.
  - reflexivity.
  - vm_compute. lia.
  - reflexivity.
  - reflexivity.
Defined.



Lemma getConnection_raises drv t data query w w' err :
  getConnection drv t data query w = (Raise err, w') ->
  let o := resolve_options t query in
  err = unable_to_connect (fmt_s (o_dsn o))
  /\ match o_dsn o with
     | Some dsn => fst (findConnection (cstr dsn) (user_id t) w) = Ok None
     | None => cache w = None
     end
  /\ SQL_SUCCEEDED (connect_ret (on_connect drv (n_connect w))) = false
  /\ n_connect w' = S (n_connect w)
  /\ heap w' = heap w /\ cache w' = cache w
  /\ released w' = released w.
Proof.
  intros Hrun. cbv zeta.
  destruct (getConnection_cases _ _ _ _ _ _ _ Hrun)
    as [(_ & Hno & _) | [(dsn' & a & n & Hd & Hfind & Hn & Hr & ->)
                        | [(dsn' & ns & ns' & Hd & Hfind & E)
                          | (ns & ns' & Hd & Hc & E)]]].
  - exfalso. exact (Hno _ eq_refl).
  - discriminate.
  - cbv zeta in E. rewrite Hd.
    destruct (SQL_SUCCEEDED (connect_ret (on_connect drv (n_connect w))));
      [discriminate |].
    apply pair_equal_spec in E as [[= ->] ->].
    destruct w; split_conj; try reflexivity; assumption.
  - cbv zeta in E. rewrite Hd.
    destruct (SQL_SUCCEEDED (connect_ret (on_connect drv (n_connect w))));
      [destruct (o_cached (resolve_options t query)); discriminate |].
    apply pair_equal_spec in E as [[= ->] ->].
    destruct w; split_conj; try reflexivity; assumption.
Qed.

(** X17.  The errors of [getConnection], its catalog lookups included.
    An error of the lookups is raised as it is, before anything else is
    done.  Once the lookups have returned, the only error raised is the
    connection error, whose message names the dsn, or reads (null) when no
    option dsn is set.  It is raised only when the lookup in the cache
    found no entry (without a dsn: when the cache is empty) and
    [SQLConnect] was rejected; the cache is then as it was. *)
Theorem getConnection_only_error (drv : Driver) (c : catalog_lookup)
    (data : db2PrivateData) (query : option string) (w w' : world)
    (err : ErrorData) :
  getConnection_lookup drv c data query w = (Raise err, w') ->
  match c with
  | lookup_raises e => err = e /\ w' = count_getconn w
  | lookup_returns t =>
      let o := resolve_options t query in
      err = unable_to_connect (fmt_s (o_dsn o))
      /\ match o_dsn o with
         | Some dsn => fst (findConnection (cstr dsn) (user_id t) w) = Ok None
         | None => cache w = None
         end
      /\ SQL_SUCCEEDED (connect_ret (on_connect drv (n_connect w))) = false
      /\ n_connect w' = S (n_connect w)
      /\ heap w' = heap w /\ cache w' = cache w
      /\ released w' = released w
  end.
Proof.
  destruct c as [e | t]; cbn [getConnection_lookup].
  - intros [= <- <-]. split; reflexivity.
  - apply getConnection_raises.
Qed.

Lemma getConnection_only_error_witness :
  let t := {| table_options := []; server_options := [];
              mapping_options := []; user_id := 10 |} in
  let run := getConnection (retry_driver false true) t palloc_data None
               (count_connect empty_world) in
  unable_to_connect "(null)" = unable_to_connect (fmt_s (o_dsn (resolve_options t None)))
  /\ match o_dsn (resolve_options t None) with
     | Some dsn =>
         fst (findConnection (cstr dsn) (user_id t) (count_connect empty_world))
         = Ok None
     | None => cache (count_connect empty_world) = None
     end
  /\ SQL_SUCCEEDED
       (connect_ret (on_connect (retry_driver false true)
                       (n_connect (count_connect empty_world)))) = false
  /\ n_connect (snd run) = S (n_connect (count_connect empty_world))
  /\ heap (snd run) = heap (count_connect empty_world)
  /\ cache (snd run) = cache (count_connect empty_world)
  /\ released (snd run) = released (count_connect empty_world).
Proof.
  cbv zeta.
  apply (getConnection_only_error (retry_driver false true)
           (lookup_returns
              {| table_options := []; server_options := [];
                 mapping_options := []; user_id := 10 |})
           palloc_data None (count_connect empty_world)
           (snd (getConnection (retry_driver false true)
                   {| table_options := []; server_options := [];
                      mapping_options := []; user_id := 10 |}
                   palloc_data None (count_connect empty_world)))
           (unable_to_connect "(null)")).
  reflexivity.
Defined.

(** ** The end of a scan *)

Lemma end_effect data w :
  db2_EndForeignScan data w
  = (Ok tt,
     set_released
       (released w ++ FreeHandle SQL_HANDLE_STMT (stmt data)
          :: match cached data with
             | None => [Disconnect (data_dbc data);
                        FreeHandle SQL_HANDLE_DBC (data_dbc data);
                        FreeHandle SQL_HANDLE_ENV (data_env data)]
             | Some _ => []
             end) w).
Proof.
  unfold db2_EndForeignScan, closeConnection, SQLFreeHandle, SQLDisconnect.
  destruct w as [h f c rl ns ng nc ne nf]. destruct (cached data); run_monad;
    rewrite <- ?app_assoc; reflexivity.
Qed.

(** X18.  Pooling round trip.  A session with the option cached, for a dsn
    of at most 126 characters, got its connection from [getConnection];
    when the scan ends, [db2_EndForeignScan] gives back the statement handle
    only, and the next [getConnection] for the same table and user hands out
    the same two handles without calling [SQLConnect], whatever the driver
    would answer. *)
Theorem pooled_connection_reused (drv : Driver) (t : ForeignTable)
    (data d d1 : db2PrivateData) (query q : option string) (w w1 w2 : world)
    (dsn token : string) :
  cache_ok w = true ->
  o_dsn (resolve_options t query) = Some dsn ->
  (strlen (cstr dsn) <= DSN_MAX_LEN - 2)%nat ->
  getConnection drv t data query w = (Ok (d, q), w1) ->
  cached d = Some token ->
  heap w2 = heap w1 -> cache w2 = cache w1 -> cached d1 = cached d ->
  let w3 := snd (db2_EndForeignScan d1 w2) in
  fst (db2_EndForeignScan d1 w2) = Ok tt
  /\ released w3 = released w2 ++ [FreeHandle SQL_HANDLE_STMT (stmt d1)]
  /\ forall drv' data' query',
       exists d2 q2,
         getConnection drv' t data' query' w3 = (Ok (d2, q2), count_getconn w3)
         /\ data_env d2 = data_env d /\ data_dbc d2 = data_dbc d.
Proof.
  intros Hw Hdsn Hlen Hrun Htok Hheap Hcache Hd1 w3. subst w3.
  rewrite end_effect, Hd1, Htok. cbn [fst snd].
  split; [reflexivity |]. split; [destruct w2; reflexivity |].
  intros drv' data' query'.
  destruct (getConnection_entry _ _ _ _ _ _ _ _ _ _ Hw Hdsn Hlen Hrun Htok)
    as (a & n & Hfind & Hn & He & Hb).
  eexists _, _. split.
  - apply (getConnection_hit drv' t data' query' _ dsn a n).
    + rewrite (resolve_options_dsn t query query'). exact Hdsn.
    + rewrite <- Hfind. apply findConnection_frame.
      * destruct w2; exact Hheap.
      * destruct w2; exact Hcache.
    + destruct w2; cbn in *; rewrite Hheap; exact Hn.
  - split; [exact He | exact Hb].
Qed.

Lemma pooled_connection_reused_witness :
  let w1 := first_turn_world (retry_driver true true)
              (sample_table [option_ "cached" "yes"]) in
  let w3 := snd (db2_EndForeignScan (first_turn_data (Some "yes")) w1) in
  fst (db2_EndForeignScan (first_turn_data (Some "yes")) w1) = Ok tt
  /\ released w3 = released w1 ++ [FreeHandle SQL_HANDLE_STMT 0]
  /\ forall drv' data' query',
       exists d2 q2,
         getConnection drv' (sample_table [option_ "cached" "yes"]) data' query' w3
         = (Ok (d2, q2), count_getconn w3)
         /\ data_env d2 = 11 /\ data_dbc d2 = 12.
Proof.
  apply (pooled_connection_reused (retry_driver true true)
           (sample_table [option_ "cached" "yes"]) palloc_data
           (first_turn_data (Some "yes")) (first_turn_data (Some "yes"))
           None (Some "SELECT 1") empty_world
           (first_turn_world (retry_driver true true)
              (sample_table [option_ "cached" "yes"]))
           (first_turn_world (retry_driver true true)
              (sample_table [option_ "cached" "yes"]))
           "D1" "yes").
  - reflexivity.
  - reflexivity.
  - vm_compute. lia.
  - reflexivity.
  - reflexivity.
  - reflexivity.
  - reflexivity.
  - reflexivity.
Defined.

(** X19.  [closeConnection] looks at the option cached of the session only,
    not at where the handles came from: a session without the option that
    was handed the handles of a cache entry disconnects and frees them when
    the scan ends, and the entry stays in the cache with these handles. *)
Theorem uncached_session_closes_cached_connection (drv : Driver)
    (t : ForeignTable) (data : db2PrivateData) (query : option string)
    (w : world) (dsn : string) (a : addr) :
  cache_ok w = true ->
  o_dsn (resolve_options t query) = Some dsn ->
  o_cached (resolve_options t query) = None ->
  fst (findConnection (cstr dsn) (user_id t) w) = Ok (Some a) ->
  exists n d q w1,
    getConnection drv t data query w = (Ok (d, q), w1)
    /\ In (a, n) (cache_entries w)
    /\ released (snd (db2_EndForeignScan d w1))
       = released w ++ [FreeHandle SQL_HANDLE_STMT (stmt d);
                        Disconnect (dbc n);
                        FreeHandle SQL_HANDLE_DBC (dbc n);
                        FreeHandle SQL_HANDLE_ENV (env n)]
    /\ cache_entries (snd (db2_EndForeignScan d w1)) = cache_entries w.
Proof.
  intros Hw Hdsn Hc Hfind.
  destruct (findConnection_found _ _ _ _ Hw Hfind) as (n & Hn & Hin).
  exists n. eexists _, _, _. split.
  - apply (getConnection_hit drv t data query w dsn a n Hdsn Hfind Hn).
  - split; [exact Hin |]. rewrite end_effect, Hc. cbn [snd].
    split; destruct w; reflexivity.
Qed.

Lemma uncached_session_closes_cached_connection_witness :
  exists n d q w1,
    getConnection (retry_driver true true)
      {| table_options := []; server_options := [option_ "dsn" "A"];
         mapping_options := []; user_id := 10 |} palloc_data None two_entries
    = (Ok (d, q), w1)
    /\ In (1%nat, n) (cache_entries two_entries)
    /\ released (snd (db2_EndForeignScan d w1))
       = released two_entries ++ [FreeHandle SQL_HANDLE_STMT (stmt d);
                                  Disconnect (dbc n);
                                  FreeHandle SQL_HANDLE_DBC (dbc n);
                                  FreeHandle SQL_HANDLE_ENV (env n)]
    /\ cache_entries (snd (db2_EndForeignScan d w1)) = cache_entries two_entries.
Proof.
  apply (uncached_session_closes_cached_connection (retry_driver true true)
           {| table_options := []; server_options := [option_ "dsn" "A"];
              mapping_options := []; user_id := 10 |}
           palloc_data None two_entries "A" 1%nat); reflexivity.
Defined.

(** ** The rows of a scan *)

Lemma strrchr_bound s c :
  forall p, strrchr s c = Some p -> (p < strlen s)%nat.
Proof.
  induction s as [|x s IH]; intros p; cbn [strrchr strlen]; [discriminate|].
  destruct (Ascii.eqb x NUL); [discriminate|].
  destruct (strrchr s c) as [q|].
  - intros [= <-]. specialize (IH q eq_refl). lia.
  - destruct (Ascii.eqb x c); [|discriminate]. intros [= <-]. lia.
Qed.

Lemma strlen_insert s (x : ascii) :
  x <> NUL -> forall p, (p < strlen s)%nat -> strlen (<[p := x]> s) = strlen s.
Proof.
  intros Hx. apply Ascii.eqb_neq in Hx.
  induction s as [|y s IH]; intros p; cbn [strlen]; [lia|].
  destruct (Ascii.eqb y NUL) eqn:Ey; [lia|].
  destruct p as [|p]; intros Hp.
  - change (<[O := x]> (y :: s)) with (x :: s). cbn [strlen]. rewrite Hx. reflexivity.
  - change (<[S p := x]> (y :: s)) with (y :: <[p := x]> s). cbn [strlen].
    rewrite Ey, IH by lia. reflexivity.
Qed.

Lemma c_str_take s : c_str s = take (strlen s) s.
Proof.
  induction s as [|x s IH]; cbn [c_str strlen take]; [reflexivity|].
  destruct (Ascii.eqb x NUL); cbn [take]; [reflexivity | rewrite IH; reflexivity].
Qed.

(** X20.  The comma loop of [db2_IterateForeignScan] on a whole buffer: the
    characters before the terminator have every comma replaced by a point,
    and the terminator and every byte after it are left as they were; the
    loop never writes at or past the terminator. *)
Theorem replace_commas_buffer (s : list ascii) :
  replace_commas s = map subst_comma (c_str s) ++ drop (strlen s) s
  /\ length (replace_commas s) = length s
  /\ strlen (replace_commas s) = strlen s.
Proof.
  assert (H1 : replace_commas s = map subst_comma (c_str s) ++ drop (strlen s) s).
  { funelim (replace_commas s).
    - rewrite H. pose proof (strrchr_bound _ _ _ Hp) as Hb.
      rewrite (strrchr_some_replace _ _ Hp).
      rewrite strlen_insert by (discriminate || exact Hb).
      rewrite drop_insert_lt by exact Hb. reflexivity.
    - rewrite (strrchr_none_no_comma s) by assumption.
      rewrite c_str_take, take_drop. reflexivity. }
  split; [exact H1 |].
  assert (Hl : length (map subst_comma (c_str s)) = strlen s).
  { rewrite length_map, c_str_take, length_take.
    assert (strlen s <= length s)%nat; [|lia].
    clear. induction s as [|x s IH]; cbn [strlen length]; [lia|].
    destruct (Ascii.eqb x NUL); lia. }
  split.
  - rewrite H1, length_app, length_drop, Hl.
    assert (strlen s <= length s)%nat; [|lia].
    clear. induction s as [|x s IH]; cbn [strlen length]; [lia|].
    destruct (Ascii.eqb x NUL); lia.
  - rewrite H1. clear. induction s as [|x s IH]; cbn [c_str strlen map app drop];
      [reflexivity|].
    destruct (Ascii.eqb x NUL) eqn:Ex.
    + cbn [map app drop strlen]. rewrite Ex. reflexivity.
    + cbn [map app strlen]. unfold subst_comma at 1.
      destruct (Ascii.eqb x ","%char) eqn:Ec; [|rewrite Ex]; cbn; rewrite ?Ex, IH;
        reflexivity.
Qed.

Lemma raise_after_diagnostics {A : Type} fn d (e : ErrorData) w :
  (extract_error fn d false ;;; (ereport e : M A)) w
  = (Raise e, snd (extract_error fn d false w)).
Proof.
  rewrite extract_error_scan. unfold bind, ereport. rewrite extract_error_scan.
  reflexivity.
Qed.

Lemma bind_ret_tt {B : Type} (m : M B) w : (ret tt ;;; m) w = m w.
Proof. reflexivity. Qed.

Lemma bind_raise {A B : Type} (m : M A) (f : A -> M B) e w w' :
  m w = (Raise e, w') -> bind m f w = (Raise e, w').
Proof. intros H. unfold bind. rewrite H. reflexivity. Qed.

Lemma iterate_columns_outcome data a :
  forall n i values w,
    (i + n <= length (columnsbuf data))%nat ->
    match fst (iterate_columns n i data a values w) with
    | Ok row =>
        length row = (length values + n)%nat
        /\ snd (iterate_columns n i data a values w) = w
        /\ forall k, (i <= k < i + n)%nat ->
                     SQL_SUCCEEDED (getdata_ret (fetch_cell a k)) = true
    | Raise e =>
        e = getdata_failed
        /\ exists k, (i <= k < i + n)%nat
             /\ SQL_SUCCEEDED (getdata_ret (fetch_cell a k)) = false
             /\ (forall j, (i <= j < k)%nat ->
                           SQL_SUCCEEDED (getdata_ret (fetch_cell a j)) = true)
             /\ snd (iterate_columns n i data a values w)
                = snd (extract_error "SQLGetData" (getdata_diag (fetch_cell a k))
                         false w)
    | Undefined | OutOfFuel => False
    end.
Proof.
  induction n as [|n IH]; intros i values w Hlen; cbn [iterate_columns].
  - cbn. split_conj; [lia | reflexivity | intros; lia].
  - destruct (lookup_lt_is_Some_2 (columnsbuf data) i ltac:(lia)) as [col Hcol].
    rewrite Hcol.
    destruct (SQL_SUCCEEDED (getdata_ret (fetch_cell a i))) eqn:Hi.
    + unfold unless. rewrite !bind_ret_tt.
      match goal with |- context [iterate_columns n (S i) data a ?v w] =>
        specialize (IH (S i) v w ltac:(lia));
        destruct (iterate_columns n (S i) data a v w) as [[row|e| |] w'] end;
        cbn [fst snd] in *; try contradiction.
      * destruct IH as (Hr & Hw & Hk). rewrite length_app in Hr. cbn [length] in Hr.
        split_conj; [lia | exact Hw |].
        intros k Hk'. destruct (decide (k = i)) as [->|]; [exact Hi | apply Hk; lia].
      * destruct IH as (He & k & Hk & Hf & Hbefore & Hw). split; [exact He |].
        exists k. split; [lia |]. split; [exact Hf |]. split; [| exact Hw].
        intros j Hj. destruct (decide (j = i)) as [->|]; [exact Hi | apply Hbefore; lia].
    + unfold unless.
      rewrite !(bind_raise _ _ _ _ _ (raise_after_diagnostics _ _ getdata_failed w)).
      cbn [fst snd]. split; [reflexivity |].
      exists i. split; [lia |]. split; [exact Hi |]. split; [intros; lia | reflexivity].
Qed.

(** The outcomes of [db2_IterateForeignScan] up to its call of
    [BuildTupleFromCStrings]. *)
Lemma iterate_scan_outcome (drv : Driver) (data : db2PrivateData) (w : world) :
  Z.to_nat (no_columns data) = length (columnsbuf data) ->
  let a := on_fetch drv (n_fetch w) in
  let run := db2_IterateForeignScan drv data w in
  n_fetch (snd run) = S (n_fetch w)
  /\ match fst run with
     | Ok None => fetch_ret a = SQL_NO_DATA_FOUND /\ snd run = count_fetch w
     | Ok (Some row) =>
         SQL_SUCCEEDED (fetch_ret a) = true
         /\ row = emitted_row data a
         /\ length row = Z.to_nat (no_columns data)
         /\ snd run = count_fetch w
         /\ forall k, (k < length (columnsbuf data))%nat ->
                      SQL_SUCCEEDED (getdata_ret (fetch_cell a k)) = true
     | Raise e =>
         fetch_ret a <> SQL_NO_DATA_FOUND
         /\ ((e = fetch_failed /\ SQL_SUCCEEDED (fetch_ret a) = false
              /\ snd run = snd (extract_error "SQLFetch" (fetch_diag a) false
                                  (count_fetch w)))
             \/ (e = getdata_failed /\ SQL_SUCCEEDED (fetch_ret a) = true
                 /\ exists k,
                      (k < length (columnsbuf data))%nat
                      /\ SQL_SUCCEEDED (getdata_ret (fetch_cell a k)) = false
                      /\ (forall j, (j < k)%nat ->
                            SQL_SUCCEEDED (getdata_ret (fetch_cell a j)) = true)
                      /\ snd run
                         = snd (extract_error "SQLGetData"
                                  (getdata_diag (fetch_cell a k)) false
                                  (count_fetch w))))
     | Undefined | OutOfFuel => False
     end.
Proof.
  intros Hcols a run. subst run.
  assert (Hstep : db2_IterateForeignScan drv data w
                  = (if fetch_ret a =? SQL_NO_DATA_FOUND then ret None
                     else
                       unless (SQL_SUCCEEDED (fetch_ret a))
                         (extract_error "SQLFetch" (fetch_diag a) false ;;;
                          ereport fetch_failed) ;;;
                       values <- iterate_columns (Z.to_nat (no_columns data)) O
                                   data a [] ;;
                       ret (Some values)) (count_fetch w)) by reflexivity.
  rewrite Hstep. clear Hstep.
  destruct (fetch_ret a =? SQL_NO_DATA_FOUND) eqn:Hnd.
  { apply Z.eqb_eq in Hnd. cbn. split; [destruct w; reflexivity |].
    split; [exact Hnd | reflexivity]. }
  apply Z.eqb_neq in Hnd.
  destruct (SQL_SUCCEEDED (fetch_ret a)) eqn:Hf.
  2:{ unfold unless.
      rewrite !(bind_raise _ _ _ _ _
                  (raise_after_diagnostics _ _ fetch_failed (count_fetch w))).
      cbn [fst snd].
      split; [rewrite extract_error_scan; destruct w; reflexivity |].
      split; [exact Hnd |]. left. split_conj; reflexivity. }
  unfold unless. rewrite !bind_ret_tt, Hcols.
  pose proof (iterate_columns_outcome data a (length (columnsbuf data)) O []
                (count_fetch w) ltac:(lia)) as H.
  unfold bind.
  destruct (iterate_columns (length (columnsbuf data)) 0 data a [] (count_fetch w))
    as [[row|e| |] w'] eqn:Hrun; cbn [fst snd] in *; try contradiction.
  - destruct H as (Hlen & -> & Hall). unfold ret. cbn [fst snd].
    split; [destruct w; reflexivity |].
    assert (Hrow : row = emitted_row data a).
    { pose proof (iterate_columns_row data a (columnsbuf data) [] [] (count_fetch w)
                    eq_refl) as Hr.
      cbn [length app] in Hr. rewrite Hrun in Hr. clear Hrun.
      assert (Hr' := Hr ltac:(intros k Hk; apply Hall; lia)).
      injection Hr' as ->. reflexivity. }
    split_conj; [reflexivity | exact Hrow | cbn [length] in Hlen; lia | reflexivity |].
    intros k Hk. apply Hall. lia.
  - destruct H as (-> & k & Hk & Hfail & Hbefore & ->).
    split; [rewrite extract_error_scan; destruct w; reflexivity |].
    split; [exact Hnd |]. right. split_conj; try reflexivity.
    exists k. split_conj; [lia | exact Hfail | intros j Hj; apply Hbefore; lia
                          | reflexivity].
Qed.

(** X21.  The outcomes of [db2_IterateForeignScan], its call of
    [BuildTupleFromCStrings] included, on a session whose column buffers
    match its column count.  It returns the end of the data exactly when
    [SQLFetch] returns SQL_NO_DATA_FOUND, and has then changed nothing but
    the count of fetches.  It returns a row, of one cell per column,
    exactly when the fetch and every [SQLGetData] succeed,
    SQL_SUCCESS_WITH_INFO included, and [BuildTupleFromCStrings] builds the
    tuple of the cells; it has then logged nothing.  It raises the fetch
    error when the fetch fails; else the column error, with the
    diagnostics of the first column whose [SQLGetData] fails; else the
    error of [BuildTupleFromCStrings], with nothing logged.  Each call
    counts one fetch. *)
Theorem iterate_outcome (drv : Driver)
    (build : list (option (list ascii)) -> tuple_answer)
    (data : db2PrivateData) (w : world) :
  Z.to_nat (no_columns data) = length (columnsbuf data) ->
  let a := on_fetch drv (n_fetch w) in
  let run := db2_IterateForeignScan_tuple drv build data w in
  let fetched :=
    SQL_SUCCEEDED (fetch_ret a) = true
    /\ forall k, (k < length (columnsbuf data))%nat ->
                 SQL_SUCCEEDED (getdata_ret (fetch_cell a k)) = true in
  n_fetch (snd run) = S (n_fetch w)
  /\ match fst run with
     | Ok None => fetch_ret a = SQL_NO_DATA_FOUND /\ snd run = count_fetch w
     | Ok (Some row) =>
         fetched
         /\ row = emitted_row data a
         /\ length row = Z.to_nat (no_columns data)
         /\ build row = tuple_built
         /\ snd run = count_fetch w
     | Raise e =>
         fetch_ret a <> SQL_NO_DATA_FOUND
         /\ ((e = fetch_failed /\ SQL_SUCCEEDED (fetch_ret a) = false
              /\ snd run = snd (extract_error "SQLFetch" (fetch_diag a) false
                                  (count_fetch w)))
             \/ (e = getdata_failed /\ SQL_SUCCEEDED (fetch_ret a) = true
                 /\ exists k,
                      (k < length (columnsbuf data))%nat
                      /\ SQL_SUCCEEDED (getdata_ret (fetch_cell a k)) = false
                      /\ (forall j, (j < k)%nat ->
                            SQL_SUCCEEDED (getdata_ret (fetch_cell a j)) = true)
                      /\ snd run
                         = snd (extract_error "SQLGetData"
                                  (getdata_diag (fetch_cell a k)) false
                                  (count_fetch w)))
             \/ (fetched /\ build (emitted_row data a) = tuple_raises e
                 /\ snd run = count_fetch w))
     | Undefined =>
         fetched /\ build (emitted_row data a) = tuple_reads_past
         /\ snd run = count_fetch w
     | OutOfFuel => False
     end.
Proof.
  intros Hcols a run fetched. subst run fetched.
  pose proof (iterate_scan_outcome drv data w Hcols) as H. cbv zeta in H.
  fold a in H. destruct H as [Hn H].
  unfold db2_IterateForeignScan_tuple, bind.
  destruct (db2_IterateForeignScan drv data w) as [[[row|]|e| |] w1];
    cbn [fst snd] in *; try contradiction.
  - destruct H as (Hf & -> & Hlen & -> & Hall).
    assert (Hne : fetch_ret a <> SQL_NO_DATA_FOUND)
      by (intros E; rewrite E in Hf; discriminate).
    destruct (build (emitted_row data a)) as [|e|] eqn:Hb;
      cbn [ret ereport undefined fst snd]; (split; [exact Hn |]).
    + split_conj; try reflexivity; assumption.
    + split; [exact Hne |]. right. right.
      split_conj; try reflexivity; assumption.
    + split_conj; try reflexivity; assumption.
  - split; [exact Hn | exact H].
  - split; [exact Hn |]. destruct H as [Hne [H | H]];
      (split; [exact Hne |]); [left | right; left]; exact H.
Qed.

Lemma iterate_outcome_witness :
  let a := on_fetch (fetch_driver 6) (n_fetch empty_world) in
  let run := db2_IterateForeignScan_tuple (fetch_driver 6) (fun _ => tuple_built)
               sample_data empty_world in
  let fetched :=
    SQL_SUCCEEDED (fetch_ret a) = true
    /\ forall k, (k < length (columnsbuf sample_data))%nat ->
                 SQL_SUCCEEDED (getdata_ret (fetch_cell a k)) = true in
  n_fetch (snd run) = S (n_fetch empty_world)
  /\ (fetched
      /\ [Some (cstr "123.45"); Some (cstr "123,45")] = emitted_row sample_data a
      /\ 2%nat = Z.to_nat (no_columns sample_data)
      /\ tuple_built = tuple_built
      /\ snd run = count_fetch empty_world).
Proof.
  apply (iterate_outcome (fetch_driver 6) (fun _ => tuple_built) sample_data
           empty_world).
  reflexivity.
Defined.

(** ** The description of the result *)

Lemma describe_columns_outcome a q :
  forall n i cols w,
    match fst (describe_columns n i a q cols w) with
    | Ok cols' =>
        cols' = cols ++ map (column_of a) (seq i n)
        /\ snd (describe_columns n i a q cols w) = w
        /\ forall k, (i <= k < i + n)%nat ->
                     SQL_SUCCEEDED (describe_ret (describe_col a k)) = true
    | Raise e =>
        e = describe_failed q
        /\ exists k, (i <= k < i + n)%nat
             /\ SQL_SUCCEEDED (describe_ret (describe_col a k)) = false
             /\ (forall j, (i <= j < k)%nat ->
                           SQL_SUCCEEDED (describe_ret (describe_col a j)) = true)
             /\ snd (describe_columns n i a q cols w)
                = snd (extract_error "SQLDescribeCol"
                         (describe_diag (describe_col a k)) false w)
    | Undefined | OutOfFuel => False
    end.
Proof.
  induction n as [|n IH]; intros i cols w; cbn [describe_columns seq map].
  - cbn. rewrite app_nil_r. split; [reflexivity |]. split; [reflexivity | intros; lia].
  - destruct (SQL_SUCCEEDED (describe_ret (describe_col a i))) eqn:Hi.
    + unfold unless. rewrite !bind_ret_tt.
      match goal with |- context [describe_columns n (S i) a q ?v w] =>
        specialize (IH (S i) v w);
        destruct (describe_columns n (S i) a q v w) as [[cols'|e| |] w'] end;
        cbn [fst snd] in *; try contradiction.
      * destruct IH as (Hr & Hw & Hk). rewrite <- app_assoc in Hr.
        split; [exact Hr |]. split; [exact Hw |].
        intros k Hk'. destruct (decide (k = i)) as [->|]; [exact Hi | apply Hk; lia].
      * destruct IH as (He & k & Hk & Hf & Hbefore & Hw). split; [exact He |].
        exists k. split; [lia |]. split; [exact Hf |]. split; [| exact Hw].
        intros j Hj. destruct (decide (j = i)) as [->|]; [exact Hi | apply Hbefore; lia].
    + unfold unless.
      rewrite !(bind_raise _ _ _ _ _ (raise_after_diagnostics _ _ (describe_failed q) w)).
      cbn [fst snd]. split; [reflexivity |].
      exists i. split; [lia |]. split; [exact Hi |]. split; [intros; lia | reflexivity].
Qed.

Lemma describe_result_outcome drv data query w :
  let a := on_describe drv (Nat.pred (n_exec w)) in
  let run := describe_result drv data query w in
  match fst run with
  | Ok d =>
      SQL_SUCCEEDED (numcols_ret a) = true
      /\ d = set_columns (numcols_value a)
               (map (column_of a) (seq 0 (Z.to_nat (numcols_value a)))) data
      /\ snd run = w
      /\ forall k, (k < Z.to_nat (numcols_value a))%nat ->
                   SQL_SUCCEEDED (describe_ret (describe_col a k)) = true
  | Raise e =>
      (e = numcols_failed query /\ SQL_SUCCEEDED (numcols_ret a) = false
       /\ snd run = snd (extract_error "SQLNumResultCols" (numcols_diag a) false w))
      \/ (e = describe_failed query /\ SQL_SUCCEEDED (numcols_ret a) = true
          /\ exists k,
               (k < Z.to_nat (numcols_value a))%nat
               /\ SQL_SUCCEEDED (describe_ret (describe_col a k)) = false
               /\ (forall j, (j < k)%nat ->
                     SQL_SUCCEEDED (describe_ret (describe_col a j)) = true)
               /\ snd run = snd (extract_error "SQLDescribeCol"
                                   (describe_diag (describe_col a k)) false w))
  | Undefined | OutOfFuel => False
  end.
Proof.
  intros a run. subst run.
  assert (Hstep : describe_result drv data query w
                  = (unless (SQL_SUCCEEDED (numcols_ret a))
                       (extract_error "SQLNumResultCols" (numcols_diag a) false ;;;
                        ereport (numcols_failed query)) ;;;
                     cols <- describe_columns (Z.to_nat (numcols_value a)) O a query [] ;;
                     ret (set_columns (numcols_value a) cols data)) w) by reflexivity.
  rewrite Hstep. clear Hstep.
  destruct (SQL_SUCCEEDED (numcols_ret a)) eqn:Hn.
  2:{ unfold unless.
      rewrite !(bind_raise _ _ _ _ _
                  (raise_after_diagnostics _ _ (numcols_failed query) w)).
      cbn [fst snd]. left. split_conj; reflexivity. }
  unfold unless. rewrite !bind_ret_tt.
  pose proof (describe_columns_outcome a query (Z.to_nat (numcols_value a)) O [] w) as H.
  unfold bind.
  destruct (describe_columns (Z.to_nat (numcols_value a)) 0 a query [] w)
    as [[cols|e| |] w'] eqn:Hrun; cbn [fst snd] in *; try contradiction.
  - destruct H as (-> & -> & Hall). unfold ret. cbn [fst snd app].
    split; [reflexivity |]. split; [reflexivity |]. split; [reflexivity |].
    intros k Hk. apply Hall. lia.
  - destruct H as (-> & k & Hk & Hfail & Hbefore & ->). right.
    split; [reflexivity |]. split; [reflexivity |].
    exists k. split; [lia |]. split; [exact Hfail |].
    split; [intros j Hj; apply Hbefore; lia | reflexivity].
Qed.

(** X22.  The description step of [db2_BeginForeignScan], when [palloc]
    serves the buffers.  It succeeds exactly when [SQLNumResultCols] and
    [SQLDescribeCol] on every column succeed; the session then has the
    reported column count and one descriptor per column, in order, with the
    reported size and the numeric flag of the reported type, its handles
    are unchanged and nothing is logged.  Otherwise it raises the column
    count error, or the column description error with the diagnostics of
    the first column that fails. *)
Theorem describe_result_columns (drv : Driver) (data : db2PrivateData)
    (query : option string) (w : world) :
  let a := on_describe drv (Nat.pred (n_exec w)) in
  let run := describe_result drv data query w in
  buffers_allocatable a ->
  match fst run with
  | Ok d =>
      SQL_SUCCEEDED (numcols_ret a) = true
      /\ no_columns d = numcols_value a
      /\ columnsbuf d = map (column_of a) (seq 0 (Z.to_nat (numcols_value a)))
      /\ Z.of_nat (length (columnsbuf d)) = no_columns d
      /\ data_env d = data_env data /\ data_dbc d = data_dbc data
      /\ stmt d = stmt data /\ cached d = cached data
      /\ snd run = w
      /\ forall k, (k < Z.to_nat (numcols_value a))%nat ->
                   SQL_SUCCEEDED (describe_ret (describe_col a k)) = true
  | Raise e =>
      (e = numcols_failed query /\ SQL_SUCCEEDED (numcols_ret a) = false
       /\ snd run = snd (extract_error "SQLNumResultCols" (numcols_diag a) false w))
      \/ (e = describe_failed query /\ SQL_SUCCEEDED (numcols_ret a) = true
          /\ exists k,
               (k < Z.to_nat (numcols_value a))%nat
               /\ SQL_SUCCEEDED (describe_ret (describe_col a k)) = false
               /\ (forall j, (j < k)%nat ->
                     SQL_SUCCEEDED (describe_ret (describe_col a j)) = true)
               /\ snd run = snd (extract_error "SQLDescribeCol"
                                   (describe_diag (describe_col a k)) false w))
  | Undefined | OutOfFuel => False
  end.
Proof.
  intros a run [Hn _]. subst run.
  pose proof (describe_result_outcome drv data query w) as H. cbv zeta in H. fold a in H.
  destruct (fst (describe_result drv data query w)) as [d|e| |]; try exact H.
  destruct H as (H1 & -> & H3 & H4).
  cbn [no_columns columnsbuf data_env data_dbc stmt cached set_columns].
  split_conj; try reflexivity; try assumption.
  rewrite length_map, length_seq. lia.
Qed.

Lemma describe_result_columns_witness :
  let d := set_columns 2 [ {| columnsize := 20; isNumber := true |};
                           {| columnsize := 30; isNumber := false |} ] sample_data in
  SQL_SUCCEEDED (numcols_ret two_columns) = true
  /\ no_columns d = numcols_value two_columns
  /\ columnsbuf d = map (column_of two_columns) (seq 0 (Z.to_nat (numcols_value two_columns)))
  /\ Z.of_nat (length (columnsbuf d)) = no_columns d
  /\ data_env d = data_env sample_data /\ data_dbc d = data_dbc sample_data
  /\ stmt d = stmt sample_data /\ cached d = cached sample_data
  /\ snd (describe_result describe_driver sample_data None empty_world) = empty_world
  /\ forall k, (k < Z.to_nat (numcols_value two_columns))%nat ->
               SQL_SUCCEEDED (describe_ret (describe_col two_columns k)) = true.
Proof.
  apply (describe_result_columns describe_driver sample_data None empty_world).
  split; [vm_compute; discriminate |].
  intros [|[|i]] Hi; [vm_compute; split; discriminate .. |].
  vm_compute in Hi. lia.
Defined.

(** ** What Begin does for every driver *)

Lemma getConnection_released drv t data query w r w' :
  getConnection drv t data query w = (r, w') ->
  released w' = released w /\ freed w' = freed w
  /\ exists more, heap w' = heap w ++ more.
Proof.
  intros Hrun.
  destruct (getConnection_cases _ _ _ _ _ _ _ Hrun)
    as [(_ & _ & -> & _) | [(dsn' & a & n & Hd & Hfind & Hn & Hr & ->)
                       | [(dsn' & ns & ns' & Hd & Hfind & E)
                         | (ns & ns' & Hd & Hc & E)]]];
    try (destruct w; split; [reflexivity | split; [reflexivity |]];
         exists []; symmetry; apply app_nil_r).
  all: cbv zeta in E;
    destruct (SQL_SUCCEEDED (connect_ret (on_connect drv (n_connect w))));
    [destruct (o_cached (resolve_options t query)) |];
    apply pair_equal_spec in E as [_ ->]; destruct w;
    (split; [reflexivity | split; [reflexivity |]]);
    first [ exists []; symmetry; apply app_nil_r | eexists; reflexivity ].
Qed.

Lemma getConnection_entries drv t data query w r w' :
  cache_ok w = true ->
  getConnection drv t data query w = (r, w') ->
  forall x, In x (cache_entries w') ->
            In x (cache_entries w) \/ (length (heap w) <= fst x)%nat.
Proof.
  intros Hw Hrun x.
  assert (Hsame : forall ns, cache_entries
                    (count_connect (set_notices ns (count_getconn w)))
                  = cache_entries w)
    by (intros ns; apply cache_entries_frame; destruct w; reflexivity).
  destruct (getConnection_cases _ _ _ _ _ _ _ Hrun)
    as [(_ & _ & -> & _) | [(dsn' & a & n & Hd & Hfind & Hn & Hr & ->)
                       | [(dsn' & ns & ns' & Hd & Hfind & E)
                         | (ns & ns' & Hd & Hc & E)]]].
  - rewrite (cache_entries_frame (count_getconn w) w) by (destruct w; reflexivity).
    auto.
  - rewrite (cache_entries_frame (count_getconn w) w) by (destruct w; reflexivity).
    auto.
  - cbv zeta in E.
    destruct (SQL_SUCCEEDED (connect_ret (on_connect drv (n_connect w))));
      [destruct (o_cached (resolve_options t query)) |];
      apply pair_equal_spec in E as [_ ->]; rewrite ?Hsame; auto.
    rewrite cache_entries_add by (destruct w; exact Hw).
    rewrite Hsame. intros [<- | Hin]; [right | left; exact Hin].
    cbn [fst]. destruct w; cbn. lia.
  - cbv zeta in E.
    destruct (SQL_SUCCEEDED (connect_ret (on_connect drv (n_connect w))));
      [destruct (o_cached (resolve_options t query)) |];
      apply pair_equal_spec in E as [_ ->]; rewrite ?Hsame; auto.
Qed.

Lemma after_exec_failure_frame x w :
  released (after_exec_failure x w) = released w
  /\ n_fetch (after_exec_failure x w) = n_fetch w
  /\ cache_entries (after_exec_failure x w) = cache_entries w.
Proof.
  unfold after_exec_failure. rewrite extract_error_scan. destruct w.
  split_conj; reflexivity.
Qed.

Lemma after_exec_failure_heap x w :
  heap (after_exec_failure x w) = heap w
  /\ freed (after_exec_failure x w) = freed w.
Proof.
  unfold after_exec_failure. rewrite extract_error_scan. destruct w.
  split; reflexivity.
Qed.

Lemma entry_release_connection l :
  forallb is_connection_release (flat_map entry_release l) = true.
Proof. induction l as [|x l IH]; [reflexivity | exact IH]. Qed.

Lemma after_last_incl hdbc l :
  forall r, after_last hdbc l = Some r -> forall x, In x r -> In x l.
Proof.
  induction l as [|y l IH]; cbn [after_last]; [discriminate|].
  intros r. destruct (after_last hdbc l) as [r'|].
  - intros [= <-] x Hx. right. exact (IH r' eq_refl x Hx).
  - destruct (holds_dbc hdbc y); [|discriminate].
    intros [= <-] x Hx. right. exact Hx.
Qed.

(** The entries [removeConnection] takes out: their handles are given
    back, their blocks freed, and the cache holds them no more. *)
Lemma removeConnection_gone hdbc w :
  cache_ok w = true ->
  let w' := snd (removeConnection hdbc w) in
  let gone := List.filter (holds_dbc hdbc) (cache_entries w) in
  released w' = released w ++ flat_map entry_release gone
  /\ freed w' = freed w ++ map fst gone
  /\ heap w' = heap w
  /\ n_fetch w' = n_fetch w
  /\ (forall x, In x gone ->
        heap w !! fst x = Some (snd x) /\ ~ In x (cache_entries w'))
  /\ (forall x, In x (cache_entries w') -> In x (cache_entries w)).
Proof.
  intros Hw. destruct (removeConnection_run hdbc w Hw) as [Hrun Hent].
  cbv zeta in Hrun, Hent. cbv zeta. rewrite Hrun. cbn [snd].
  pose proof (after_last_clean hdbc (cache_entries w)) as Hclean.
  split; [destruct w; reflexivity |]. split; [destruct w; reflexivity |].
  split; [destruct w; reflexivity |]. split; [destruct w; reflexivity |].
  split.
  - intros [a n] Hin. apply filter_In in Hin as [Hin Hh]. split.
    + exact (chain_lookup _ _ _ _ _ Hin).
    + rewrite Hent. intros Hin'.
      destruct (after_last hdbc (cache_entries w)) as [r|];
        cbn [default] in Hin'; rewrite forallb_forall in Hclean;
        specialize (Hclean _ Hin'); rewrite Hh in Hclean; discriminate.
  - intros x. rewrite Hent.
    destruct (after_last hdbc (cache_entries w)) as [r|] eqn:E; cbn [default].
    + exact (after_last_incl _ _ _ E x).
    + exact (fun H => H).
Qed.

Lemma loop_effect_intro tries w w' more gone :
  cache_ok w' = true ->
  (n_getconn w <= n_getconn w' <= n_getconn w + tries)%nat ->
  (n_exec w <= n_exec w')%nat ->
  (n_exec w' - n_exec w <= n_getconn w' - n_getconn w)%nat ->
  (n_connect w <= n_connect w')%nat ->
  (n_connect w' - n_connect w <= n_getconn w' - n_getconn w)%nat ->
  n_fetch w' = n_fetch w ->
  heap w' = heap w ++ more ->
  (forall x, In x (cache_entries w') ->
             In x (cache_entries w) \/ (length (heap w) <= fst x)%nat) ->
  released w' = released w ++ flat_map entry_release gone ->
  freed w' = freed w ++ map fst gone ->
  (forall x, In x gone ->
             heap w' !! fst x = Some (snd x) /\ ~ In x (cache_entries w')) ->
  loop_effect tries w w'.
Proof.
  intros H1 H2 H3 H4 H5 H6 H7 H8 H9 H10 H11 H12. unfold loop_effect.
  split; [exact H1 |]. split; [exact H2 |]. split; [exact H3 |].
  split; [exact H4 |]. split; [exact H5 |]. split; [exact H6 |].
  split; [exact H7 |]. split; [exists more; exact H8 |].
  split; [exact H9 |]. exists gone. split; [exact H10 |].
  split; [exact H11 | exact H12].
Qed.

Lemma loop_effect_quiet tries w w' more :
  cache_ok w' = true ->
  (n_getconn w <= n_getconn w' <= n_getconn w + tries)%nat ->
  (n_exec w <= n_exec w')%nat ->
  (n_exec w' - n_exec w <= n_getconn w' - n_getconn w)%nat ->
  (n_connect w <= n_connect w')%nat ->
  (n_connect w' - n_connect w <= n_getconn w' - n_getconn w)%nat ->
  n_fetch w' = n_fetch w ->
  heap w' = heap w ++ more ->
  (forall x, In x (cache_entries w') ->
             In x (cache_entries w) \/ (length (heap w) <= fst x)%nat) ->
  released w' = released w ->
  freed w' = freed w ->
  loop_effect tries w w'.
Proof.
  intros H1 H2 H3 H4 H5 H6 H7 H8 H9 H10 H11.
  apply (loop_effect_intro tries w w' more []); try assumption.
  - cbn [flat_map]. rewrite app_nil_r. exact H10.
  - cbn [map]. rewrite app_nil_r. exact H11.
  - intros x [].
Qed.

Lemma loop_effect_refl tries w : cache_ok w = true -> loop_effect tries w w.
Proof.
  intros Hw. apply (loop_effect_quiet tries w w []); try lia; try reflexivity.
  - exact Hw.
  - symmetry. apply app_nil_r.
  - auto.
Qed.

(** What the retry loop does, whatever the driver answers. *)
Lemma begin_loop_effect drv t :
  forall fuel retry data query w,
    cache_ok w = true ->
    (retry <= RETRYNUMB)%nat ->
    (RETRYNUMB - retry <= fuel)%nat ->
    let run := begin_loop fuel drv t retry data query w in
    loop_effect (RETRYNUMB - retry) w (snd run)
    /\ fst run <> OutOfFuel
    /\ (forall e, fst run = Raise e ->
                  e = unable_to_connect (fmt_s (o_dsn (resolve_options t query))))
    /\ (forall d q failure, fst run = Ok (d, q, failure) ->
          (retry < RETRYNUMB)%nat ->
          q = o_query (resolve_options t query)
          /\ cached d = o_cached (resolve_options t query)).
Proof.
  induction fuel as [|fuel IH]; intros retry data query w Hw Hretry Hfuel;
    cbv zeta.
  - assert (retry = RETRYNUMB) as -> by lia. cbn.
    split; [apply loop_effect_refl; exact Hw |].
    split; [discriminate |]. split; [discriminate |]. intros; lia.
  - destruct (decide (retry = RETRYNUMB)) as [->|Hne].
    { cbn. split; [apply loop_effect_refl; exact Hw |].
      split; [discriminate |]. split; [discriminate |]. intros; lia. }
    rewrite (begin_loop_step fuel drv t retry data query w Hw) by lia.
    destruct (getConnection drv t data query w) as [r1 w1] eqn:Hget.
    destruct (getConnection_effect _ _ _ _ _ _ _ Hw Hget)
      as (Hw1 & Hg & He & Hf & Hc & Hok & _ & Hraise & _ & _ & Hnf).
    destruct (getConnection_released _ _ _ _ _ _ _ Hget)
      as (Hrl & Hfr & more & Hheap).
    pose proof (getConnection_entries _ _ _ _ _ _ _ Hw Hget) as Hent.
    assert (Hquiet : loop_effect (RETRYNUMB - retry) w w1)
      by (apply (loop_effect_quiet _ w w1 more); try assumption; lia).
    destruct r1 as [[d q]|e| |].
    2:{ cbn [fst snd]. split; [exact Hquiet |].
        split; [discriminate |]. split; [| discriminate].
        intros e' [= <-]. apply (Hraise e eq_refl). }
    2:{ cbn [fst snd]. split; [exact Hquiet |].
        split; [discriminate |]. split; discriminate. }
    2:{ exfalso. apply Hnf. reflexivity. }
    destruct (Hok d q eq_refl) as [Hcd Hq].
    cbv zeta.
    destruct (SQL_SUCCEEDED (exec_ret (on_exec drv (n_exec w1)))) eqn:Hexec.
    { cbn [fst snd]. split.
      - apply (loop_effect_quiet _ w (count_exec w1) more);
          unfold count_exec;
          cbn [heap cache freed released n_getconn n_exec n_connect n_fetch];
          try assumption; try lia; first [exact Hw1 | exact Hent].
      - split; [discriminate |]. split; [discriminate |].
        intros d0 q0 f0 [= <- <- <-] _. split; [exact Hq | exact Hcd]. }
    destruct (after_exec_failure_effect (on_exec drv (n_exec w1)) w1 Hw1)
      as (Hw2 & Hg2 & Hc2 & He2).
    destruct (after_exec_failure_frame (on_exec drv (n_exec w1)) w1)
      as (Hrl2 & Hf2 & Hent2).
    destruct (after_exec_failure_heap (on_exec drv (n_exec w1)) w1)
      as (Hh2 & Hfr2).
    destruct (cached d) as [token|] eqn:Htok.
    2:{ cbn [fst snd]. split.
        - apply (loop_effect_quiet _ w _ more); try assumption; try lia;
            try congruence.
          rewrite Hent2. exact Hent.
        - split; [discriminate |]. split; [discriminate |].
          intros d0 q0 f0 [= <- <- <-] _. split; [exact Hq |].
          cbn [cached set_stmt]. congruence. }
    destruct (removeConnection_effect (data_dbc d) _ Hw2)
      as (_ & Hw3 & Hg3 & Hc3 & He3).
    destruct (removeConnection_gone (data_dbc d) _ Hw2)
      as (Hrl3 & Hfr3 & Hh3 & Hf3 & Hgone3 & Hsub3).
    assert (Hent3 : forall x,
              In x (cache_entries
                      (snd (removeConnection (data_dbc d)
                              (after_exec_failure (on_exec drv (n_exec w1)) w1)))) ->
              In x (cache_entries w) \/ (length (heap w) <= fst x)%nat).
    { intros x Hx. apply Hent. rewrite <- Hent2. apply Hsub3. exact Hx. }
    destruct (retry_eligible token _).
    2:{ cbn [fst snd]. split.
        - apply (loop_effect_intro _ w _ more
                   (List.filter (holds_dbc (data_dbc d))
                      (cache_entries
                         (after_exec_failure (on_exec drv (n_exec w1)) w1))));
            try assumption; try lia; try congruence.
          intros x Hx. destruct (Hgone3 x Hx) as [Hl Hn].
          split; [rewrite Hh3; exact Hl | exact Hn].
        - split; [discriminate |]. split; [discriminate |].
          intros d0 q0 f0 [= <- <- <-] _. split; [exact Hq |].
          cbn [cached set_stmt]. congruence. }
    match goal with |- context [begin_loop fuel drv t (S retry) ?d' q ?w3] =>
      specialize (IH (S retry) d' q w3 Hw3 ltac:(lia) ltac:(lia)) end.
    cbv zeta in IH. destruct IH as (Heff & Hnf' & Hraise' & Hres).
    split; [| split; [exact Hnf' | split]].
    + unfold loop_effect in Heff.
      destruct Heff as (Hk & Hgg & He1 & He4 & Hc1 & Hc4 & Hff
                        & (more' & Hheap') & Hent' & gone' & Hrl4 & Hfr4 & Hgone').
      apply (loop_effect_intro _ w _ (more ++ more')
               (List.filter (holds_dbc (data_dbc d))
                  (cache_entries
                     (after_exec_failure (on_exec drv (n_exec w1)) w1))
                ++ gone'));
        try assumption; try lia.
      * rewrite Hheap', Hh3, Hh2, Hheap, app_assoc. reflexivity.
      * intros x Hx. destruct (Hent' x Hx) as [Hin | Hlen];
          [exact (Hent3 x Hin) |].
        right. rewrite Hh3, Hh2, Hheap, length_app in Hlen. lia.
      * rewrite Hrl4, Hrl3, Hrl2, Hrl, flat_map_app, app_assoc. reflexivity.
      * rewrite Hfr4, Hfr3, Hfr2, Hfr, map_app, app_assoc. reflexivity.
      * intros x Hx. apply in_app_or in Hx as [Hx | Hx]; [| exact (Hgone' x Hx)].
        destruct (Hgone3 x Hx) as [Hl Hn]. split.
        -- rewrite Hheap'. apply lookup_app_l_Some. rewrite Hh3. exact Hl.
        -- intros Hin. destruct (Hent' x Hin) as [Hin3 | Hlen];
             [exact (Hn Hin3) |].
           apply lookup_lt_Some in Hl. rewrite Hh3 in Hlen. lia.
    + intros e' He'. rewrite (Hraise' e' He'). subst q.
      rewrite (resolve_options_dsn t query). reflexivity.
    + intros d0 q0 f0 Hr0 _.
      destruct (decide (S retry = RETRYNUMB)) as [Hlast|Hmore].
      * revert Hr0. rewrite Hlast.
        destruct fuel; cbn [begin_loop]; cbn; intros [= <- <- <-];
          (split; [exact Hq | cbn [cached set_stmt]; congruence]).
      * destruct (Hres d0 q0 f0 Hr0 ltac:(lia)) as [Hq0 Hc0]. subst q.
        rewrite resolve_options_query_idem in Hq0. split; [exact Hq0 |].
        rewrite Hc0. apply resolve_options_cached.
Qed.

Lemma describe_result_frame drv data query w :
  exists ns, snd (describe_result drv data query w) = set_notices ns w.
Proof.
  pose proof (describe_result_outcome drv data query w) as H. cbv zeta in H.
  destruct (fst (describe_result drv data query w)) as [d|e| |]; try contradiction.
  - destruct H as (_ & _ & -> & _). exists (notices w). destruct w; reflexivity.
  - destruct H as [(_ & _ & ->) | (_ & _ & k & _ & _ & _ & ->)];
      rewrite extract_error_scan; eexists; reflexivity.
Qed.

Lemma loop_effect_notices tries w w' ns :
  loop_effect tries w w' -> loop_effect tries w (set_notices ns w').
Proof. unfold loop_effect. destruct w'. exact (fun H => H). Qed.

Lemma begin_scan_effect drv t w :
  cache_ok w = true ->
  loop_effect RETRYNUMB w (snd (begin_scan drv t w))
  /\ fst (begin_scan drv t w) <> OutOfFuel.
Proof.
  intros Hw.
  destruct (begin_loop_effect drv t RETRYNUMB O palloc_data None w Hw
              ltac:(unfold RETRYNUMB; lia) ltac:(lia)) as (Heff & Hnf & _).
  cbv zeta in Heff, Hnf. rewrite Nat.sub_0_r in Heff.
  rewrite begin_unfold.
  destruct (begin_loop RETRYNUMB drv t O palloc_data None w)
    as [[[[d q] [|]]|e| |] wl]; cbn [fst snd] in *;
    try (split; [exact Heff | discriminate]).
  2:{ exfalso. apply Hnf. reflexivity. }
  destruct (describe_result_frame drv d q wl) as [ns Hns].
  pose proof (describe_result_outcome drv d q wl) as Hout. cbv zeta in Hout.
  split.
  - rewrite Hns. apply loop_effect_notices. exact Heff.
  - intros E. rewrite E in Hout. exact Hout.
Qed.

Lemma begin_loop_calls drv t data query w :
  cache_ok w = true ->
  (n_getconn w < n_getconn (snd (begin_loop RETRYNUMB drv t O data query w)))%nat.
Proof.
  intros Hw. change RETRYNUMB with (S 1) at 1.
  rewrite (begin_loop_step 1 drv t O data query w Hw)
    by (unfold RETRYNUMB; lia).
  destruct (getConnection drv t data query w) as [[[d q]|e| |] w1] eqn:Hget;
    destruct (getConnection_effect _ _ _ _ _ _ _ Hw Hget) as (Hw1 & Hg & _);
    cbn [snd]; try lia.
  cbv zeta.
  destruct (SQL_SUCCEEDED (exec_ret (on_exec drv (n_exec w1)))).
  { cbn [snd]. unfold count_exec. cbn [n_getconn]. lia. }
  destruct (after_exec_failure_effect (on_exec drv (n_exec w1)) w1 Hw1)
    as (Hw2 & Hg2 & _).
  destruct (cached d) as [token|]; [|cbn [snd]; lia].
  destruct (removeConnection_effect (data_dbc d) _ Hw2) as (_ & Hw3 & Hg3 & _).
  destruct (retry_eligible token _); [|cbn [snd]; lia].
  match goal with |- context [begin_loop 1 drv t 1 ?d' q ?w3] =>
    destruct (begin_loop_effect drv t 1 1 d' q w3 Hw3
                ltac:(unfold RETRYNUMB; lia) ltac:(unfold RETRYNUMB; lia))
      as ((_ & Hgg & _) & _) end.
  lia.
Qed.

Lemma begin_scan_calls drv t w :
  cache_ok w = true ->
  (n_getconn w < n_getconn (snd (begin_scan drv t w)))%nat.
Proof.
  intros Hw. pose proof (begin_loop_calls drv t palloc_data None w Hw) as Hl.
  rewrite begin_unfold.
  destruct (begin_loop RETRYNUMB drv t O palloc_data None w)
    as [[[[d q] [|]]|e| |] wl]; cbn [fst snd] in *; try exact Hl.
  destruct (describe_result_frame drv d q wl) as [ns ->].
  destruct wl; exact Hl.
Qed.

(** What [list_drivers] leaves of the state it starts from. *)
Lemma list_drivers_fields drv w :
  let w0 := snd (list_drivers drv w) in
  cache_ok w0 = cache_ok w
  /\ heap w0 = heap w /\ freed w0 = freed w
  /\ cache_entries w0 = cache_entries w
  /\ n_getconn w0 = n_getconn w /\ n_connect w0 = n_connect w
  /\ n_exec w0 = n_exec w /\ n_fetch w0 = n_fetch w
  /\ released w0
     = released w
       ++ [FreeHandle SQL_HANDLE_ENV
             (drivers_env (on_list_drivers drv (n_getconn w)))].
Proof.
  cbv zeta. rewrite list_drivers_run. destruct w. split_conj; reflexivity.
Qed.

(** X23.  [db2_BeginForeignScan] on a well-shaped cache, whatever the
    driver answers: it returns or raises, it requests a connection at least
    once and at most RETRYNUMB times, it makes no more executes and no more
    connects than requests and no fetch, and it leaves the cache
    well-shaped. *)
Theorem begin_bounded (drv : Driver) (t : ForeignTable) (w : world) :
  cache_ok w = true ->
  let run := db2_BeginForeignScan drv t w in
  fst run <> OutOfFuel
  /\ cache_ok (snd run) = true
  /\ (n_getconn w < n_getconn (snd run) <= n_getconn w + RETRYNUMB)%nat
  /\ (n_exec (snd run) - n_exec w <= n_getconn (snd run) - n_getconn w)%nat
  /\ (n_connect (snd run) - n_connect w <= n_getconn (snd run) - n_getconn w)%nat
  /\ (n_exec w <= n_exec (snd run))%nat
  /\ (n_connect w <= n_connect (snd run))%nat
  /\ n_fetch (snd run) = n_fetch w.
Proof.
  intros Hw run. subst run.
  destruct (begin_scan_of_begin drv t w Hw) as [Hfst Hst].
  destruct (same_store_fields _ _ Hst) as (_ & _ & _ & Hg' & Hc' & He' & Hf').
  rewrite Hfst, (same_store_cache_ok _ _ Hst), Hg', Hc', He', Hf'.
  destruct (begin_scan_effect drv t w Hw)
    as ((Hok & Hg & He & He2 & Hc & Hc2 & Hf & _) & Hnf).
  pose proof (begin_scan_calls drv t w Hw) as Hcalls.
  split; [exact Hnf |]. split; [exact Hok |].
  split; [lia |]. split; [exact He2 |]. split; [exact Hc2 |].
  split; [exact He |]. split; [exact Hc | exact Hf].
Qed.

Lemma begin_bounded_witness :
  let run := db2_BeginForeignScan (retry_driver true true)
               (sample_table [option_ "cached" "1205"]) empty_world in
  fst run <> OutOfFuel
  /\ cache_ok (snd run) = true
  /\ (n_getconn empty_world < n_getconn (snd run)
      <= n_getconn empty_world + RETRYNUMB)%nat
  /\ (n_exec (snd run) - n_exec empty_world
      <= n_getconn (snd run) - n_getconn empty_world)%nat
  /\ (n_connect (snd run) - n_connect empty_world
      <= n_getconn (snd run) - n_getconn empty_world)%nat
  /\ (n_exec empty_world <= n_exec (snd run))%nat
  /\ (n_connect empty_world <= n_connect (snd run))%nat
  /\ n_fetch (snd run) = n_fetch empty_world.
Proof.
  apply (begin_bounded (retry_driver true true)
           (sample_table [option_ "cached" "1205"]) empty_world).
  reflexivity.
Defined.



Lemma begin_scan_error_kinds drv t w err :
  cache_ok w = true ->
  fst (begin_scan drv t w) = Raise err ->
  let o := resolve_options t None in
  err = unable_to_connect (fmt_s (o_dsn o))
  \/ err = exec_failed (o_query o) \/ err = numcols_failed (o_query o)
  \/ err = describe_failed (o_query o).
Proof.
  intros Hw Hrun o. subst o.
  destruct (begin_loop_effect drv t RETRYNUMB O palloc_data None w Hw
              ltac:(unfold RETRYNUMB; lia) ltac:(lia)) as (_ & _ & Hraise & Hres).
  cbv zeta in Hraise, Hres. rewrite begin_unfold in Hrun.
  destruct (begin_loop RETRYNUMB drv t O palloc_data None w)
    as [[[[d q] [|]]|e| |] wl]; cbn [fst snd] in *; try discriminate.
  - destruct (Hres d q true eq_refl ltac:(unfold RETRYNUMB; lia)) as [-> _].
    injection Hrun as <-. right. left. reflexivity.
  - destruct (Hres d q false eq_refl ltac:(unfold RETRYNUMB; lia)) as [-> _].
    pose proof (describe_result_outcome drv d
                  (o_query (resolve_options t None)) wl) as Hout.
    cbv zeta in Hout. rewrite Hrun in Hout.
    destruct Hout as [(-> & _) | (-> & _)]; right; right; [left | right]; reflexivity.
  - injection Hrun as <-. left. apply Hraise. reflexivity.
Qed.

Lemma bind_ext {A B : Type} (m : M A) (f g : A -> M B) w :
  (forall x w', f x w' = g x w') -> bind m f w = bind m g w.
Proof.
  intros H. unfold bind. destruct (m w) as [[x|e| |] w']; [apply H | reflexivity ..].
Qed.

Lemma begin_loop_lookup_returns drv t :
  forall fuel retry data query w,
    begin_loop_lookup fuel drv (lookup_returns t) retry data query w
    = begin_loop fuel drv t retry data query w.
Proof.
  induction fuel as [|fuel IH]; intros retry data query w;
    cbn [begin_loop_lookup begin_loop];
    destruct (negb (retry <? RETRYNUMB)%nat); try reflexivity.
  cbn [getConnection_lookup].
  apply bind_ext. intros dq w1. cbv zeta.
  apply bind_ext. intros w2 w3.
  apply bind_ext. intros [] w4.
  destruct (SQL_SUCCEEDED _); [reflexivity |].
  apply bind_ext. intros native w5.
  destruct (cached _) as [token|]; [| reflexivity].
  apply bind_ext. intros [] w6.
  destruct (_ =? ANYERROR); [apply IH |].
  destruct (negb _); [reflexivity | apply IH].
Qed.

Lemma begin_lookup_returns drv t w :
  db2_BeginForeignScan_lookup drv (lookup_returns t) w
  = db2_BeginForeignScan drv t w.
Proof.
  unfold db2_BeginForeignScan_lookup, db2_BeginForeignScan, begin_scan.
  apply bind_ext. intros [] w1. unfold bind.
  rewrite begin_loop_lookup_returns. reflexivity.
Qed.

Lemma begin_lookup_raises drv e w :
  db2_BeginForeignScan_lookup drv (lookup_raises e) w
  = (Raise e, count_getconn (snd (list_drivers drv w))).
Proof.
  unfold db2_BeginForeignScan_lookup. unfold bind at 1.
  rewrite list_drivers_run. reflexivity.
Qed.

(** X25.  The errors of [db2_BeginForeignScan], the catalog lookups of
    [getConnection] included, on a well-shaped cache and when [palloc]
    serves the buffers: the error of the lookups, or, once they have
    returned, the connection error, whose text names the dsn or reads
    (null) when no dsn option is given, the execute error, the column
    count error or the column description error, the last three with the
    query text of the option sql_query; nothing else is raised.
    [list_drivers] raises nothing: its failure is a NOTICE. *)
Theorem begin_error_kinds (drv : Driver) (c : catalog_lookup) (w : world)
    (err : ErrorData) :
  cache_ok w = true ->
  (forall k, buffers_allocatable (on_describe drv k)) ->
  fst (db2_BeginForeignScan_lookup drv c w) = Raise err ->
  match c with
  | lookup_raises e => err = e
  | lookup_returns t =>
      let o := resolve_options t None in
      err = unable_to_connect (fmt_s (o_dsn o))
      \/ err = exec_failed (o_query o) \/ err = numcols_failed (o_query o)
      \/ err = describe_failed (o_query o)
  end.
Proof.
  intros Hw _. destruct c as [e | t].
  - rewrite begin_lookup_raises. intros [= <-]. reflexivity.
  - rewrite begin_lookup_returns. intros Hrun.
    destruct (begin_scan_of_begin drv t w Hw) as [Hfst _].
    rewrite Hfst in Hrun. exact (begin_scan_error_kinds drv t w err Hw Hrun).
Qed.

Lemma begin_error_kinds_witness :
  let o := resolve_options
             {| table_options := [option_ "sql_query" "SELECT 1"];
                server_options := [];
                mapping_options := []; user_id := 10 |} None in
  unable_to_connect "(null)" = unable_to_connect (fmt_s (o_dsn o))
  \/ unable_to_connect "(null)" = exec_failed (o_query o)
  \/ unable_to_connect "(null)" = numcols_failed (o_query o)
  \/ unable_to_connect "(null)" = describe_failed (o_query o).
Proof.
  apply (begin_error_kinds (retry_driver false false)
           (lookup_returns
              {| table_options := [option_ "sql_query" "SELECT 1"];
                 server_options := [];
                 mapping_options := []; user_id := 10 |})
           (count_connect empty_world)
           (unable_to_connect "(null)")).
  - reflexivity.
  - intros k. split; [vm_compute; discriminate |].
    intros i Hi. vm_compute in Hi. lia.
  - reflexivity.
Defined.

(** X26.  The first try of [db2_BeginForeignScan].  [list_drivers] gives
    back its environment handle, after a NOTICE when the handle could not
    be allocated.  When [getConnection], run from there, succeeds, the
    first [SQLExecDirect] succeeds, [SQLNumResultCols] and every
    [SQLDescribeCol] succeed and [palloc] serves the buffers, Begin returns
    a session with the two handles of [getConnection], the statement of
    that execute and the described columns; one connection was requested,
    one execute made, and nothing changed after [list_drivers] and
    [getConnection] but the execute count. *)
Theorem begin_first_try (drv : Driver) (t : ForeignTable) (w w1 : world)
    (d1 : db2PrivateData) (q1 : option string) :
  cache_ok w = true ->
  let l := on_list_drivers drv (n_getconn w) in
  let w0 := set_released
              (released w ++ [FreeHandle SQL_HANDLE_ENV (drivers_env l)])
              (set_notices
                 (notices w
                  ++ (if SQL_SUCCEEDED (drivers_env_ret l) then []
                      else [NoticeText "Cannot allocate SQL_HANDLE_ENV"])) w) in
  getConnection drv t palloc_data None w0 = (Ok (d1, q1), w1) ->
  let x := on_exec drv (n_exec w1) in
  let a := on_describe drv (n_exec w1) in
  SQL_SUCCEEDED (exec_ret x) = true ->
  SQL_SUCCEEDED (numcols_ret a) = true ->
  (forall k, (k < Z.to_nat (numcols_value a))%nat ->
             SQL_SUCCEEDED (describe_ret (describe_col a k)) = true) ->
  buffers_allocatable a ->
  db2_BeginForeignScan drv t w
  = (Ok {| data_env := data_env d1; data_dbc := data_dbc d1;
           stmt := stmt_handle x; no_columns := numcols_value a;
           columnsbuf := map (column_of a) (seq 0 (Z.to_nat (numcols_value a)));
           cached := cached d1 |},
     count_exec w1).
Proof.
  intros Hw l w0 Hget x a Hexec Hnum Hcols _.
  assert (Hw0 : cache_ok w0 = true) by (destruct w; exact Hw).
  rewrite begin_list_drivers, list_drivers_run. cbn [snd]. fold l. fold w0.
  rewrite begin_unfold. change RETRYNUMB with (S 1) at 1.
  rewrite (begin_loop_step 1 drv t O palloc_data None w0 Hw0)
    by (unfold RETRYNUMB; lia).
  rewrite Hget. cbv zeta. fold x. rewrite Hexec.
  pose proof (describe_result_outcome drv (set_stmt (stmt_handle x) d1) q1
                (count_exec w1)) as Hout.
  cbv zeta in Hout.
  assert (Ha : on_describe drv (Nat.pred (n_exec (count_exec w1))) = a)
    by (destruct w1; reflexivity).
  rewrite Ha in Hout.
  destruct (describe_result drv (set_stmt (stmt_handle x) d1) q1 (count_exec w1))
    as [[d|e| |] w'] eqn:Hrun; cbn [fst snd] in Hout; try contradiction.
  - destruct Hout as (_ & -> & -> & _). reflexivity.
  - exfalso. destruct Hout as [(_ & Hf & _) | (_ & _ & k & Hk & Hf & _)].
    + rewrite Hnum in Hf. discriminate.
    + rewrite (Hcols k Hk) in Hf. discriminate.
Qed.

Lemma begin_first_try_witness :
  db2_BeginForeignScan describe_driver (sample_table []) empty_world
  = (Ok {| data_env := 11; data_dbc := 12; stmt := 6; no_columns := 2;
           columnsbuf := [ {| columnsize := 20; isNumber := true |};
                           {| columnsize := 30; isNumber := false |} ];
           cached := None |},
     count_exec
       (set_released [FreeHandle SQL_HANDLE_ENV 99]
          (first_turn_world describe_driver (sample_table [])))).
Proof.
  apply (begin_first_try describe_driver (sample_table []) empty_world
           (set_released [FreeHandle SQL_HANDLE_ENV 99]
              (first_turn_world describe_driver (sample_table [])))
           (first_turn_data None) (Some "SELECT 1")).
  - reflexivity.
  - reflexivity.
  - reflexivity.
  - reflexivity.
  - intros k _. destruct k; reflexivity.
  - split; [vm_compute; discriminate |].
    intros [|i] _; vm_compute; split; discriminate.
Defined.

Lemma getConnection_holds drv t data query w d q w1 token :
  cache_ok w = true ->
  getConnection drv t data query w = (Ok (d, q), w1) ->
  cached d = Some token ->
  existsb (holds_dbc (data_dbc d)) (cache_entries w1) = true.
Proof.
  intros Hw Hrun Htok.
  destruct (getConnection_cases _ _ _ _ _ _ _ Hrun)
    as [(Hno & _) | [(dsn' & a & n & Hd & Hfind & Hn & Hr & ->)
                    | [(dsn' & ns & ns' & Hd & Hfind & E)
                      | (ns & ns' & Hd & Hc & E)]]].
  - exfalso. exact (Hno _ eq_refl).
  - injection Hr as -> _.
    destruct (findConnection_found _ _ _ _ Hw Hfind) as (n' & Hn' & Hin).
    rewrite Hn in Hn'. injection Hn' as <-.
    apply existsb_exists. exists (a, n). split.
    + rewrite (cache_entries_frame w (count_getconn w)) by (destruct w; reflexivity).
      exact Hin.
    + unfold holds_dbc. cbn. apply Z.eqb_refl.
  - cbv zeta in E.
    destruct (SQL_SUCCEEDED (connect_ret (on_connect drv (n_connect w))));
      [|discriminate].
    apply pair_equal_spec in E as [[= -> ->] ->].
    cbn [cached set_data_dbc set_data_env set_cached] in Htok. rewrite Htok.
    rewrite cache_entries_add by (destruct w; exact Hw).
    cbn [existsb]. unfold holds_dbc at 1. cbn. rewrite Z.eqb_refl. reflexivity.
  - exfalso. cbv zeta in E.
    destruct (SQL_SUCCEEDED (connect_ret (on_connect drv (n_connect w))));
      [|discriminate].
    destruct (o_cached (resolve_options t query)) eqn:Hoc; [discriminate |].
    apply pair_equal_spec in E as [[= -> ->] _].
    cbn [cached set_data_dbc set_data_env set_cached] in Htok.
    congruence.
Qed.

Lemma begin_scan_failure_evicts drv t w w1 d1 q1 token :
  cache_ok w = true ->
  getConnection drv t palloc_data None w = (Ok (d1, q1), w1) ->
  cached d1 = Some token ->
  let x := on_exec drv (n_exec w1) in
  SQL_SUCCEEDED (exec_ret x) = false ->
  retry_eligible token (reported_native (exec_diag x)) = false ->
  let run := begin_scan drv t w in
  fst run = Raise (exec_failed q1)
  /\ forallb (fun e => negb (holds_dbc (data_dbc d1) e)) (cache_entries (snd run)) = true
  /\ In (FreeHandle SQL_HANDLE_DBC (data_dbc d1)) (released (snd run))
  /\ exists extra,
       released (snd run) = released w ++ extra
       /\ forallb is_connection_release extra = true.
Proof.
  intros Hw Hget Htok x Hexec Hel run. subst run.
  rewrite begin_unfold. change RETRYNUMB with (S 1) at 1 2 3 4.
  rewrite (begin_loop_step 1 drv t O palloc_data None w Hw)
    by (unfold RETRYNUMB; lia).
  rewrite Hget. cbv zeta. fold x. rewrite Hexec, Htok, Hel. cbn [fst snd].
  destruct (getConnection_effect _ _ _ _ _ _ _ Hw Hget) as (Hw1 & _).
  destruct (getConnection_released _ _ _ _ _ _ _ Hget) as [Hrl _].
  destruct (after_exec_failure_effect x w1 Hw1) as (Hw2 & _).
  destruct (after_exec_failure_frame x w1) as (Hrl2 & _ & Hent2).
  pose proof (getConnection_holds _ _ _ _ _ _ _ _ _ Hw Hget Htok) as Hholds.
  destruct (removeConnection_run (data_dbc d1) _ Hw2) as [Hrm Hent].
  cbv zeta in Hrm, Hent. rewrite Hrm in *. cbn [snd].
  split; [reflexivity |]. split; [| split].
  - rewrite Hent.
    pose proof (after_last_clean (data_dbc d1)
                  (cache_entries (after_exec_failure x w1))) as Hc.
    destruct (after_last (data_dbc d1) (cache_entries (after_exec_failure x w1)));
      exact Hc.
  - rewrite Hent2 in *. apply existsb_exists in Hholds as ([a n] & Hin & Hh).
    match goal with |- In _ (released ?W) =>
      assert (Hr : released W
                   = released (after_exec_failure x w1)
                     ++ flat_map entry_release
                          (List.filter (holds_dbc (data_dbc d1)) (cache_entries w1)))
        by (destruct (after_exec_failure x w1); reflexivity) end.
    rewrite Hr. apply in_or_app. right. apply in_flat_map.
    exists (a, n). split.
    + apply filter_In. split; [exact Hin | exact Hh].
    + left. unfold holds_dbc in Hh. cbn [snd] in *. apply Z.eqb_eq in Hh.
      rewrite Hh. reflexivity.
  - eexists. split.
    + match goal with |- released ?W = _ =>
        assert (Hr : released W
                     = released (after_exec_failure x w1)
                       ++ flat_map entry_release
                            (List.filter (holds_dbc (data_dbc d1))
                               (cache_entries (after_exec_failure x w1))))
          by (destruct (after_exec_failure x w1); reflexivity) end.
      rewrite Hr, Hrl2, Hrl. reflexivity.
    + apply entry_release_connection.
Qed.

(** X27.  A session with the option cached whose first [SQLExecDirect]
    fails with a native code the option does not name: Begin raises the
    execute error and the connection of the session is taken out of the
    cache, so no entry holds its handle any more; the handle is freed, but
    [SQLDisconnect] is not called and the statement is not given back. *)
Theorem begin_failure_evicts (drv : Driver) (t : ForeignTable) (w w1 : world)
    (d1 : db2PrivateData) (q1 : option string) (token : string) :
  cache_ok w = true ->
  getConnection drv t palloc_data None w = (Ok (d1, q1), w1) ->
  cached d1 = Some token ->
  let x := on_exec drv (n_exec w1) in
  SQL_SUCCEEDED (exec_ret x) = false ->
  retry_eligible token (reported_native (exec_diag x)) = false ->
  let run := db2_BeginForeignScan drv t w in
  fst run = Raise (exec_failed q1)
  /\ forallb (fun e => negb (holds_dbc (data_dbc d1) e)) (cache_entries (snd run)) = true
  /\ In (FreeHandle SQL_HANDLE_DBC (data_dbc d1)) (released (snd run))
  /\ exists extra,
       released (snd run) = released w ++ extra
       /\ forallb is_connection_release extra = true.
Proof.
  intros Hw Hget Htok x Hexec Hel run. subst run.
  rewrite begin_list_drivers.
  destruct (list_drivers_fields drv w)
    as (Hw0 & _ & _ & _ & _ & _ & _ & _ & Hrl0).
  cbv zeta in Hw0, Hrl0. rewrite Hw in Hw0.
  destruct (getConnection_store drv t palloc_data None w _ _ w1
              (same_store_list_drivers drv w) Hget) as (w1' & Hget' & Hst).
  destruct (same_store_fields _ _ Hst) as (_ & _ & _ & _ & _ & He & _).
  assert (Hx : on_exec drv (n_exec w1') = x) by (subst x; rewrite He; reflexivity).
  destruct (begin_scan_failure_evicts drv t _ w1' d1 q1 token Hw0 Hget' Htok
              ltac:(rewrite Hx; exact Hexec) ltac:(rewrite Hx; exact Hel))
    as (H1 & H2 & H3 & extra & H4 & H5).
  split; [exact H1 |]. split; [exact H2 |]. split; [exact H3 |].
  exists (FreeHandle SQL_HANDLE_ENV
            (drivers_env (on_list_drivers drv (n_getconn w))) :: extra).
  split.
  - rewrite H4, Hrl0, <- app_assoc. reflexivity.
  - cbn [forallb is_connection_release]. rewrite H5. reflexivity.
Qed.

Lemma begin_failure_evicts_witness :
  let run := db2_BeginForeignScan (retry_driver true true)
               (sample_table [option_ "cached" "911"]) empty_world in
  fst run = Raise (exec_failed (Some "SELECT 1"))
  /\ forallb (fun e => negb (holds_dbc 12 e)) (cache_entries (snd run)) = true
  /\ In (FreeHandle SQL_HANDLE_DBC 12) (released (snd run))
  /\ exists extra,
       released (snd run) = released empty_world ++ extra
       /\ forallb is_connection_release extra = true.
Proof.
  apply (begin_failure_evicts (retry_driver true true)
           (sample_table [option_ "cached" "911"]) empty_world
           (first_turn_world (retry_driver true true)
              (sample_table [option_ "cached" "911"]))
           (first_turn_data (Some "911")) (Some "SELECT 1") "911");
    reflexivity.
Defined.

(** ** Tokens that are not numbers *)

Lemma atol_not_a_number s :
  (forall c r, skip_spaces s = c :: r -> digit_of c = None) ->
  (forall r, skip_spaces s = "-"%char :: r -> digit_of (hd NUL r) = None) ->
  (forall r, skip_spaces s = "+"%char :: r -> digit_of (hd NUL r) = None) ->
  atol s = 0.
Proof.
  intros Hc Hm Hp. unfold atol.
  destruct (skip_spaces s) as [|c r] eqn:Hs; [reflexivity|].
  assert (Hd : forall l, digit_of (hd NUL l) = None -> digits_value 0 l = 0).
  { intros [|y l] H; cbn [digits_value hd] in *; [reflexivity|].
    rewrite H. reflexivity. }
  destruct (Ascii.eqb c "-") eqn:E1.
  { apply Ascii.eqb_eq in E1. subst c. rewrite (Hd r (Hm r eq_refl)). reflexivity. }
  destruct (Ascii.eqb c "+") eqn:E2.
  { apply Ascii.eqb_eq in E2. subst c. rewrite (Hd r (Hp r eq_refl)). reflexivity. }
  rewrite (Hd (c :: r) (Hc c r eq_refl)). reflexivity.
Qed.

(** The loop takes a second turn when the first execute of a cached session
    fails with a code the token makes eligible. *)
Lemma begin_scan_second_turn drv t w d1 q1 w1 token :
  cache_ok w = true ->
  getConnection drv t palloc_data None w = (Ok (d1, q1), w1) ->
  cached d1 = Some token ->
  SQL_SUCCEEDED (exec_ret (on_exec drv (n_exec w1))) = false ->
  retry_eligible token (reported_native (exec_diag (on_exec drv (n_exec w1)))) = true ->
  let w2 := snd (removeConnection (data_dbc d1)
                   (after_exec_failure (on_exec drv (n_exec w1)) w1)) in
  let second := getConnection drv t (set_stmt (stmt_handle (on_exec drv (n_exec w1))) d1)
                  q1 w2 in
  n_getconn (snd (begin_scan drv t w)) = S (S (n_getconn w))
  /\ (forall e, fst second = Raise e -> fst (begin_scan drv t w) = Raise e)
  /\ (fst second = Undefined -> fst (begin_scan drv t w) = Undefined).
Proof.
  intros Hw Hget Htok Hexec Hel w2 second.
  destruct (getConnection_effect _ _ _ _ _ _ _ Hw Hget) as (Hw1 & Hg1 & _).
  destruct (after_exec_failure_effect (on_exec drv (n_exec w1)) w1 Hw1)
    as (Hw2 & Hg2 & _).
  destruct (removeConnection_effect (data_dbc d1) _ Hw2) as (_ & Hw3 & Hg3 & _).
  fold w2 in Hw3, Hg3.
  assert (Hloop : begin_loop RETRYNUMB drv t O palloc_data None w
                  = begin_loop 1 drv t 1
                      (set_stmt (stmt_handle (on_exec drv (n_exec w1))) d1) q1 w2).
  { change RETRYNUMB with (S 1) at 1.
    rewrite (begin_loop_step 1 drv t O palloc_data None w Hw)
      by (unfold RETRYNUMB; lia).
    rewrite Hget. cbv zeta. rewrite Hexec, Htok, Hel. reflexivity. }
  rewrite begin_unfold, Hloop.
  rewrite (begin_loop_step 0 drv t 1 _ q1 w2 Hw3) by (unfold RETRYNUMB; lia).
  fold second. destruct second as [r2 w4] eqn:Hsec.
  destruct (getConnection_effect _ _ _ _ _ _ _ Hw3 Hsec) as (Hw4 & Hg4 & _).
  assert (Hn : n_getconn w4 = S (S (n_getconn w))) by lia.
  destruct r2 as [[d2 q2]|e| |]; cbn [fst snd].
  2-4: split; [exact Hn | split; [intros e' [= <-] | intros [=]]; reflexivity ].
  split; [| split; [intros e' [=] | intros [=]]].
  cbv zeta.
  destruct (SQL_SUCCEEDED (exec_ret (on_exec drv (n_exec w4)))).
  - cbn [fst snd].
    destruct (describe_result_frame drv (set_stmt (stmt_handle (on_exec drv (n_exec w4))) d2)
                q2 (count_exec w4)) as [ns Hns].
    rewrite Hns. destruct w4; exact Hn.
  - destruct (after_exec_failure_effect (on_exec drv (n_exec w4)) w4 Hw4)
      as (Hw5 & Hg5 & _).
    destruct (cached d2) as [token2|].
    + destruct (removeConnection_effect (data_dbc d2) _ Hw5) as (_ & _ & Hg6 & _).
      destruct (retry_eligible token2 _); cbn [begin_loop];
        unfold RETRYNUMB, ret; cbn [Nat.ltb Nat.leb negb fst snd];
        rewrite Hg6, Hg5; exact Hn.
    + cbn [fst snd]. rewrite Hg5. exact Hn.
Qed.

(** X28.  A token of the option cached that does not start, after white
    space and an optional sign, with a decimal digit is read by [atol] as
    0, which the loop of [db2_BeginForeignScan] takes for ANYERROR.  So
    when the first [SQLExecDirect] of a session with such a token fails,
    whatever the native code of the failure, the loop takes its second
    turn: [getConnection] is called a second time, and an error or an
    undefined step of that call is the outcome of Begin. *)
Theorem retry_token_not_a_number (drv : Driver) (t : ForeignTable)
    (w w1 : world) (d1 : db2PrivateData) (q1 : option string) (token : string) :
  cache_ok w = true ->
  getConnection drv t palloc_data None w = (Ok (d1, q1), w1) ->
  cached d1 = Some token ->
  (forall c r, skip_spaces (cstr token) = c :: r -> digit_of c = None) ->
  (forall r, skip_spaces (cstr token) = "-"%char :: r -> digit_of (hd NUL r) = None) ->
  (forall r, skip_spaces (cstr token) = "+"%char :: r -> digit_of (hd NUL r) = None) ->
  let x := on_exec drv (n_exec w1) in
  SQL_SUCCEEDED (exec_ret x) = false ->
  let run := db2_BeginForeignScan drv t w in
  let w2 := snd (removeConnection (data_dbc d1) (after_exec_failure x w1)) in
  let second := fst (getConnection drv t (set_stmt (stmt_handle x) d1) q1 w2) in
  atol (cstr token) = 0
  /\ (forall native, retry_eligible token native = true)
  /\ n_getconn (snd run) = S (S (n_getconn w))
  /\ (forall e, second = Raise e -> fst run = Raise e)
  /\ (second = Undefined -> fst run = Undefined).
Proof.
  intros Hw Hget Htok Hc Hm Hp x Hexec run w2 second.
  pose proof (atol_not_a_number _ Hc Hm Hp) as H.
  assert (Hel : forall native, retry_eligible token native = true)
    by (intros native; unfold retry_eligible; rewrite H; reflexivity).
  destruct (begin_scan_second_turn drv t w d1 q1 w1 token Hw Hget Htok Hexec
              (Hel _)) as (Hn & Hsec & Hund).
  destruct (begin_scan_of_begin drv t w Hw) as [Hfst Hst].
  destruct (same_store_fields _ _ Hst) as (_ & _ & _ & Hg & _).
  split; [exact H |]. split; [exact Hel |]. subst run. rewrite Hfst, Hg.
  split; [exact Hn |]. split; [exact Hsec | exact Hund].
Qed.

Lemma retry_token_not_a_number_witness :
  let drv := retry_driver false true in
  let t := sample_table [option_ "cached" "yes"] in
  let w := empty_world in
  let w1 := first_turn_world drv t in
  let d1 := first_turn_data (Some "yes") in
  let q1 := Some "SELECT 1"%string in
  let x := on_exec drv (n_exec w1) in
  let run := db2_BeginForeignScan drv t w in
  let w2 := snd (removeConnection (data_dbc d1) (after_exec_failure x w1)) in
  let second := fst (getConnection drv t (set_stmt (stmt_handle x) d1) q1 w2) in
  atol (cstr "yes") = 0
  /\ (forall native, retry_eligible "yes" native = true)
  /\ n_getconn (snd run) = S (S (n_getconn w))
  /\ (forall e, second = Raise e -> fst run = Raise e)
  /\ (second = Undefined -> fst run = Undefined).
Proof.
  cbv zeta.
  apply (retry_token_not_a_number (retry_driver false true)
           (sample_table [option_ "cached" "yes"]) empty_world
           (first_turn_world (retry_driver false true)
              (sample_table [option_ "cached" "yes"]))
           (first_turn_data (Some "yes")) (Some "SELECT 1"%string) "yes").
  - reflexivity.
  - reflexivity.
  - reflexivity.
  - intros c r [= <- _]. reflexivity.
  - intros r H. discriminate H.
  - intros r H. discriminate H.
  - reflexivity.
Defined.
